(** * FeReader: viewer state bookkeeping of [FeReaderWindow] (main.py)

    A shallow embedding of the page / zoom / layout bookkeeping of the main
    window, of its document loaders and of the settings bootstrap, together
    with the properties the specification states about them.

    Conventions of the embedding.
    - Every attribute of the Python object that the modelled methods read or
      write is a field of the record [window]; methods are computations in
      the monad [UI], which threads the window, may raise a Python exception
      (the window keeps the mutations made before the raise, as in Python)
      and records the dialogs shown and the layout rebuilds performed.
    - Whatever an external collaborator decides (file dialog, input dialogs,
      PyMuPDF, ebooklib, the settings file) is an explicit argument of the
      method that consults it.
    - [current_zoom] is a Python float.  It is modelled by a rational kept in
      lowest terms; the properties below are order properties of the clamps,
      which do not depend on rounding.  Everything the code derives from the
      zoom through [int(...)] for display only (label sizes, the percentage
      text) is kept symbolic.  The one float product that decides a stored
      value, the font size of a typed percentage, is computed in IEEE 754
      double arithmetic.
    - The settings parser is a default [ConfigParser]: values are read
      through its [%] interpolation and checked by it when they are set.
    - Style sheets and captions ([apply_theme], [apply_language]) are
      write-only and are left out.
    - The conversion dialog is a window of its own: [ConvertDialog] is a
      record apart from [window], and its methods return the dialog together
      with the message boxes shown and the file written. *)

From Stdlib Require Import ZArith QArith Lia Lqa List SpecFloat Ascii.
From stdpp Require Import base option list strings gmap pretty.

Open Scope Z_scope.

(** ** Record update *)

Class Setter {R E : Type} (proj : R -> E) := set : (E -> E) -> R -> R.
Arguments set {R E} proj {Setter} _ _ /.

Ltac build_setter eta proj :=
  let e := eval cbv delta [eta] in eta in
  match eval pattern proj in e with
  | ?s ?p =>
      let t := constr:(fun f => s (fun r => f (proj r))) in
      let t' := eval cbv beta in t in
      exact t'
  end.

Notation "w <| proj := v |>" := (set proj (fun _ => v) w)
  (at level 1, left associativity, proj at level 0, v at level 99).

(** ** Data model *)

Inductive book_type := Pdf | Epub.
Inductive view_mode_t := Single | Continuous.

(** A rasterised PDF page ([QImage]); only its size is ever read. *)
Record QImage := { img_width : Z; img_height : Z }.

(** An entry of [self.pages]: [load_pdf] appends [len(self.pages)],
    [load_epub] appends the rewritten HTML of a chapter. *)
Inductive page :=
| PdfPage (n : Z)
| HtmlPage (html : string).

(** Text handed to a widget.  [Tr lang key] stands for [self.tr(key)] under
    language [lang]; [PageInfo] for the status line
    [f"{title}  |  Page {index + 1} / {len(pages)}"]. *)
Inductive ui_text :=
| Tr (lang key : string)
| PageInfo (title : string) (page_no page_count : Z).

Inductive stack_widget := TextView | SingleScroll | MultiScroll.

Inductive text_content :=
| PlainText (t : ui_text)
| Html (content : string).

(** [img.scaled(int(w * zoom), int(h * zoom), Qt.KeepAspectRatio, ...)]. *)
Record scaled_pixmap := { base_image : QImage; scale : Q }.

Inductive layout_item :=
| Label (pix : scaled_pixmap)
| Stretch.

(** The zoom label: ["100%"], [int(current_zoom * 100)] or
    [int(current_font_size / float(base_font_size) * 100)]. *)
Inductive zoom_label_text :=
| Percent100
| PercentOfZoom (zoom : Q)
| PercentOfFont (font_size base : Z).

(** [configparser.ConfigParser]: the DEFAULT section and the named ones.
    Option names are stored lower-cased, as [optionxform] leaves them. *)
Record ConfigParser := {
  cfg_defaults : gmap string string;
  cfg_sections : gmap string (gmap string string)
}.

(** The settings file at [config_path]. *)
Inductive settings_file :=
| Absent
| Malformed                       (* [ConfigParser.read] raises *)
| Stored (c : ConfigParser).

Record window := {
  (* settings *)
  config : ConfigParser;
  disk : settings_file;
  language : string;
  theme : string;
  font_family : string;
  base_font_size : Z;
  (* document *)
  current_book_type : option book_type;
  current_book_path : option string;
  current_book_title : string;
  pages : list page;
  pdf_images : list QImage;
  epub_temp_dir : option string;
  (* view state *)
  current_index : Z;
  current_font_size : Z;
  current_zoom : Q;
  view_mode : view_mode_t;
  _continuous_needs_build : bool;
  (* widgets *)
  stack_current : stack_widget;
  text_view : text_content;
  text_font : string * Z;
  single_image_label : option scaled_pixmap;
  multi_layout : list layout_item;
  one_page_checked : bool;
  all_pages_checked : bool;
  status_message : ui_text;
  zoom_label : zoom_label_text
}.

Definition window_eta (w : window) : window :=
  Build_window (config w) (disk w) (language w) (theme w) (font_family w)
    (base_font_size w) (current_book_type w) (current_book_path w)
    (current_book_title w) (pages w) (pdf_images w) (epub_temp_dir w)
    (current_index w) (current_font_size w) (current_zoom w) (view_mode w)
    (_continuous_needs_build w) (stack_current w) (text_view w) (text_font w)
    (single_image_label w) (multi_layout w) (one_page_checked w)
    (all_pages_checked w) (status_message w) (zoom_label w).

#[global] Instance set_config : Setter config := ltac:(build_setter window_eta config).
#[global] Instance set_disk : Setter disk := ltac:(build_setter window_eta disk).
#[global] Instance set_language : Setter language := ltac:(build_setter window_eta language).
#[global] Instance set_theme : Setter theme := ltac:(build_setter window_eta theme).
#[global] Instance set_font_family : Setter font_family := ltac:(build_setter window_eta font_family).
#[global] Instance set_base_font_size : Setter base_font_size := ltac:(build_setter window_eta base_font_size).
#[global] Instance set_current_book_type : Setter current_book_type := ltac:(build_setter window_eta current_book_type).
#[global] Instance set_current_book_path : Setter current_book_path := ltac:(build_setter window_eta current_book_path).
#[global] Instance set_current_book_title : Setter current_book_title := ltac:(build_setter window_eta current_book_title).
#[global] Instance set_pages : Setter pages := ltac:(build_setter window_eta pages).
#[global] Instance set_pdf_images : Setter pdf_images := ltac:(build_setter window_eta pdf_images).
#[global] Instance set_epub_temp_dir : Setter epub_temp_dir := ltac:(build_setter window_eta epub_temp_dir).
#[global] Instance set_current_index : Setter current_index := ltac:(build_setter window_eta current_index).
#[global] Instance set_current_font_size : Setter current_font_size := ltac:(build_setter window_eta current_font_size).
#[global] Instance set_current_zoom : Setter current_zoom := ltac:(build_setter window_eta current_zoom).
#[global] Instance set_view_mode_field : Setter view_mode := ltac:(build_setter window_eta view_mode).
#[global] Instance set_continuous_needs_build : Setter _continuous_needs_build := ltac:(build_setter window_eta _continuous_needs_build).
#[global] Instance set_stack_current : Setter stack_current := ltac:(build_setter window_eta stack_current).
#[global] Instance set_text_view : Setter text_view := ltac:(build_setter window_eta text_view).
#[global] Instance set_text_font : Setter text_font := ltac:(build_setter window_eta text_font).
#[global] Instance set_single_image_label : Setter single_image_label := ltac:(build_setter window_eta single_image_label).
#[global] Instance set_multi_layout : Setter multi_layout := ltac:(build_setter window_eta multi_layout).
#[global] Instance set_one_page_checked : Setter one_page_checked := ltac:(build_setter window_eta one_page_checked).
#[global] Instance set_all_pages_checked : Setter all_pages_checked := ltac:(build_setter window_eta all_pages_checked).
#[global] Instance set_status_message : Setter status_message := ltac:(build_setter window_eta status_message).
#[global] Instance set_zoom_label : Setter zoom_label := ltac:(build_setter window_eta zoom_label).

(** ** Exceptions, effects and the [UI] monad *)

Inductive exn :=
| IndexError
| KeyError
| TypeError
| ZeroDivisionError
| OverflowError
| ValueError
| InterpolationSyntaxError          (* the three errors of [configparser]'s *)
| InterpolationMissingOptionError   (* [%] interpolation *)
| InterpolationDepthError
| EngineError (msg : string).     (* anything PyMuPDF, ebooklib or the OS raise *)

Inductive result (A : Type) :=
| Ok (a : A)
| Raise (e : exn).
Arguments Ok {A} a.
Arguments Raise {A} e.

Inductive effect :=
| MsgWarning (title text : string)            (* QMessageBox.warning *)
| MsgCritical (title text : string)           (* QMessageBox.critical *)
| RebuildContinuous (labels : nat).           (* one run of the rebuild loop *)

Definition UI (A : Type) : Type := window -> result A * window * list effect.

#[global] Instance UI_ret : MRet UI := fun A a w => (Ok a, w, []).

#[global] Instance UI_bind : MBind UI := fun A B k m w =>
  match m w with
  | (Ok a, w1, t1) => let '(r, w2, t2) := k a w1 in (r, w2, t1 ++ t2)
  | (Raise e, w1, t1) => (Raise e, w1, t1)
  end.

Definition raise {A : Type} (e : exn) : UI A := fun w => (Raise e, w, []).
Definition get : UI window := fun w => (Ok w, w, []).
Definition modify (f : window -> window) : UI unit := fun w => (Ok tt, f w, []).
Definition emit (e : effect) : UI unit := fun w => (Ok tt, w, [e]).

(** [try: m  except Exception as e: h e] *)
Definition try_except {A : Type} (m : UI A) (h : exn -> UI A) : UI A := fun w =>
  match m w with
  | (Ok a, w1, t1) => (Ok a, w1, t1)
  | (Raise e, w1, t1) => let '(r, w2, t2) := h e w1 in (r, w2, t1 ++ t2)
  end.

Definition final {A : Type} (x : result A * window * list effect) : window := snd (fst x).
Definition outcome {A : Type} (x : result A * window * list effect) : result A := fst (fst x).
Definition trace {A : Type} (x : result A * window * list effect) : list effect := snd x.

(** ** Python helpers *)

(** Python floats are IEEE 754 doubles: 53 bits of precision, exponents
    below 1024, every operation rounded to the nearest even. *)
Definition float_prec : Z := 53.
Definition float_emax : Z := 1024.

(** [float(n)] for an [int], as the arithmetic operators convert it: the
    nearest double, OverflowError beyond the largest one. *)
Definition float_of_int (n : Z) : result spec_float :=
  match binary_normalize float_prec float_emax n 0 false with
  | S754_infinity _ => Raise OverflowError
  | x => Ok x
  end.

(** The literal [100.0]. *)
Definition float_100 : spec_float :=
  binary_normalize float_prec float_emax 100 0 false.

(** [int(x)] for a float: truncation towards zero. *)
Definition int_of_float (x : spec_float) : result Z :=
  match x with
  | S754_zero _ => Ok 0
  | S754_finite negative m e =>
      let magnitude := Z.shiftl (Z.pos m) e in
      Ok (if negative then - magnitude else magnitude)
  | S754_infinity _ => Raise OverflowError
  | S754_nan => Raise ValueError
  end.

Definition Qltb (x y : Q) : bool := negb (Qle_bool y x).

(** [l[i]]: negative indices count from the end; out of range raises. *)
Definition py_index {A : Type} (l : list A) (i : Z) : result A :=
  let n := Z.of_nat (length l) in
  let j := if i <? 0 then i + n else i in
  if (0 <=? j) && (j <? n)
  then match l !! Z.to_nat j with
       | Some x => Ok x
       | None => Raise IndexError
       end
  else Raise IndexError.

(** [not l] *)
Definition is_empty {A : Type} (l : list A) : bool :=
  match l with [] => true | _ => false end.

Definition len {A : Type} (l : list A) : Z := Z.of_nat (length l).

(** ** Status bar and zoom label *)

Definition _update_statusbar : UI unit :=
  modify (fun w =>
    w <| status_message :=
           if is_empty (pages w)
           then Tr (language w) "no_document"
           else PageInfo (current_book_title w) (current_index w + 1) (len (pages w)) |>).

Definition _update_zoom_label : UI unit :=
  w ← get;
  if is_empty (pages w) then
    modify (fun w => w <| zoom_label := Percent100 |>)
  else
    match current_book_type w with
    | Some Pdf =>
        modify (fun w => w <| zoom_label := PercentOfZoom (current_zoom w) |>)
    | _ =>
        (* current_font_size / float(base_font_size) *)
        if base_font_size w =? 0 then raise ZeroDivisionError
        else modify (fun w =>
               w <| zoom_label := PercentOfFont (current_font_size w) (base_font_size w) |>)
    end.

(** ** Rendering *)

Definition _build_continuous_pdf_widgets : UI unit :=
  w ← get;
  let zoom := if Qle_bool (current_zoom w) 0 then 1%Q else current_zoom w in
  let labels := map (fun img => Label {| base_image := img; scale := zoom |}) (pdf_images w) in
  modify (fun w => w <| multi_layout := labels ++ [Stretch] |>);;
  emit (RebuildContinuous (length labels));;
  modify (fun w => w <| _continuous_needs_build := false |>).

Definition _update_view : UI unit :=
  w ← get;
  if is_empty (pages w) then
    modify (fun w => w <| stack_current := TextView |>
                       <| text_view := PlainText (Tr (language w) "no_document") |>);;
    _update_statusbar;;
    _update_zoom_label
  else
    match current_book_type w with
    | Some Epub =>
        modify (fun w => w <| stack_current := TextView |>);;
        match py_index (pages w) (current_index w) with
        | Raise e => raise e
        | Ok (PdfPage _) => raise TypeError
        | Ok (HtmlPage content) =>
            modify (fun w => w <| text_view := Html content |>
                               <| text_font := (font_family w, current_font_size w) |>)
        end
    | Some Pdf =>
        match view_mode w with
        | Single =>
            modify (fun w => w <| stack_current := SingleScroll |>);;
            if (0 <=? current_index w) && (current_index w <? len (pdf_images w)) then
              match pdf_images w !! Z.to_nat (current_index w) with
              | Some base_img =>
                  let zoom := if Qltb 0 (current_zoom w) then current_zoom w else 1%Q in
                  modify (fun w =>
                    w <| single_image_label :=
                           Some {| base_image := base_img; scale := zoom |} |>)
              | None => raise IndexError
              end
            else
              modify (fun w => w <| single_image_label := None |>)
        | Continuous =>
            modify (fun w => w <| stack_current := MultiScroll |>);;
            if _continuous_needs_build w then _build_continuous_pdf_widgets
            else mret tt
        end
    | None => mret tt
    end;;
    _update_statusbar;;
    _update_zoom_label.

(** ** Navigation *)

Definition go_prev : UI unit :=
  w ← get;
  if is_empty (pages w) then mret tt
  else if 0 <? current_index w then
    modify (fun w => w <| current_index := current_index w - 1 |>);;
    _update_view
  else mret tt.

Definition go_next : UI unit :=
  w ← get;
  if is_empty (pages w) then mret tt
  else if current_index w <? len (pages w) - 1 then
    modify (fun w => w <| current_index := current_index w + 1 |>);;
    _update_view
  else mret tt.

(** The answer of [QInputDialog.getInt]: [(value, ok)]. *)
Definition getInt_answer : Type := Z * bool.

(** What Qt guarantees about it: an accepted value lies within the
    [min] and [max] the dialog was opened with. *)
Definition getInt_contract (lo hi : Z) (a : getInt_answer) : Prop :=
  snd a = true -> lo <= fst a <= hi.

Definition go_to_page_dialog (answer : getInt_answer) : UI unit :=
  w ← get;
  if is_empty (pages w) then mret tt
  else
    let '(value, ok) := answer in
    if ok then
      modify (fun w => w <| current_index := value - 1 |>);;
      _update_view
    else mret tt.

(** ** Zoom *)

Definition zoom_in : UI unit :=
  w ← get;
  if is_empty (pages w) then mret tt
  else
    match current_book_type w with
    | Some Pdf =>
        modify (fun w => w <| current_zoom := Qred (current_zoom w + 0.15) |>);;
        modify (fun w => if Qltb 3 (current_zoom w) then w <| current_zoom := 3%Q |> else w);;
        modify (fun w => match view_mode w with
                         | Continuous => w <| _continuous_needs_build := true |>
                         | Single => w
                         end)
    | _ =>
        modify (fun w => w <| current_font_size := current_font_size w + 1 |>);;
        modify (fun w => if 40 <? current_font_size w
                         then w <| current_font_size := 40 |> else w)
    end;;
    _update_view.

Definition zoom_out : UI unit :=
  w ← get;
  if is_empty (pages w) then mret tt
  else
    match current_book_type w with
    | Some Pdf =>
        modify (fun w => w <| current_zoom := Qred (current_zoom w - 0.15) |>);;
        modify (fun w => if Qltb (current_zoom w) 0.5 then w <| current_zoom := 0.5%Q |> else w);;
        modify (fun w => match view_mode w with
                         | Continuous => w <| _continuous_needs_build := true |>
                         | Single => w
                         end)
    | _ =>
        modify (fun w => w <| current_font_size := current_font_size w - 1 |>);;
        modify (fun w => if current_font_size w <? 8
                         then w <| current_font_size := 8 |> else w)
    end;;
    _update_view.

(** [int(self.base_font_size * (value / 100.0))], in double arithmetic. *)
Definition scaled_font_size (base value : Z) : result Z :=
  match float_of_int value with
  | Raise e => Raise e
  | Ok v =>
      let scale := SFdiv float_prec float_emax v float_100 in
      match float_of_int base with
      | Raise e => Raise e
      | Ok b => int_of_float (SFmul float_prec float_emax b scale)
      end
  end.

Definition zoom_label_clicked (answer : getInt_answer) : UI unit :=
  w ← get;
  if is_empty (pages w) then mret tt
  else
    (* current_percent, the initial value of the dialog *)
    match current_book_type w with
    | Some Pdf => mret tt
    | _ => if base_font_size w =? 0 then raise ZeroDivisionError else mret tt
    end;;
    let '(value, ok) := answer in
    if negb ok then mret tt
    else
      match current_book_type w with
      | Some Pdf =>
          modify (fun w => w <| current_zoom := Qred (inject_Z value / 100) |>);;
          modify (fun w => if Qltb (current_zoom w) 0.5 then w <| current_zoom := 0.5%Q |> else w);;
          modify (fun w => if Qltb 3 (current_zoom w) then w <| current_zoom := 3%Q |> else w);;
          modify (fun w => match view_mode w with
                           | Continuous => w <| _continuous_needs_build := true |>
                           | Single => w
                           end)
      | _ =>
          match scaled_font_size (base_font_size w) value with
          | Raise e => raise e
          | Ok new_size =>
              let new_size := if new_size <? 8 then 8 else new_size in
              let new_size := if 40 <? new_size then 40 else new_size in
              modify (fun w => w <| current_font_size := new_size |>)
          end
      end;;
      _update_view.

(** ** View mode *)

Definition set_view_mode (mode : string) : UI unit :=
  w ← get;
  match current_book_type w with
  | Some Pdf =>
      if String.eqb mode "single" then
        modify (fun w => w <| view_mode := Single |>
                           <| one_page_checked := true |>
                           <| all_pages_checked := false |>);;
        _update_view
      else if String.eqb mode "continuous" then
        modify (fun w => w <| view_mode := Continuous |>
                           <| one_page_checked := false |>
                           <| all_pages_checked := true |>
                           <| _continuous_needs_build := true |>);;
        _update_view
      else mret tt
  | _ => mret tt
  end.

(** ** Opening a PDF (PyMuPDF) *)

(** What [fitz] answers for the chosen file.  [page_pixmaps] lists, page by
    page, the image the loop body obtains, or the exception it dies with. *)
Record fitz_document := {
  needs_pass : bool;
  authenticate : string -> bool;
  page_pixmaps : list (result QImage)
}.

Record pdf_env := {
  fitz_open : result fitz_document;       (* [fitz.open(path)] *)
  password_answer : string * bool         (* [QInputDialog.getText]: [(password, ok)] *)
}.

Fixpoint load_pdf_pages (ps : list (result QImage)) : UI unit :=
  match ps with
  | [] => mret tt
  | Raise e :: _ => raise e
  | Ok img :: rest =>
      modify (fun w => w <| pdf_images := pdf_images w ++ [img] |>);;
      modify (fun w => w <| pages := pages w ++ [PdfPage (len (pages w))] |>);;
      load_pdf_pages rest
  end.

Definition load_pdf (env : pdf_env) : UI unit :=
  modify (fun w => w <| current_book_type := Some Pdf |>
                     <| pages := [] |>
                     <| pdf_images := [] |>
                     <| current_zoom := 1%Q |>
                     <| view_mode := Single |>
                     <| one_page_checked := true |>
                     <| all_pages_checked := false |>
                     <| _continuous_needs_build := true |>);;
  match fitz_open env with
  | Raise e => raise e
  | Ok doc =>
      let '(password, ok) := password_answer env in
      if needs_pass doc && (negb ok || String.eqb password EmptyString) then
        emit (MsgWarning "Cancelled" "Cannot open encrypted PDF.")
      else if needs_pass doc && negb (authenticate doc password) then
        emit (MsgCritical "Error" "Incorrect password.")
      else
        load_pdf_pages (page_pixmaps doc)
  end.

(** ** Opening an EPUB (ebooklib) *)

Record epub_book := {
  extract_items : result unit;            (* the loop copying every item to the temp dir *)
  document_items : list (result string)   (* per ITEM_DOCUMENT: [str(soup)] after the
                                             image links are rewritten, or the exception *)
}.

Record epub_env := {
  mkdtemp : result string;                (* [tempfile.mkdtemp(prefix="fereader_epub_")] *)
  read_epub : result epub_book            (* [epub.read_epub(path)] *)
}.

(** Forgets the temporary directory ([shutil.rmtree] swallows every error). *)
Definition _cleanup_epub_temp : UI unit :=
  modify (fun w => w <| epub_temp_dir := None |>).

Fixpoint load_epub_documents (items : list (result string)) : UI unit :=
  match items with
  | [] => mret tt
  | Raise e :: _ => raise e
  | Ok clean_html :: rest =>
      modify (fun w => w <| pages := pages w ++ [HtmlPage clean_html] |>);;
      load_epub_documents rest
  end.

Definition no_readable_content : string := "<h3>No readable content found.</h3>".

Definition load_epub (env : epub_env) : UI unit :=
  modify (fun w => w <| current_book_type := Some Epub |>
                     <| pages := [] |>
                     <| current_font_size := base_font_size w |>);;
  _cleanup_epub_temp;;
  match mkdtemp env with
  | Raise e => raise e
  | Ok dir =>
      modify (fun w => w <| epub_temp_dir := Some dir |>);;
      match read_epub env with
      | Raise e => raise e
      | Ok book =>
          match extract_items book with
          | Raise e => raise e
          | Ok _ =>
              load_epub_documents (document_items book);;
              modify (fun w => if is_empty (pages w)
                               then w <| pages := pages w ++ [HtmlPage no_readable_content] |>
                               else w)
          end
      end
  end.

(** ** [open_file] *)

Record open_env := {
  chosen_path : string;                   (* [QFileDialog.getOpenFileName]; empty = cancelled *)
  chosen_ext : string;                    (* [os.path.splitext(path)[1].lower()] *)
  chosen_basename : string;               (* [os.path.basename(path)] *)
  pdf : pdf_env;
  epub : epub_env
}.

(** [str(e)] *)
Definition exn_str (e : exn) : string :=
  match e with
  | IndexError => "list index out of range"
  | KeyError => "KeyError"
  | TypeError => "TypeError"
  | ZeroDivisionError => "float division by zero"
  | OverflowError => "OverflowError"
  | ValueError => "ValueError"
  | InterpolationSyntaxError => "InterpolationSyntaxError"
  | InterpolationMissingOptionError => "InterpolationMissingOptionError"
  | InterpolationDepthError => "InterpolationDepthError"
  | EngineError msg => msg
  end.

Definition newline : string := String (Ascii.ascii_of_nat 10) EmptyString.

Definition open_file (env : open_env) : UI unit :=
  if String.eqb (chosen_path env) EmptyString then mret tt
  else
    loaded ← try_except
      (if String.eqb (chosen_ext env) ".pdf" then
         load_pdf (pdf env);; mret true
       else if String.eqb (chosen_ext env) ".epub" then
         load_epub (epub env);; mret true
       else
         emit (MsgWarning "Unsupported file" "Only PDF and EPUB are supported.");;
         mret false)
      (fun e =>
         emit (MsgCritical "Error" ("Failed to open file:" ++ newline ++ exn_str e));;
         mret false);
    if loaded : bool then
      modify (fun w => w <| current_book_path := Some (chosen_path env) |>
                         <| current_book_title := chosen_basename env |>
                         <| current_index := 0 |>);;
      _update_view
    else mret tt.

(** ** Settings *)

(** A fresh [configparser.ConfigParser()]. *)
Definition empty_config : ConfigParser :=
  {| cfg_defaults := ∅; cfg_sections := ∅ |}.

(** [parser.read(path)] on a well-formed file: its sections are merged into
    the parser, the file's values winning. *)
Definition cfg_read (file parser : ConfigParser) : ConfigParser :=
  {| cfg_defaults := cfg_defaults file ∪ cfg_defaults parser;
     cfg_sections := union_with (fun a b => Some (a ∪ b))
                       (cfg_sections file) (cfg_sections parser) |}.

(** [section in parser] for a section other than DEFAULT *)
Definition has_section (c : ConfigParser) (section : string) : bool :=
  bool_decide (is_Some (cfg_sections c !! section)).

(** [parser.has_option(section, option)] for a section other than DEFAULT *)
Definition has_option (c : ConfigParser) (section option : string) : bool :=
  match cfg_sections c !! section with
  | None => false
  | Some d => bool_decide (is_Some (d !! option)) || bool_decide (is_Some (cfg_defaults c !! option))
  end.

(** [parser[section]] read as a dictionary of raw values: the section's own
    options, then those of DEFAULT. *)
Definition cfg_lookup (c : ConfigParser) (section name : string) : option string :=
  match cfg_sections c !! section with
  | Some d =>
      match d !! name with
      | Some v => Some v
      | None => cfg_defaults c !! name
      end
  | None => None
  end.

(** *** [BasicInterpolation], the interpolation of a default parser *)

(** [str.lower] on the ASCII letters. *)
Definition ascii_lower (c : ascii) : ascii :=
  let n := Ascii.nat_of_ascii c in
  if (65 <=? n)%nat && (n <=? 90)%nat then Ascii.ascii_of_nat (n + 32) else c.

(** [parser.optionxform] *)
Fixpoint optionxform (s : string) : string :=
  match s with
  | EmptyString => EmptyString
  | String c rest => String (ascii_lower c) (optionxform rest)
  end.

(** ['%' in s] *)
Fixpoint contains_percent (s : string) : bool :=
  match s with
  | EmptyString => false
  | String c rest => Ascii.eqb c "%"%char || contains_percent rest
  end.

(** Where a left-to-right reading of a value stands with respect to the
    references [%(name)s]. *)
Inductive scan_state :=
| Plain                          (* outside a reference *)
| AfterPercent                   (* a [%] has been read *)
| InName (name : string)         (* [%(] and [name] have been read *)
| AfterName (name : string).     (* [%(name)] has been read *)

(** The loop of [_interpolate_some]: [%%] gives [%], [%(name)s] gives the
    value of option [name], itself interpolated by [nested] when it holds
    a [%]; any other use of [%] is a syntax error. *)
Fixpoint interpolate_scan (nested : string -> result string)
    (map : string -> option string) (st : scan_state) (rest : string) : result string :=
  match rest with
  | EmptyString =>
      match st with
      | Plain => Ok EmptyString
      | _ => Raise InterpolationSyntaxError
      end
  | String c rest =>
      match st with
      | Plain =>
          if Ascii.eqb c "%"%char then interpolate_scan nested map AfterPercent rest
          else match interpolate_scan nested map Plain rest with
               | Ok tail => Ok (String c tail)
               | Raise e => Raise e
               end
      | AfterPercent =>
          if Ascii.eqb c "%"%char then
            match interpolate_scan nested map Plain rest with
            | Ok tail => Ok (String c tail)
            | Raise e => Raise e
            end
          else if Ascii.eqb c "("%char then interpolate_scan nested map (InName EmptyString) rest
          else Raise InterpolationSyntaxError
      | InName name =>
          if Ascii.eqb c ")"%char then
            if String.eqb name EmptyString then Raise InterpolationSyntaxError
            else interpolate_scan nested map (AfterName name) rest
          else interpolate_scan nested map (InName (name +:+ String c EmptyString)) rest
      | AfterName name =>
          if Ascii.eqb c "s"%char then
            match map (optionxform name) with
            | None => Raise InterpolationMissingOptionError
            | Some v =>
                match (if contains_percent v then nested v else Ok v) with
                | Raise e => Raise e
                | Ok head =>
                    match interpolate_scan nested map Plain rest with
                    | Ok tail => Ok (head +:+ tail)
                    | Raise e => Raise e
                    end
                end
            end
          else Raise InterpolationSyntaxError
      end
  end.

(** [_interpolate_some], [depth_left] levels of nesting being allowed. *)
Fixpoint _interpolate_some (depth_left : nat) (map : string -> option string)
    (rest : string) : result string :=
  match depth_left with
  | O => Raise InterpolationDepthError
  | S n => interpolate_scan (_interpolate_some n map) map Plain rest
  end.

Definition MAX_INTERPOLATION_DEPTH : nat := 10.

(** [before_get] *)
Definition before_get (c : ConfigParser) (section value : string) : result string :=
  _interpolate_some MAX_INTERPOLATION_DEPTH (cfg_lookup c section) value.

(** [value.replace('%%', '')] *)
Fixpoint drop_escaped_percent (s : string) : string :=
  match s with
  | EmptyString => EmptyString
  | String c rest =>
      match rest with
      | EmptyString => s
      | String c' rest' =>
          if Ascii.eqb c "%"%char && Ascii.eqb c' "%"%char then drop_escaped_percent rest'
          else String c (drop_escaped_percent rest)
      end
  end.

(** No [%] is left once the references [%(name)s] are cut out. *)
Fixpoint only_references (st : scan_state) (s : string) : bool :=
  match s with
  | EmptyString =>
      match st with
      | Plain => true
      | _ => false
      end
  | String c rest =>
      match st with
      | Plain =>
          if Ascii.eqb c "%"%char then only_references AfterPercent rest
          else only_references Plain rest
      | AfterPercent =>
          if Ascii.eqb c "("%char then only_references (InName EmptyString) rest else false
      | InName name =>
          if Ascii.eqb c ")"%char then
            if String.eqb name EmptyString then false
            else only_references (AfterName name) rest
          else only_references (InName (name +:+ String c EmptyString)) rest
      | AfterName name =>
          if Ascii.eqb c "s"%char then only_references Plain rest else false
      end
  end.

(** [before_set] lets the value through (it raises ValueError otherwise). *)
Definition before_set (value : string) : bool :=
  only_references Plain (drop_escaped_percent value).

(** *** The accessors of the parser *)

(** [parser[section][option]]: the section's own value, else DEFAULT's,
    interpolated. *)
Definition cfg_get (c : ConfigParser) (section option : string) : result string :=
  match cfg_lookup c section option with
  | Some v => before_get c section v
  | None => Raise KeyError
  end.

(** The store behind [parser[section][option] = value]. *)
Definition cfg_store (c : ConfigParser) (section option value : string) : ConfigParser :=
  {| cfg_defaults := cfg_defaults c;
     cfg_sections := alter (fun d => <[option := value]> d) section (cfg_sections c) |}.

(** [parser[section][option] = value] on an existing section *)
Definition cfg_set (c : ConfigParser) (section option value : string) : result ConfigParser :=
  if before_set value then Ok (cfg_store c section option value) else Raise ValueError.

(** [parser[section].setdefault(option, value)]: the option is read, and
    set when reading it raises KeyError. *)
Definition cfg_setdefault (c : ConfigParser) (section option value : string)
    : result ConfigParser :=
  if has_option c section option then
    match cfg_get c section option with
    | Ok _ => Ok c
    | Raise e => Raise e
    end
  else cfg_set c section option value.

(** [parser[section] = {}] *)
Definition cfg_reset_section (c : ConfigParser) (section : string) : ConfigParser :=
  {| cfg_defaults := cfg_defaults c;
     cfg_sections := <[section := ∅]> (cfg_sections c) |}.

Definition defaults : list (string * string) :=
  [ ("theme", "light");
    ("font_family", "Segoe UI");
    ("font_size", "12");
    ("language", "en") ].

(** [for key, value in defaults.items(): general.setdefault(key, value)] *)
Fixpoint setdefault_each (items : list (string * string)) : UI unit :=
  match items with
  | [] => mret tt
  | (key, value) :: rest =>
      w ← get;
      match cfg_setdefault (config w) "General" key value with
      | Ok c => modify (fun w => w <| config := c |>)
      | Raise e => raise e
      end;;
      setdefault_each rest
  end.

Definition _load_or_create_settings : UI unit :=
  w ← get;
  match disk w with
  | Absent => mret tt
  | Stored file => modify (fun w => w <| config := cfg_read file (config w) |>)
  | Malformed => modify (fun w => w <| config := empty_config |>)
  end;;
  modify (fun w => if has_section (config w) "General" then w
                   else w <| config := cfg_reset_section (config w) "General" |>);;
  setdefault_each defaults;;
  modify (fun w => w <| disk := Stored (config w) |>).

(** [general[option] = value] in [save_settings] *)
Definition set_general (option : string) (value : window -> string) : UI unit :=
  w ← get;
  match cfg_set (config w) "General" option (value w) with
  | Ok c => modify (fun w => w <| config := c |>)
  | Raise e => raise e
  end.

Definition save_settings : UI unit :=
  w ← get;
  if has_section (config w) "General" then
    set_general "theme" theme;;
    set_general "font_family" font_family;;
    set_general "font_size" (fun w => pretty (base_font_size w));;
    set_general "language" language;;
    modify (fun w => w <| disk := Stored (config w) |>)
  else raise KeyError.

(** What [SettingsDialog.get_values] returns. *)
Record settings_values := {
  v_font_family : string;
  v_font_size : Z;
  v_theme : string;
  v_language : string
}.

(** What the dialog's widgets guarantee: the spin box has range 8..48, the
    theme and language come from two-entry combo boxes. *)
Definition settings_contract (v : settings_values) : Prop :=
  8 <= v_font_size v <= 48 /\
  (v_theme v = "light" \/ v_theme v = "dark") /\
  (v_language v = "en" \/ v_language v = "th").

(** [answer] is [None] when the dialog is dismissed. *)
Definition open_settings_dialog (answer : option settings_values) : UI unit :=
  w ← get;
  (* SettingsDialog.__init__ indexes LANG_STRINGS[current_lang] *)
  if negb (String.eqb (language w) "en" || String.eqb (language w) "th") then raise KeyError
  else
    match answer with
    | None => mret tt
    | Some values =>
        modify (fun w => w <| font_family := v_font_family values |>);;
        modify (fun w => w <| base_font_size := v_font_size values |>);;
        modify (fun w => w <| current_font_size := base_font_size w |>);;
        modify (fun w => w <| theme := v_theme values |>);;
        modify (fun w => w <| language := v_language values |>);;
        save_settings;;
        _update_view
    end.

(** ** The window after [__init__]

    [__init__] from the point where the four settings have been read back
    from the parser ([size] is [int(config["General"]["font_size"])]). *)
Definition init_attributes (cfg : ConfigParser) (file : settings_file)
    (lang thm family : string) (size : Z) : window :=
  {| config := cfg; disk := file;
     language := lang; theme := thm; font_family := family; base_font_size := size;
     current_book_type := None;
     current_book_path := None;
     current_book_title := "Untitled";
     pages := [];
     pdf_images := [];
     epub_temp_dir := None;
     current_index := 0;
     current_font_size := size;
     current_zoom := 1%Q;
     view_mode := Single;
     _continuous_needs_build := true;
     stack_current := TextView;
     text_view := PlainText (Tr lang "no_document");
     text_font := (family, size);
     single_image_label := None;
     multi_layout := [];
     one_page_checked := true;
     all_pages_checked := false;
     status_message := Tr lang "no_document";
     zoom_label := Percent100 |}.

(** ** The controller's operations *)

Inductive op :=
| OpenFile (env : open_env)
| GoPrev
| GoNext
| GoToPage (answer : getInt_answer)
| ZoomIn
| ZoomOut
| ZoomLabel (answer : getInt_answer)
| SetViewMode (mode : string)
| Settings (answer : option settings_values).

Definition run (o : op) : UI unit :=
  match o with
  | OpenFile env => open_file env
  | GoPrev => go_prev
  | GoNext => go_next
  | GoToPage a => go_to_page_dialog a
  | ZoomIn => zoom_in
  | ZoomOut => zoom_out
  | ZoomLabel a => zoom_label_clicked a
  | SetViewMode m => set_view_mode m
  | Settings a => open_settings_dialog a
  end.

(** The dialogs answer within their contracts. *)
Definition op_contract (w : window) (o : op) : Prop :=
  match o with
  | GoToPage a => getInt_contract 1 (len (pages w)) a
  | ZoomLabel a => getInt_contract 50 300 a
  | Settings (Some v) => settings_contract v
  | _ => True
  end.

(** Runs a sequence of operations, stopping at the first uncaught exception. *)
Fixpoint run_all (os : list op) : UI unit :=
  match os with
  | [] => mret tt
  | o :: rest => run o;; run_all rest
  end.

(** ** Closing the window *)


(** ** Wheel events on the page views ([PageScrollArea]) *)

(** The vertical scroll bar as [wheelEvent] reads it. *)
Record scroll_bar := { bar_value : Z; bar_minimum : Z; bar_maximum : Z }.

Record PageScrollArea := {
  on_scroll_prev : option (UI unit);
  on_scroll_next : option (UI unit)
}.

(** [wheelEvent]; [delta] is [event.angleDelta().y()].  The result tells
    whether the event is handed on to [QScrollArea.wheelEvent]. *)
Definition wheelEvent (area : PageScrollArea) (delta : Z) (bar : scroll_bar) : UI bool :=
  match on_scroll_prev area, on_scroll_next area with
  | None, None => mret true
  | prev, next =>
      let at_top := bar_value bar =? bar_minimum bar in
      let at_bottom := bar_value bar =? bar_maximum bar in
      match (0 <? delta) && at_top, prev with
      | true, Some flip => flip;; mret false
      | _, _ =>
          match (delta <? 0) && at_bottom, next with
          | true, Some flip => flip;; mret false
          | _, _ => mret true
          end
      end
  end.

(** [self.single_scroll] of the main window. *)
Definition single_scroll : PageScrollArea :=
  {| on_scroll_prev := Some go_prev; on_scroll_next := Some go_next |}.

(** ** Translations *)

(** [LANG_STRINGS["en"]] and [LANG_STRINGS["th"]], in the order of the source. *)
Definition LANG_STRINGS_en : list (string * string) :=
  [ ("menu", "Menu");
    ("open", "Open");
    ("settings", "Setting");
    ("convert", "Convert");
    ("exit", "Exit");
    ("prev", "Prev");
    ("next", "Next");
    ("goto", "Go to");
    ("one_page", "One Page");
    ("all_pages", "All Pages");
    ("help", "Help");
    ("view_help", "View Help");
    ("about", "About FeReader");
    ("font", "Font");
    ("theme", "Theme");
    ("language", "Language");
    ("theme_light", "Light");
    ("theme_dark", "Dark");
    ("language_en", "English (US)");
    ("language_th", "ภาษาไทย");
    ("settings_title", "Settings");
    ("convert_title", "Convert");
    ("no_document", "No document loaded.") ].

Definition LANG_STRINGS_th : list (string * string) :=
  [ ("menu", "เมนู");
    ("open", "เปิด");
    ("settings", "ตั้งค่า");
    ("convert", "แปลงเอกสาร");
    ("exit", "ออก");
    ("prev", "ก่อนหน้า");
    ("next", "ถัดไป");
    ("goto", "ข้ามหน้า");
    ("one_page", "ทีละหน้า");
    ("all_pages", "ทุกหน้า");
    ("help", "ช่วยเหลือ");
    ("view_help", "ดูการช่วยเหลือ");
    ("about", "เกี่ยวกับ FeReader");
    ("font", "ฟอนต์");
    ("theme", "ธีม");
    ("language", "ภาษา");
    ("theme_light", "โหมดสว่าง");
    ("theme_dark", "โหมดมืด");
    ("language_en", "English (US)");
    ("language_th", "ภาษาไทย");
    ("settings_title", "ตั้งค่า");
    ("convert_title", "แปลงเอกสาร");
    ("no_document", "ยังไม่มีเอกสารถูกเปิด") ].

(** The two bundles of [LANG_STRINGS] as dictionaries. *)
Definition english : gmap string string := list_to_map LANG_STRINGS_en.
Definition thai : gmap string string := list_to_map LANG_STRINGS_th.

Definition LANG_STRINGS : gmap string (gmap string string) :=
  <["en" := english]> (<["th" := thai]> ∅).

(** [self.tr(key)]:
    [LANG_STRINGS.get(self.language, LANG_STRINGS["en"]).get(key, key)]. *)
Definition tr (w : window) (key : string) : string :=
  let bundle := default english (LANG_STRINGS !! language w) in
  default key (bundle !! key).

(** ** The conversion dialog ([ConvertDialog]) *)

(** [mode_combo.currentData()] *)
Inductive convert_mode := text_pdf | text_epub | images_pdf.

(** The captions [input_label] and [output_label] show. *)
Inductive input_caption :=
| InputNone                          (* "Input: (none)" *)
| InputImages (count : nat)          (* f"Input: {len(paths)} image(s) selected" *)
| InputFile (basename : string).     (* f"Input: {os.path.basename(path)}" *)

Inductive output_caption :=
| OutputNone                         (* "Output: (none)" *)
| OutputFile (basename : string).    (* f"Output: {os.path.basename(path)}" *)

Record ConvertDialog := {
  mode_combo : convert_mode;
  input_label : input_caption;
  output_label : output_caption;
  password_check : bool;               (* [password_check.isChecked()] *)
  password_edit : string;              (* [password_edit.text()] *)
  input_paths : list string;
  output_path : string;
  dialog_accepted : bool               (* [self.accept()] was called *)
}.

(** What the file system and the engines answer during a conversion. *)
Record convert_env := {
  basename : string -> string;           (* [os.path.basename] *)
  read_text : string -> result string;   (* [open(path, "r", ...)] and [f.read()] *)
  insert_image : string -> result unit;  (* one round of the image loop *)
  save_pdf : string -> option string -> result unit;
                                         (* filling the pages and [doc.save(path, ...)] *)
  write_epub : string -> result unit     (* building the book and [epub.write_epub(path, book)] *)
}.

(** What a PDF is made of. *)
Inductive pdf_content :=
| TextBox (text : string)
| ImagePages (images : list string).

(** What the user sees and what lands on disk. *)
Inductive convert_effect :=
| ConvertWarning (title text : string)
| ConvertCritical (title text : string)
| ConvertInformation (title text : string)
| SavedPdf (path : string) (content : pdf_content) (user_pw : option string)
| WroteEpub (path title chapter : string).

(** [__init__]: nothing selected, first mode. *)
Definition ConvertDialog_init : ConvertDialog :=
  {| mode_combo := text_pdf; input_label := InputNone; output_label := OutputNone;
     password_check := false; password_edit := EmptyString;
     input_paths := []; output_path := EmptyString; dialog_accepted := false |}.

(** [choose_input]; [paths] answers [getOpenFileNames], [path] answers
    [getOpenFileName]. *)
Definition choose_input (env : convert_env) (paths : list string) (path : string)
    (d : ConvertDialog) : ConvertDialog :=
  match mode_combo d with
  | images_pdf =>
      if is_empty paths then d
      else {| mode_combo := mode_combo d;
              input_label := InputImages (length paths);
              output_label := output_label d;
              password_check := password_check d; password_edit := password_edit d;
              input_paths := paths; output_path := output_path d;
              dialog_accepted := dialog_accepted d |}
  | _ =>
      if String.eqb path EmptyString then d
      else {| mode_combo := mode_combo d;
              input_label := InputFile (basename env path);
              output_label := output_label d;
              password_check := password_check d; password_edit := password_edit d;
              input_paths := [path]; output_path := output_path d;
              dialog_accepted := dialog_accepted d |}
  end.

(** [choose_output]; [path] answers [getSaveFileName]. *)
Definition choose_output (env : convert_env) (path : string) (d : ConvertDialog)
    : ConvertDialog :=
  if String.eqb path EmptyString then d
  else {| mode_combo := mode_combo d;
          input_label := input_label d;
          output_label := OutputFile (basename env path);
          password_check := password_check d; password_edit := password_edit d;
          input_paths := input_paths d; output_path := path;
          dialog_accepted := dialog_accepted d |}.

(** The [user_pw] a PDF is saved with. *)
Definition pdf_password (d : ConvertDialog) : option string :=
  if password_check d && negb (String.eqb (password_edit d) EmptyString)
  then Some (password_edit d) else None.

(** A conversion: the file it writes, or the exception it dies with. *)
Definition _convert_text_to_pdf (env : convert_env) (d : ConvertDialog)
    : result convert_effect :=
  match input_paths d with
  | [] => Raise IndexError
  | path :: _ =>
      match read_text env path with
      | Raise e => Raise e
      | Ok text =>
          match save_pdf env (output_path d) (pdf_password d) with
          | Raise e => Raise e
          | Ok _ => Ok (SavedPdf (output_path d) (TextBox text) (pdf_password d))
          end
      end
  end.

Definition _convert_text_to_epub (env : convert_env) (d : ConvertDialog)
    : result convert_effect :=
  match input_paths d with
  | [] => Raise IndexError
  | path :: _ =>
      match read_text env path with
      | Raise e => Raise e
      | Ok text =>
          match write_epub env (output_path d) with
          | Raise e => Raise e
          | Ok _ =>
              Ok (WroteEpub (output_path d) (basename env path)
                    ("<html><body><pre>" ++ text ++ "</pre></body></html>"))
          end
      end
  end.

Fixpoint insert_images (env : convert_env) (paths : list string) : result unit :=
  match paths with
  | [] => Ok tt
  | img_path :: rest =>
      match insert_image env img_path with
      | Raise e => Raise e
      | Ok _ => insert_images env rest
      end
  end.

Definition _convert_images_to_pdf (env : convert_env) (d : ConvertDialog)
    : result convert_effect :=
  match insert_images env (input_paths d) with
  | Raise e => Raise e
  | Ok _ =>
      match save_pdf env (output_path d) (pdf_password d) with
      | Raise e => Raise e
      | Ok _ => Ok (SavedPdf (output_path d) (ImagePages (input_paths d)) (pdf_password d))
      end
  end.

Definition accept (d : ConvertDialog) : ConvertDialog :=
  {| mode_combo := mode_combo d; input_label := input_label d;
     output_label := output_label d;
     password_check := password_check d; password_edit := password_edit d;
     input_paths := input_paths d; output_path := output_path d;
     dialog_accepted := true |}.

Definition perform_convert (env : convert_env) (d : ConvertDialog)
    : ConvertDialog * list convert_effect :=
  if is_empty (input_paths d) then
    (d, [ConvertWarning "Error" "No input selected."])
  else if String.eqb (output_path d) EmptyString then
    (d, [ConvertWarning "Error" "No output selected."])
  else
    match (match mode_combo d with
           | text_pdf => _convert_text_to_pdf env d
           | text_epub => _convert_text_to_epub env d
           | images_pdf => _convert_images_to_pdf env d
           end) with
    | Raise e =>
        (d, [ConvertCritical "Error" ("Conversion failed:" ++ newline ++ exn_str e)])
    | Ok written =>
        (accept d, [written; ConvertInformation "Success" "Conversion completed."])
    end.

(** ** Vocabulary of the properties *)

(** The three navigation methods. *)
Inductive navigation :=
| Prev
| Next
| GoTo (answer : getInt_answer).

Definition navigate (n : navigation) : UI unit :=
  match n with
  | Prev => go_prev
  | Next => go_next
  | GoTo a => go_to_page_dialog a
  end.

(** The page index designates a page of the loaded document. *)
Definition index_valid (w : window) : Prop :=
  0 <= current_index w < len (pages w).

(** The invariant the specification states for the view state. *)
Definition page_invariant (w : window) : Prop :=
  pages w = [] \/ index_valid w.

Definition zoom_in_range (w : window) : Prop :=
  (0.5 <= current_zoom w)%Q /\ (current_zoom w <= 3)%Q.

Definition font_in_range (w : window) : Prop :=
  8 <= current_font_size w <= 40.

(** Everything [_update_view] leaves alone. *)
Definition core (w : window) :=
  (config w, disk w, language w, theme w, font_family w, base_font_size w,
   current_book_type w, current_book_path w, current_book_title w, pages w,
   pdf_images w, epub_temp_dir w, current_index w, current_font_size w,
   current_zoom w, view_mode w, one_page_checked w, all_pages_checked w).

(** A message box was shown. *)
Definition is_message (e : effect) : bool :=
  match e with
  | MsgWarning _ _ | MsgCritical _ _ => true
  | RebuildContinuous _ => false
  end.

(** A file was chosen and [open_file] reported a problem with it. *)
Definition open_failed (env : open_env) (w : window) : Prop :=
  existsb is_message (trace (open_file env w)) = true.

(** A file was chosen and [open_file] loaded it without complaint. *)
Definition opened (env : open_env) (w : window) : Prop :=
  chosen_path env <> EmptyString /\
  existsb is_message (trace (open_file env w)) = false.

(** The images a page loop collects before it stops, and what stops it. *)
Fixpoint loaded_prefix {A : Type} (rs : list (result A)) : list A :=
  match rs with
  | Ok a :: rest => a :: loaded_prefix rest
  | _ => []
  end.

Fixpoint first_raise {A : Type} (rs : list (result A)) : option exn :=
  match rs with
  | [] => None
  | Raise e :: _ => Some e
  | Ok _ :: rest => first_raise rest
  end.

(** The entries [load_pdf] appends to [pages]: [start], [start + 1], ... *)
Fixpoint pdf_page_numbers (start : Z) (n : nat) : list page :=
  match n with
  | O => []
  | S k => PdfPage start :: pdf_page_numbers (start + 1) k
  end.

(** The continuous layout [_build_continuous_pdf_widgets] produces. *)
Definition continuous_layout (w : window) : list layout_item :=
  map (fun img => Label {| base_image := img;
                           scale := if Qle_bool (current_zoom w) 0 then 1%Q
                                    else current_zoom w |})
      (pdf_images w) ++ [Stretch].

(** The window [load_pdf] starts the page loop from. *)
Definition pdf_reset (w : window) : window :=
  w <| current_book_type := Some Pdf |>
    <| pages := [] |>
    <| pdf_images := [] |>
    <| current_zoom := 1%Q |>
    <| view_mode := Single |>
    <| one_page_checked := true |>
    <| all_pages_checked := false |>
    <| _continuous_needs_build := true |>.

(** The window [load_epub] asks for a temporary directory from. *)
Definition epub_reset (w : window) : window :=
  w <| current_book_type := Some Epub |>
    <| pages := [] |>
    <| current_font_size := base_font_size w |>
    <| epub_temp_dir := None |>.

(** The pages [load_epub] ends with when every chapter is read. *)
Definition epub_pages (book : epub_book) : list page :=
  match loaded_prefix (document_items book) with
  | [] => [HtmlPage no_readable_content]
  | chapters => map HtmlPage chapters
  end.

(** What [open_file] records before it renders a loaded file. *)
Definition opened_window (env : open_env) (w : window) : window :=
  w <| current_book_path := Some (chosen_path env) |>
    <| current_book_title := chosen_basename env |>
    <| current_index := 0 |>.

Definition failed_to_open (e : exn) : effect :=
  MsgCritical "Error" ("Failed to open file:" ++ newline ++ exn_str e).

Definition unsupported_file : effect :=
  MsgWarning "Unsupported file" "Only PDF and EPUB are supported.".

(** The loader [open_file] picks, run on [w]. *)
Definition run_loader (env : open_env) (w : window)
  : option (result unit * window * list effect) :=
  if String.eqb (chosen_ext env) ".pdf" then Some (load_pdf (pdf env) w)
  else if String.eqb (chosen_ext env) ".epub" then Some (load_epub (epub env) w)
  else None.

(** The reset the specification describes for a freshly opened document:
    first page, default zoom or font size, single-page layout, dirty. *)
Definition view_reset (w : window) : Prop :=
  current_index w = 0 /\
  match current_book_type w with
  | Some Epub => current_font_size w = base_font_size w
  | _ => current_zoom w = 1%Q
  end /\
  view_mode w = Single /\
  _continuous_needs_build w = true.

(** A page loop that dies on one of its pages. *)
Definition raises {A : Type} (rs : list (result A)) : bool :=
  match first_raise rs with Some _ => true | None => false end.

(** The loader got as far as its loop over the pages (or chapters) of the
    document, and the loop was cut short by an exception. *)
Definition page_loop_interrupted (env : open_env) : bool :=
  if String.eqb (chosen_ext env) ".pdf" then
    match fitz_open (pdf env) with
    | Ok doc =>
        negb (needs_pass doc && (negb (snd (password_answer (pdf env)))
                                 || String.eqb (fst (password_answer (pdf env))) EmptyString))
        && negb (needs_pass doc && negb (authenticate doc (fst (password_answer (pdf env)))))
        && raises (page_pixmaps doc)
    | Raise _ => false
    end
  else if String.eqb (chosen_ext env) ".epub" then
    match mkdtemp (epub env), read_epub (epub env) with
    | Ok _, Ok book =>
        match extract_items book with
        | Ok _ => raises (document_items book)
        | Raise _ => false
        end
    | _, _ => false
    end
  else false.

(** The three ways the zoom of a document is changed. *)
Inductive zoom_change :=
| StepIn
| StepOut
| Typed (value : Z).

Definition change_zoom (z : zoom_change) : UI unit :=
  match z with
  | StepIn => zoom_in
  | StepOut => zoom_out
  | Typed value => zoom_label_clicked (value, true)
  end.


(** What the settings file holds for an option of [General]. *)
Definition stored_option (file : settings_file) (name : string) : option string :=
  match file with
  | Stored c =>
      match cfg_sections c !! "General" with
      | Some d =>
          match d !! name with
          | Some v => Some v
          | None => cfg_defaults c !! name
          end
      | None => cfg_defaults c !! name
      end
  | _ => None
  end.

(** The parser [_load_or_create_settings] fills with defaults: what was read
    from the file, with a [General] section. *)
Definition settings_read (w : window) : ConfigParser :=
  let c := match disk w with
           | Absent => config w
           | Stored file => cfg_read file (config w)
           | Malformed => empty_config
           end in
  if has_section c "General" then c else cfg_reset_section c "General".

(** The first value an association list gives for a key. *)
Fixpoint assoc_first (k : string) (l : list (string * string)) : option string :=
  match l with
  | [] => None
  | (k0, v0) :: rest => if decide (k0 = k) then Some v0 else assoc_first k rest
  end.

(** Operations other than opening a file and turning pages. *)
Definition keeps_document (o : op) : Prop :=
  match o with
  | OpenFile _ | GoPrev | GoNext | GoToPage _ => False
  | _ => True
  end.

(** Both font sizes are within 8..40. *)
Definition font_sizes_in_range (w : window) : Prop :=
  font_in_range w /\ 8 <= base_font_size w <= 40.

(** The windows the controller can be in: the one [__init__] builds, and
    whatever an operation leaves, the dialogs answering within their
    contracts. *)
Inductive reachable : window -> Prop :=
| reach_init (cfg : ConfigParser) (file : settings_file)
    (lang thm family : string) (size : Z) :
    reachable (init_attributes cfg file lang thm family size)
| reach_run (w : window) (o : op) :
    reachable w -> op_contract w o -> reachable (final (run o w)).

(** The parser [save_settings] writes. *)
Definition saved_config (w : window) : ConfigParser :=
  cfg_store
    (cfg_store
       (cfg_store
          (cfg_store (config w) "General" "theme" (theme w))
          "General" "font_family" (font_family w))
       "General" "font_size" (pretty (base_font_size w)))
    "General" "language" (language w).

(** [save_settings] can store the three strings of the window: none makes
    [before_set] raise. *)
Definition settings_storable (w : window) : bool :=
  before_set (theme w) && before_set (font_family w) && before_set (language w).

Definition is_html (p : page) : Prop :=
  match p with HtmlPage _ => True | PdfPage _ => False end.

(** The page list is of the kind the book type announces. *)
Definition pages_match_type (w : window) : Prop :=
  match current_book_type w with
  | Some Pdf => pages w = pdf_page_numbers 0 (length (pdf_images w))
  | Some Epub => Forall is_html (pages w)
  | None => pages w = []
  end.

(** The document as the loaders leave it. *)
Definition document (w : window) :=
  (current_book_type w, pages w, pdf_images w).

(** A continuous layout that is not marked stale is the one
    [_build_continuous_pdf_widgets] would build now. *)
Definition layout_fresh (w : window) : Prop :=
  current_book_type w = Some Pdf -> view_mode w = Continuous ->
  _continuous_needs_build w = false ->
  multi_layout w = continuous_layout w.

(** A PDF with pages shown in continuous mode has its layout built. *)
Definition layout_built (w : window) : Prop :=
  current_book_type w = Some Pdf -> view_mode w = Continuous -> pages w <> [] ->
  _continuous_needs_build w = false.

Definition layout_coherent (w : window) : Prop :=
  layout_fresh w /\ layout_built w.

(** The effect is a file written by a conversion. *)
Definition is_written (e : convert_effect) : bool :=
  match e with
  | SavedPdf _ _ _ | WroteEpub _ _ _ => true
  | _ => false
  end.

Definition written_path (e : convert_effect) : option string :=
  match e with
  | SavedPdf path _ _ | WroteEpub path _ _ => Some path
  | _ => None
  end.

(** The effect is a warning box. *)
Definition is_warning (e : convert_effect) : bool :=
  match e with ConvertWarning _ _ => true | _ => false end.

(** The two modes that convert a text file. *)
Definition text_mode (m : convert_mode) : bool :=
  match m with images_pdf => false | _ => true end.

(** The dialog with another selection of input files. *)
Definition with_input (paths : list string) (d : ConvertDialog) : ConvertDialog :=
  {| mode_combo := mode_combo d; input_label := input_label d;
     output_label := output_label d;
     password_check := password_check d; password_edit := password_edit d;
     input_paths := paths; output_path := output_path d;
     dialog_accepted := dialog_accepted d |}.

(** ** Sample windows and environments *)

(** The parser written by a first start without a settings file. *)
Definition default_config : ConfigParser :=
  fold_left (fun c kv => cfg_store c "General" (fst kv) (snd kv))
    defaults (cfg_reset_section empty_config "General").

Definition fresh_window : window :=
  init_attributes default_config (Stored default_config) "en" "light" "Segoe UI" 12.

Definition sample_image : QImage := {| img_width := 600; img_height := 800 |}.

Definition no_pdf : pdf_env :=
  {| fitz_open := Raise (EngineError "not a PDF");
     password_answer := (EmptyString, false) |}.

Definition no_epub : epub_env :=
  {| mkdtemp := Raise (EngineError "not an EPUB");
     read_epub := Raise (EngineError "not an EPUB") |}.

Definition pdf_file (name : string) (doc : fitz_document) (password : string * bool) : open_env :=
  {| chosen_path := name; chosen_ext := ".pdf"; chosen_basename := name;
     pdf := {| fitz_open := Ok doc; password_answer := password |};
     epub := no_epub |}.

Definition epub_file (name : string) (chapters : list (result string)) : open_env :=
  {| chosen_path := name; chosen_ext := ".epub"; chosen_basename := name;
     pdf := no_pdf;
     epub := {| mkdtemp := Ok "/tmp/fereader_epub_0";
                read_epub := Ok {| extract_items := Ok tt;
                                   document_items := chapters |} |} |}.

(** A three-page PDF without password. *)
Definition three_pages : open_env :=
  pdf_file "three.pdf"
    {| needs_pass := false; authenticate := fun _ => false;
       page_pixmaps := [Ok sample_image; Ok sample_image; Ok sample_image] |}
    (EmptyString, false).

(** A PDF whose second page cannot be rasterised. *)
Definition broken_second_page : open_env :=
  pdf_file "broken.pdf"
    {| needs_pass := false; authenticate := fun _ => false;
       page_pixmaps := [Ok sample_image; Raise (EngineError "cannot render page")] |}
    (EmptyString, false).

(** An encrypted PDF with password ["secret"], and a user typing ["guess"]. *)
Definition wrong_password : open_env :=
  pdf_file "locked.pdf"
    {| needs_pass := true; authenticate := fun p => String.eqb p "secret";
       page_pixmaps := [Ok sample_image] |}
    ("guess", true).

(** An EPUB with two chapters, and one without any document item. *)
Definition two_chapters : open_env :=
  epub_file "book.epub" [Ok "<p>one</p>"; Ok "<p>two</p>"].

Definition no_chapters : open_env :=
  epub_file "empty.epub" [].

(** An EPUB whose second chapter cannot be decoded. *)
Definition broken_second_chapter : open_env :=
  epub_file "broken.epub" [Ok "<p>one</p>"; Raise (EngineError "bad chapter")].

(** A file that is neither. *)
Definition text_file : open_env :=
  {| chosen_path := "notes.txt"; chosen_ext := ".txt"; chosen_basename := "notes.txt";
     pdf := no_pdf; epub := no_epub |}.

(** The window after opening the three-page PDF, and after two page turns. *)
Definition reading_pdf : window := final (open_file three_pages fresh_window).

Definition on_last_page : window := final (run_all [GoNext; GoNext] reading_pdf).

(** The same document shown in continuous mode. *)
Definition reading_continuous : window :=
  final (set_view_mode "continuous" reading_pdf).

(** The window after opening the two-chapter EPUB. *)
Definition reading_epub : window := final (open_file two_chapters fresh_window).

(** A settings file that only records a dark theme. *)
Definition dark_settings : ConfigParser :=
  {| cfg_defaults := ∅;
     cfg_sections := {[ "General" := {[ "theme" := "dark" ]} ]} |}.

(** The window at the point [__init__] calls [_load_or_create_settings]. *)
Definition starting (file : settings_file) : window :=
  init_attributes empty_config file "en" "light" "Segoe UI" 12.

(** The largest size the settings dialog offers. *)
Definition largest_font : settings_values :=
  {| v_font_family := "Segoe UI"; v_font_size := 48;
     v_theme := "light"; v_language := "en" |}.

(** A file dialog that is dismissed. *)
Definition no_file_chosen : open_env :=
  {| chosen_path := EmptyString; chosen_ext := EmptyString;
     chosen_basename := EmptyString; pdf := no_pdf; epub := no_epub |}.

(** The window left by the EPUB with the broken second chapter, opened from
    the last page of the PDF. *)
Definition past_the_end : window :=
  final (open_file broken_second_chapter on_last_page).

(** A window whose settings name Thai, and one whose settings name a
    language [LANG_STRINGS] has no bundle for. *)
Definition thai_window : window :=
  init_attributes default_config (Stored default_config) "th" "light" "Segoe UI" 12.

Definition french_window : window :=
  init_attributes default_config (Stored default_config) "fr" "light" "Segoe UI" 12.

(** An answer of the settings dialog. *)
Definition dark_thai : settings_values :=
  {| v_font_family := "Tahoma"; v_font_size := 14;
     v_theme := "dark"; v_language := "th" |}.

(** Scroll bars at the bottom and in the middle of the page. *)
Definition bar_at_bottom : scroll_bar :=
  {| bar_value := 400; bar_minimum := 0; bar_maximum := 400 |}.

Definition bar_in_the_middle : scroll_bar :=
  {| bar_value := 120; bar_minimum := 0; bar_maximum := 400 |}.

(** A disk on which every file can be read and written, and one on which
    the image [b.png] cannot be opened. *)
Definition working_disk : convert_env :=
  {| basename := fun path => path;
     read_text := fun _ => Ok "hello";
     insert_image := fun _ => Ok tt;
     save_pdf := fun _ _ => Ok tt;
     write_epub := fun _ => Ok tt |}.


(** The dialog set up to turn [notes.txt] into a PDF protected by a
    password, and to bind two images into a PDF. *)
Definition protected_text_dialog : ConvertDialog :=
  {| mode_combo := text_pdf;
     input_label := InputFile "notes.txt"; output_label := OutputFile "notes.pdf";
     password_check := true; password_edit := "secret";
     input_paths := ["notes.txt"]; output_path := "notes.pdf";
     dialog_accepted := false |}.

Definition album_dialog : ConvertDialog :=
  {| mode_combo := images_pdf;
     input_label := InputImages 2; output_label := OutputFile "album.pdf";
     password_check := false; password_edit := EmptyString;
     input_paths := ["a.png"; "b.png"]; output_path := "album.pdf";
     dialog_accepted := false |}.

(** The window left by the PDF whose second page cannot be rendered, opened
    from the last page of the three-page PDF. *)
Definition half_loaded : window :=
  final (open_file broken_second_page on_last_page).

(** The EPUB window after the settings dialog was accepted with the largest
    size it offers. *)
Definition oversized_font : window :=
  final (open_settings_dialog (Some largest_font) reading_epub).

(** A settings file that holds [font_family = 100%] and nothing else. *)
Definition percent_settings : ConfigParser :=
  {| cfg_defaults := ∅;
     cfg_sections := {[ "General" := {[ "font_family" := "100%" ]} ]} |}.



(** * Properties *)

Ltac ui_unfold :=
  unfold final, outcome, trace, mbind, mret, UI_bind, UI_ret, modify, get,
         emit, raise, try_except in *.

Ltac ui_case :=
  match goal with
  | |- context [match ?x with _ => _ end] =>
      lazymatch x with
      | context [match _ with _ => _ end] => fail
      | _ => destruct x eqn:?
      end
  end.

Ltac ui_run := ui_unfold; repeat (simpl; try ui_case).

Ltac bind_unfold :=
  unfold mbind, mret, UI_bind, UI_ret, modify, get, emit, raise, try_except in *.

Ltac unfold_setters :=
  cbv [set set_config set_disk set_language set_theme set_font_family
       set_base_font_size set_current_book_type set_current_book_path
       set_current_book_title set_pages set_pdf_images set_epub_temp_dir
       set_current_index set_current_font_size set_current_zoom
       set_view_mode_field set_continuous_needs_build set_stack_current
       set_text_view set_text_font set_single_image_label set_multi_layout
       set_one_page_checked set_all_pages_checked set_status_message
       set_zoom_label] in *.

Ltac unfold_render :=
  unfold _update_view, _build_continuous_pdf_widgets, _update_zoom_label,
         _update_statusbar in *.

(** ** Generic facts *)

Lemma Qltb_ge (x y : Q) : Qltb x y = false <-> (y <= x)%Q.
Proof.
  unfold Qltb. rewrite negb_false_iff. apply Qle_bool_iff.
Qed.

(** [_update_view] touches widgets and the dirty flag only. *)
Lemma _update_view_core (w : window) : core (final (_update_view w)) = core w.
Proof. unfold_render. ui_run; reflexivity. Qed.

Lemma _update_view_pages (w : window) : pages (final (_update_view w)) = pages w.
Proof. pose proof (_update_view_core w) as H. unfold core in H. congruence. Qed.

Lemma _update_view_index (w : window) :
  current_index (final (_update_view w)) = current_index w.
Proof. pose proof (_update_view_core w) as H. unfold core in H. congruence. Qed.

Lemma _update_view_zoom (w : window) :
  current_zoom (final (_update_view w)) = current_zoom w.
Proof. pose proof (_update_view_core w) as H. unfold core in H. congruence. Qed.

Lemma _update_view_font (w : window) :
  current_font_size (final (_update_view w)) = current_font_size w.
Proof. pose proof (_update_view_core w) as H. unfold core in H. congruence. Qed.

Lemma _update_view_mode (w : window) :
  view_mode (final (_update_view w)) = view_mode w.
Proof. pose proof (_update_view_core w) as H. unfold core in H. congruence. Qed.

Lemma _update_view_book_type (w : window) :
  current_book_type (final (_update_view w)) = current_book_type w.
Proof. pose proof (_update_view_core w) as H. unfold core in H. congruence. Qed.

(** With no page loaded, [_update_view] shows the placeholder and cannot raise. *)
Lemma _update_view_empty (w : window) :
  pages w = [] ->
  outcome (_update_view w) = Ok tt /\ trace (_update_view w) = [] /\
  _continuous_needs_build (final (_update_view w)) = _continuous_needs_build w.
Proof.
  intros H. unfold_render. ui_unfold. simpl. rewrite H. simpl. rewrite H. simpl. auto.
Qed.

(** Closed arithmetic facts about concrete windows. *)
Ltac by_compute :=
  vm_compute; repeat split; first [reflexivity | discriminate | intros ?; discriminate].

Ltac split_update_view :=
  match goal with
  | |- context [_update_view ?x] =>
      let Hcore := fresh "Hcore" in
      pose proof (_update_view_core x) as Hcore; unfold core in Hcore;
      destruct (_update_view x) as [[[] ?] ?]
  end; unfold final in *; simpl in *.

(** ** Navigation *)

(** X27. On a window whose page index designates one of its N pages, each of
    go_prev, go_next and go_to_page_dialog (the dialog answering within the
    range 1..N it was opened with) keeps the page list and leaves the index
    within 0..N-1; with an empty page list each of them returns at once,
    leaving the window as it was and showing nothing. *)
Theorem navigate_index_in_range (w : window) (n : navigation) :
  (index_valid w ->
   (forall a, n = GoTo a -> getInt_contract 1 (len (pages w)) a) ->
   pages (final (navigate n w)) = pages w /\
   0 <= current_index (final (navigate n w)) <= len (pages w) - 1) /\
  (pages w = [] -> navigate n w = (Ok tt, w, [])).
Proof.
  split.
  - intros [Hlo Hhi] Hc.
    assert (E : is_empty (pages w) = false).
    { destruct (pages w); [unfold len in Hhi; simpl in Hhi; lia | reflexivity]. }
    destruct n as [| |[value ok]]; simpl.
    + unfold go_prev. ui_unfold. simpl. rewrite E.
      destruct (0 <? current_index w) eqn:L; simpl; [|split; [reflexivity|lia]].
      apply Z.ltb_lt in L.
      split_update_view; (split; [congruence|]);
        (replace (current_index w0) with (current_index w - 1) by congruence); lia.
    + unfold go_next. ui_unfold. simpl. rewrite E.
      destruct (current_index w <? len (pages w) - 1) eqn:L; simpl;
        [|split; [reflexivity|lia]].
      apply Z.ltb_lt in L.
      split_update_view; (split; [congruence|]);
        (replace (current_index w0) with (current_index w + 1) by congruence); lia.
    + unfold go_to_page_dialog. ui_unfold. simpl. rewrite E.
      destruct ok; simpl; [|split; [reflexivity|lia]].
      specialize (Hc _ eq_refl eq_refl). simpl in Hc.
      split_update_view; (split; [congruence|]);
        (replace (current_index w0) with (value - 1) by congruence); lia.
  - intros H. destruct n as [| |[value ok]]; simpl;
      [unfold go_prev | unfold go_next | unfold go_to_page_dialog];
      ui_unfold; simpl; rewrite H; reflexivity.
Qed.

Lemma navigate_index_in_range_witness :
  (pages (final (navigate Next on_last_page)) = pages on_last_page /\
   0 <= current_index (final (navigate Next on_last_page)) <= len (pages on_last_page) - 1) /\
  (pages (final (navigate (GoTo (2, true)) reading_pdf)) = pages reading_pdf /\
   0 <= current_index (final (navigate (GoTo (2, true)) reading_pdf))
     <= len (pages reading_pdf) - 1) /\
  navigate Prev fresh_window = (Ok tt, fresh_window, []).
Proof.
  split; [|split].
  - apply (navigate_index_in_range on_last_page Next).
    + unfold index_valid. by_compute.
    + intros a H. discriminate H.
  - apply (navigate_index_in_range reading_pdf (GoTo (2, true))).
    + unfold index_valid. by_compute.
    + intros a H. injection H as <-. intros _. by_compute.
  - apply (navigate_index_in_range fresh_window Prev). reflexivity.
Defined.

(** ** Opening a document *)

Lemma len_app {A : Type} (l k : list A) : len (l ++ k) = len l + len k.
Proof. unfold len. rewrite length_app. lia. Qed.

Lemma load_pdf_pages_run (ps : list (result QImage)) (w : window) :
  load_pdf_pages ps w =
  (match first_raise ps with Some e => Raise e | None => Ok tt end,
   w <| pdf_images := pdf_images w ++ loaded_prefix ps |>
     <| pages := pages w ++ pdf_page_numbers (len (pages w)) (length (loaded_prefix ps)) |>,
   []).
Proof.
  revert w. induction ps as [|[img|e] ps IH]; intros w.
  - destruct w; simpl. rewrite !app_nil_r. reflexivity.
  - simpl. ui_unfold. simpl. rewrite IH. simpl.
    rewrite len_app, <- !app_assoc. reflexivity.
  - destruct w; simpl. rewrite !app_nil_r. reflexivity.
Qed.

Lemma load_pdf_run (env : pdf_env) (w : window) :
  load_pdf env w =
  match fitz_open env with
  | Raise e => (Raise e, pdf_reset w, [])
  | Ok doc =>
      if needs_pass doc && (negb (snd (password_answer env))
                            || String.eqb (fst (password_answer env)) EmptyString)
      then (Ok tt, pdf_reset w, [MsgWarning "Cancelled" "Cannot open encrypted PDF."])
      else if needs_pass doc && negb (authenticate doc (fst (password_answer env)))
      then (Ok tt, pdf_reset w, [MsgCritical "Error" "Incorrect password."])
      else
        (match first_raise (page_pixmaps doc) with Some e => Raise e | None => Ok tt end,
         (pdf_reset w)
           <| pdf_images := loaded_prefix (page_pixmaps doc) |>
           <| pages := pdf_page_numbers 0 (length (loaded_prefix (page_pixmaps doc))) |>,
         [])
  end.
Proof.
  unfold load_pdf. ui_unfold. cbn beta iota.
  destruct (fitz_open env) as [doc|e]; [|reflexivity].
  destruct (password_answer env) as [password ok]. cbn [fst snd].
  destruct (needs_pass doc && (negb ok || String.eqb password EmptyString)); [reflexivity|].
  destruct (needs_pass doc && negb (authenticate doc password)); [reflexivity|].
  rewrite load_pdf_pages_run. reflexivity.
Qed.

Lemma load_epub_documents_run (items : list (result string)) (w : window) :
  load_epub_documents items w =
  (match first_raise items with Some e => Raise e | None => Ok tt end,
   w <| pages := pages w ++ map HtmlPage (loaded_prefix items) |>,
   []).
Proof.
  revert w. induction items as [|[html|e] items IH]; intros w.
  - destruct w; simpl. rewrite !app_nil_r. reflexivity.
  - simpl. ui_unfold. simpl. rewrite IH. simpl.
    rewrite <- !app_assoc. reflexivity.
  - destruct w; simpl. rewrite !app_nil_r. reflexivity.
Qed.

Lemma load_epub_run (env : epub_env) (w : window) :
  load_epub env w =
  match mkdtemp env with
  | Raise e => (Raise e, epub_reset w, [])
  | Ok dir =>
      match read_epub env with
      | Raise e => (Raise e, (epub_reset w) <| epub_temp_dir := Some dir |>, [])
      | Ok book =>
          match extract_items book with
          | Raise e => (Raise e, (epub_reset w) <| epub_temp_dir := Some dir |>, [])
          | Ok _ =>
              match first_raise (document_items book) with
              | Some e =>
                  (Raise e,
                   (epub_reset w) <| epub_temp_dir := Some dir |>
                     <| pages := map HtmlPage (loaded_prefix (document_items book)) |>,
                   [])
              | None =>
                  (Ok tt,
                   (epub_reset w) <| epub_temp_dir := Some dir |>
                     <| pages := epub_pages book |>,
                   [])
              end
          end
      end
  end.
Proof.
  unfold load_epub, _cleanup_epub_temp. ui_unfold. cbn beta iota.
  destruct (mkdtemp env) as [dir|e]; [|reflexivity].
  destruct (read_epub env) as [book|e]; [|reflexivity].
  destruct (extract_items book) as [[]|e]; [|reflexivity].
  rewrite load_epub_documents_run. unfold epub_pages.
  destruct (first_raise (document_items book)); [reflexivity|].
  destruct (loaded_prefix (document_items book)); reflexivity.
Qed.

Lemma open_file_run (env : open_env) (w : window) :
  chosen_path env <> EmptyString ->
  open_file env w =
  match run_loader env w with
  | None => (Ok tt, w, [unsupported_file])
  | Some (Raise e, w1, t) => (Ok tt, w1, t ++ [failed_to_open e])
  | Some (Ok _, w1, t) =>
      let '(r, w2, t2) := _update_view (opened_window env w1) in (r, w2, t ++ t2)
  end.
Proof.
  intros Hpath. unfold open_file, run_loader.
  destruct (String.eqb (chosen_path env) EmptyString) eqn:Ep.
  { apply String.eqb_eq in Ep. contradiction. }
  ui_unfold.
  destruct (String.eqb (chosen_ext env) ".pdf").
  - destruct (load_pdf (pdf env) w) as [[[[]|e] w1] t]; cbn beta iota.
    + rewrite app_nil_r. unfold opened_window.
      destruct (_update_view _) as [[r w2] t2]. reflexivity.
    + rewrite app_nil_r. reflexivity.
  - destruct (String.eqb (chosen_ext env) ".epub").
    + destruct (load_epub (epub env) w) as [[[[]|e] w1] t]; cbn beta iota.
      * rewrite app_nil_r. unfold opened_window.
        destruct (_update_view _) as [[r w2] t2]. reflexivity.
      * rewrite app_nil_r. reflexivity.
    + reflexivity.
Qed.

(** Outside the continuous PDF layout, [_update_view] leaves the dirty flag. *)
Lemma _update_view_keeps_flag (w : window) :
  view_mode w = Single \/ current_book_type w <> Some Pdf ->
  _continuous_needs_build (final (_update_view w)) = _continuous_needs_build w.
Proof.
  intros H. unfold_render. ui_run; try reflexivity; destruct H; congruence.
Qed.

(** C3, as the code has it.  Every successful open puts the page index at 0.
    Opening a PDF also resets the zoom to 1.0, the layout to single-page and
    raises the dirty flag.  Opening an EPUB resets the font size to the base
    font size and keeps the zoom, the layout mode and the dirty flag of the
    window it was opened in. *)
Theorem open_file_resets_view (env : open_env) (w : window) :
  opened env w ->
  current_index (final (open_file env w)) = 0 /\
  (chosen_ext env = ".pdf" ->
     current_zoom (final (open_file env w)) = 1%Q /\
     view_mode (final (open_file env w)) = Single /\
     _continuous_needs_build (final (open_file env w)) = true) /\
  (chosen_ext env = ".epub" ->
     current_font_size (final (open_file env w)) = base_font_size w /\
     current_zoom (final (open_file env w)) = current_zoom w /\
     view_mode (final (open_file env w)) = view_mode w /\
     _continuous_needs_build (final (open_file env w)) = _continuous_needs_build w).
Proof.
  intros [Hpath Hmsg]. revert Hmsg. rewrite (open_file_run env w Hpath).
  unfold run_loader.
  destruct (String.eqb (chosen_ext env) ".pdf") eqn:Epdf.
  - apply String.eqb_eq in Epdf. rewrite Epdf, load_pdf_run.
    destruct (fitz_open (pdf env)) as [doc|e]; [|discriminate].
    destruct (needs_pass doc && _); [discriminate|].
    destruct (needs_pass doc && _); [discriminate|].
    destruct (first_raise (page_pixmaps doc)); [discriminate|].
    intros _.
    match goal with |- context [_update_view ?x] =>
      pose proof (_update_view_keeps_flag x (or_introl eq_refl)) as Hflag;
      pose proof (_update_view_core x) as Hcore; unfold core in Hcore;
      destruct (_update_view x) as [[r w2] t2]
    end.
    unfold final, opened_window, pdf_reset, epub_reset in *. simpl in Hflag, Hcore |- *.
    split; [congruence|]. split; [|discriminate].
    intros _. repeat split; congruence.
  - destruct (String.eqb (chosen_ext env) ".epub") eqn:Eepub; [|discriminate].
    apply String.eqb_eq in Eepub. rewrite Eepub, load_epub_run.
    destruct (mkdtemp (epub env)) as [dir|e]; [|discriminate].
    destruct (read_epub (epub env)) as [book|e]; [|discriminate].
    destruct (extract_items book) as [[]|e]; [|discriminate].
    destruct (first_raise (document_items book)); [discriminate|].
    intros _.
    match goal with |- context [_update_view ?x] =>
      assert (Hflag : _continuous_needs_build (final (_update_view x))
                      = _continuous_needs_build x)
        by (apply _update_view_keeps_flag; right; discriminate);
      pose proof (_update_view_core x) as Hcore; unfold core in Hcore;
      destruct (_update_view x) as [[r w2] t2]
    end.
    unfold final, opened_window, pdf_reset, epub_reset in *. simpl in Hflag, Hcore |- *.
    split; [congruence|]. split; [discriminate|].
    intros _. repeat split; congruence.
Qed.

Lemma open_file_resets_view_witness :
  current_index (final (open_file three_pages on_last_page)) = 0 /\
  current_zoom (final (open_file three_pages on_last_page)) = 1%Q /\
  view_mode (final (open_file three_pages on_last_page)) = Single /\
  _continuous_needs_build (final (open_file three_pages on_last_page)) = true.
Proof.
  assert (H : opened three_pages on_last_page) by (split; by_compute).
  destruct (open_file_resets_view three_pages on_last_page H) as [H0 [Hpdf _]].
  split; [exact H0 | exact (Hpdf eq_refl)].
Defined.

(** C3, as stated, fails: an EPUB opened over a PDF that was shown in
    continuous mode opens without complaint, yet the layout mode stays
    continuous and the dirty flag stays cleared. *)
Lemma open_epub_keeps_layout_mode :
  opened two_chapters reading_continuous /\
  view_mode (final (open_file two_chapters reading_continuous)) = Continuous /\
  _continuous_needs_build (final (open_file two_chapters reading_continuous)) = false /\
  ~ view_reset (final (open_file two_chapters reading_continuous)).
Proof.
  split; [split; by_compute|]. split; [reflexivity|]. split; [reflexivity|].
  intros (_ & _ & Hmode & _). vm_compute in Hmode. discriminate Hmode.
Qed.

(** ** Failed opens *)

Lemma _update_view_no_message (w : window) :
  existsb is_message (trace (_update_view w)) = false.
Proof. unfold_render. ui_run; reflexivity. Qed.

Lemma open_failed_path (env : open_env) (w : window) :
  open_failed env w -> chosen_path env <> EmptyString.
Proof.
  unfold open_failed, open_file. intros Hf E. rewrite E in Hf. discriminate Hf.
Qed.

(** [open_file] shows a message box exactly when the extension is not
    supported, when the loader raises, or when the loader gives up on the
    passphrase. *)
Lemma open_failed_iff (env : open_env) (w : window) :
  chosen_path env <> EmptyString ->
  (open_failed env w <->
   match run_loader env w with
   | None => True
   | Some (Raise _, _, _) => True
   | Some (Ok _, _, t) => t <> []
   end).
Proof.
  intros Hpath. unfold open_failed. rewrite (open_file_run env w Hpath).
  unfold run_loader.
  destruct (String.eqb (chosen_ext env) ".pdf").
  - rewrite load_pdf_run.
    destruct (fitz_open (pdf env)) as [doc|e]; [|simpl; tauto].
    destruct (needs_pass doc && (_ || _)); [|destruct (needs_pass doc && negb _)].
    + destruct (_update_view _) as [[r w2] t2]. simpl. split; [discriminate|reflexivity].
    + destruct (_update_view _) as [[r w2] t2]. simpl. split; [discriminate|reflexivity].
    + destruct (first_raise (page_pixmaps doc)); [simpl; tauto|].
      match goal with |- context [_update_view ?x] =>
        pose proof (_update_view_no_message x) as Hn;
        destruct (_update_view x) as [[r w2] t2] end.
      unfold trace in *. simpl in *. rewrite Hn. split; [discriminate|congruence].
  - destruct (String.eqb (chosen_ext env) ".epub"); [|simpl; tauto].
    rewrite load_epub_run.
    destruct (mkdtemp (epub env)) as [dir|e]; [|simpl; tauto].
    destruct (read_epub (epub env)) as [book|e]; [|simpl; tauto].
    destruct (extract_items book) as [[]|e]; [|simpl; tauto].
    destruct (first_raise (document_items book)); [simpl; tauto|].
    match goal with |- context [_update_view ?x] =>
      pose proof (_update_view_no_message x) as Hn;
      destruct (_update_view x) as [[r w2] t2] end.
    unfold trace in *. simpl in *. rewrite Hn. split; [discriminate|congruence].
Qed.

(** C4, as the code has it.  An open that ends in a message box never
    raises.  With an unsupported extension the window is left exactly as it
    was, whatever document it shows.  With a PDF or EPUB, unless the loop
    over the pages was cut short, the page list is empty afterwards. *)
Theorem failed_open_recovers (env : open_env) (w : window) :
  open_failed env w ->
  outcome (open_file env w) = Ok tt /\
  (chosen_ext env <> ".pdf" -> chosen_ext env <> ".epub" ->
     open_file env w = (Ok tt, w, [unsupported_file])) /\
  (chosen_ext env = ".pdf" \/ chosen_ext env = ".epub" ->
     page_loop_interrupted env = false ->
     pages (final (open_file env w)) = []).
Proof.
  intros Hf. pose proof (open_failed_path env w Hf) as Hpath.
  revert Hf. unfold open_failed. rewrite (open_file_run env w Hpath).
  unfold run_loader, page_loop_interrupted.
  destruct (String.eqb (chosen_ext env) ".pdf") eqn:Epdf.
  - apply String.eqb_eq in Epdf. rewrite load_pdf_run.
    destruct (fitz_open (pdf env)) as [doc|e].
    + destruct (needs_pass doc && (_ || _)); [|destruct (needs_pass doc && negb _)].
      * intros _.
        match goal with |- context [_update_view ?x] =>
          destruct (_update_view_empty x eq_refl) as (Ho & _ & _);
          pose proof (_update_view_pages x) as Hp;
          destruct (_update_view x) as [[r w2] t2] end.
        unfold final, outcome in *. simpl in *. repeat split; congruence.
      * intros _.
        match goal with |- context [_update_view ?x] =>
          destruct (_update_view_empty x eq_refl) as (Ho & _ & _);
          pose proof (_update_view_pages x) as Hp;
          destruct (_update_view x) as [[r w2] t2] end.
        unfold final, outcome in *. simpl in *. repeat split; congruence.
      * unfold raises. destruct (first_raise (page_pixmaps doc)).
        -- intros _. simpl. repeat split; congruence.
        -- match goal with |- context [_update_view ?x] =>
             pose proof (_update_view_no_message x) as Hn;
             destruct (_update_view x) as [[r w2] t2] end.
           unfold trace in *. simpl in *. congruence.
    + intros _. simpl. repeat split; congruence.
  - destruct (String.eqb (chosen_ext env) ".epub") eqn:Eepub.
    + apply String.eqb_eq in Eepub. rewrite load_epub_run.
      destruct (mkdtemp (epub env)) as [dir|e];
        [destruct (read_epub (epub env)) as [book|e];
          [destruct (extract_items book) as [[]|e]|]|];
        try (intros _; simpl; repeat split; congruence).
      unfold raises. destruct (first_raise (document_items book)).
      * intros _. simpl. repeat split; congruence.
      * match goal with |- context [_update_view ?x] =>
          pose proof (_update_view_no_message x) as Hn;
          destruct (_update_view x) as [[r w2] t2] end.
        unfold trace in *. simpl in *. congruence.
    + apply String.eqb_neq in Epdf, Eepub. intros _.
      split; [reflexivity|]. split; [reflexivity|]. intros [H|H]; contradiction.
Qed.

Lemma failed_open_recovers_witness :
  outcome (open_file wrong_password reading_pdf) = Ok tt /\
  pages (final (open_file wrong_password reading_pdf)) = [] /\
  open_file text_file reading_pdf = (Ok tt, reading_pdf, [unsupported_file]).
Proof.
  assert (H1 : open_failed wrong_password reading_pdf) by by_compute.
  assert (H2 : open_failed text_file reading_pdf) by by_compute.
  destruct (failed_open_recovers wrong_password reading_pdf H1) as (Ho & _ & Hp).
  destruct (failed_open_recovers text_file reading_pdf H2) as (_ & Hu & _).
  split; [exact Ho|]. split.
  - apply Hp; [left|]; reflexivity.
  - apply Hu; by_compute.
Defined.

(** C4, as stated, fails: choosing a file with an unsupported extension
    while a document is shown is reported, and the document stays. *)
Lemma unsupported_open_keeps_document :
  open_failed text_file reading_pdf /\
  pages (final (open_file text_file reading_pdf)) <> [].
Proof. split; by_compute. Qed.

(** ** Opening an EPUB *)

Lemma py_index_in_range {A : Type} (l : list A) (i : Z) :
  0 <= i < len l -> exists x, py_index l i = Ok x.
Proof.
  intros [Hlo Hhi]. unfold py_index. fold (len l).
  destruct (i <? 0) eqn:Hneg; [apply Z.ltb_lt in Hneg; lia|].
  replace (0 <=? i) with true by (symmetry; apply Z.leb_le; lia).
  replace (i <? len l) with true by (symmetry; apply Z.ltb_lt; lia).
  simpl. destruct (l !! Z.to_nat i) as [x|] eqn:Hl; [eauto|].
  apply lookup_ge_None in Hl. unfold len in Hhi. lia.
Qed.

Lemma epub_pages_nonempty (book : epub_book) : epub_pages book <> [].
Proof. unfold epub_pages. destruct (loaded_prefix (document_items book)); discriminate. Qed.

(** C10. After an EPUB is opened without complaint the page list is that of
    its chapters, or the single placeholder page when it has no document
    item; it is never empty, the page index is 0 and indexing the page list
    with it succeeds. *)
Theorem open_epub_has_pages (env : open_env) (w : window) :
  opened env w -> chosen_ext env = ".epub" ->
  exists book,
    read_epub (epub env) = Ok book /\
    pages (final (open_file env w)) = epub_pages book /\
    (document_items book = [] ->
       pages (final (open_file env w)) = [HtmlPage no_readable_content]) /\
    pages (final (open_file env w)) <> [] /\
    current_index (final (open_file env w)) = 0 /\
    exists p, py_index (pages (final (open_file env w)))
                (current_index (final (open_file env w))) = Ok p.
Proof.
  intros [Hpath Hmsg] Hext. revert Hmsg. rewrite (open_file_run env w Hpath).
  unfold run_loader. rewrite Hext. cbn [String.eqb Ascii.eqb Bool.eqb]. cbn beta iota.
  rewrite load_epub_run.
  destruct (mkdtemp (epub env)) as [dir|e]; [|discriminate].
  destruct (read_epub (epub env)) as [book|e]; [|discriminate].
  destruct (extract_items book) as [[]|e]; [|discriminate].
  destruct (first_raise (document_items book)); [discriminate|].
  intros _. exists book.
  match goal with |- context [_update_view ?x] =>
    pose proof (_update_view_core x) as Hcore; unfold core in Hcore;
    destruct (_update_view x) as [[r w2] t2]
  end.
  unfold final, opened_window, epub_reset in *. simpl in Hcore |- *.
  assert (Hp : pages w2 = epub_pages book) by congruence.
  assert (Hi : current_index w2 = 0) by congruence.
  rewrite Hp, Hi. repeat split.
  - intros Hnil. unfold epub_pages. rewrite Hnil. reflexivity.
  - apply epub_pages_nonempty.
  - pose proof (epub_pages_nonempty book) as Hne.
    apply py_index_in_range.
    destruct (epub_pages book) as [|p ps]; [contradiction|].
    unfold len. simpl length. lia.
Qed.

Lemma open_epub_has_pages_witness :
  exists book,
    read_epub (epub no_chapters) = Ok book /\
    pages (final (open_file no_chapters reading_pdf)) = epub_pages book /\
    (document_items book = [] ->
       pages (final (open_file no_chapters reading_pdf)) = [HtmlPage no_readable_content]) /\
    pages (final (open_file no_chapters reading_pdf)) <> [] /\
    current_index (final (open_file no_chapters reading_pdf)) = 0 /\
    exists p, py_index (pages (final (open_file no_chapters reading_pdf)))
                (current_index (final (open_file no_chapters reading_pdf))) = Ok p.
Proof.
  apply (open_epub_has_pages no_chapters reading_pdf).
  - split; by_compute.
  - reflexivity.
Defined.

(** ** Continuous layout and the dirty flag *)


(** A continuous PDF view whose layout is stale is rebuilt by one
    [_update_view], which clears the flag. *)
Lemma _update_view_rebuilds (w : window) :
  current_book_type w = Some Pdf -> view_mode w = Continuous -> pages w <> [] ->
  _continuous_needs_build w = true ->
  outcome (_update_view w) = Ok tt /\
  trace (_update_view w) = [RebuildContinuous (length (pdf_images w))] /\
  multi_layout (final (_update_view w)) = continuous_layout w /\
  _continuous_needs_build (final (_update_view w)) = false.
Proof.
  intros Ht Hm Hp Hd. unfold_render. unfold continuous_layout. ui_unfold. simpl.
  destruct (pages w) eqn:E; [contradiction|]. simpl.
  rewrite Ht, Hm, Hd. simpl. rewrite E, Ht. simpl. rewrite length_map. auto.
Qed.

Lemma window_eta_eq (w : window) : window_eta w = w.
Proof. destruct w; reflexivity. Qed.

(** A continuous PDF view whose layout is up to date is left as it is. *)
Lemma _update_view_idle (w : window) :
  current_book_type w = Some Pdf -> view_mode w = Continuous -> pages w <> [] ->
  _continuous_needs_build w = false ->
  stack_current w = MultiScroll ->
  status_message w = PageInfo (current_book_title w) (current_index w + 1) (len (pages w)) ->
  zoom_label w = PercentOfZoom (current_zoom w) ->
  _update_view w = (Ok tt, w, []).
Proof.
  intros Ht Hm Hp Hd Hs Hst Hz. unfold_render. ui_unfold. simpl.
  destruct (pages w) eqn:E; [contradiction|]. simpl.
  rewrite Ht, Hm, Hd. simpl. rewrite E, Ht. simpl.
  do 2 f_equal. etransitivity; [|apply window_eta_eq]. unfold window_eta.
  unfold_setters. simpl. congruence.
Qed.

Lemma _update_view_twice (w : window) :
  current_book_type w = Some Pdf -> view_mode w = Continuous -> pages w <> [] ->
  _update_view (final (_update_view w)) = (Ok tt, final (_update_view w), []).
Proof.
  intros Ht Hm Hp. apply _update_view_idle.
  - rewrite _update_view_book_type. exact Ht.
  - rewrite _update_view_mode. exact Hm.
  - rewrite _update_view_pages. exact Hp.
  - unfold_render. ui_unfold. simpl.
    destruct (pages w) eqn:E; [contradiction|]. simpl.
    rewrite Ht, Hm. simpl. destruct (_continuous_needs_build w) eqn:Hd; simpl; rewrite E, Ht; simpl; auto.
  - unfold_render. ui_unfold. simpl.
    destruct (pages w) eqn:E; [contradiction|]. simpl.
    rewrite Ht, Hm. simpl. destruct (_continuous_needs_build w) eqn:Hd; simpl; rewrite E, Ht; simpl; auto.
  - unfold_render. ui_unfold. simpl.
    destruct (pages w) eqn:E; [contradiction|]. simpl.
    rewrite Ht, Hm. simpl. destruct (_continuous_needs_build w) eqn:Hd; simpl; rewrite E, Ht; simpl; rewrite ?E; auto.
  - unfold_render. ui_unfold. simpl.
    destruct (pages w) eqn:E; [contradiction|]. simpl.
    rewrite Ht, Hm. simpl. destruct (_continuous_needs_build w) eqn:Hd; simpl; rewrite E, Ht; simpl; auto.
Qed.

Lemma run_eta {A : Type} (x : result A * window * list effect) :
  (let '(r, w2, t2) := x in (r, w2, t2)) = x.
Proof. destruct x as [[r w2] t2]. reflexivity. Qed.

Lemma is_empty_false {A : Type} (l : list A) : l <> [] -> is_empty l = false.
Proof. destruct l; [contradiction | reflexivity]. Qed.

(** The window a zoom change hands to its own [_update_view]. *)
Lemma continuous_zoom_step (z : zoom_change) (w : window) :
  current_book_type w = Some Pdf -> view_mode w = Continuous -> pages w <> [] ->
  exists w1, change_zoom z w = _update_view w1 /\
             core w1 = core (w <| current_zoom := current_zoom w1 |>) /\
             _continuous_needs_build w1 = true.
Proof.
  intros Ht Hm Hp. pose proof (is_empty_false _ Hp) as He.
  destruct z as [| |value]; simpl;
    [unfold zoom_in | unfold zoom_out | unfold zoom_label_clicked];
    ui_unfold; simpl; rewrite He, Ht; simpl.
  - destruct (Qltb 3 _); simpl; rewrite Hm; simpl; rewrite !run_eta;
      eexists; (split; [reflexivity|]); split; reflexivity.
  - destruct (Qltb _ 0.5); simpl; rewrite Hm; simpl; rewrite !run_eta;
      eexists; (split; [reflexivity|]); split; reflexivity.
  - destruct (Qltb _ 0.5); simpl; try destruct (Qltb 3 _); simpl; rewrite Hm; simpl;
      rewrite !run_eta; eexists; (split; [reflexivity|]); split; reflexivity.
Qed.

(** C5. For a PDF with pages shown in continuous mode, a zoom change
    (zoom_in, zoom_out, a typed percentage) raises the dirty flag only on
    its way to its own _update_view: when the method returns, the layout
    has been rebuilt once, at the new zoom, and the flag is false.  A further
    _update_view changes nothing and rebuilds nothing. *)
Theorem continuous_zoom_rebuilds_at_once (z : zoom_change) (w : window) :
  current_book_type w = Some Pdf -> view_mode w = Continuous -> pages w <> [] ->
  (exists w1, change_zoom z w = _update_view w1 /\ _continuous_needs_build w1 = true) /\
  outcome (change_zoom z w) = Ok tt /\
  trace (change_zoom z w) = [RebuildContinuous (length (pdf_images w))] /\
  _continuous_needs_build (final (change_zoom z w)) = false /\
  multi_layout (final (change_zoom z w)) = continuous_layout (final (change_zoom z w)) /\
  _update_view (final (change_zoom z w)) = (Ok tt, final (change_zoom z w), []).
Proof.
  intros Ht Hm Hp.
  destruct (continuous_zoom_step z w Ht Hm Hp) as (w1 & Hrun & Hcore & Hd).
  assert (Ht1 : current_book_type w1 = Some Pdf) by (unfold core in Hcore; simpl in Hcore; congruence).
  assert (Hm1 : view_mode w1 = Continuous) by (unfold core in Hcore; simpl in Hcore; congruence).
  assert (Hp1 : pages w1 = pages w) by (unfold core in Hcore; simpl in Hcore; congruence).
  assert (Hi1 : pdf_images w1 = pdf_images w) by (unfold core in Hcore; simpl in Hcore; congruence).
  assert (Hp1' : pages w1 <> []) by (rewrite Hp1; exact Hp).
  destruct (_update_view_rebuilds w1 Ht1 Hm1 Hp1' Hd) as (Ho & Htr & Hl & Hf).
  rewrite Hi1 in Htr.
  split; [exists w1; split; [exact Hrun | exact Hd]|].
  rewrite Hrun. split; [exact Ho|]. split; [exact Htr|]. split; [exact Hf|]. split.
  - rewrite Hl. unfold continuous_layout.
    pose proof (_update_view_core w1) as Hc. unfold core in Hc.
    replace (pdf_images (final (_update_view w1))) with (pdf_images w1) by congruence.
    replace (current_zoom (final (_update_view w1))) with (current_zoom w1) by congruence.
    reflexivity.
  - apply _update_view_twice; assumption.
Qed.

(** C5, the claim as worded: after zoom_in on a continuous PDF the dirty
    flag is false, not true. *)
Theorem zoom_in_returns_with_flag_clear :
  current_book_type reading_continuous = Some Pdf /\
  view_mode reading_continuous = Continuous /\
  pages reading_continuous <> [] /\
  outcome (zoom_in reading_continuous) = Ok tt /\
  _continuous_needs_build (final (zoom_in reading_continuous)) = false.
Proof. by_compute. Qed.

(** C8. set_view_mode returns at once, leaving the window as it was, unless
    the current document is a PDF.  For a PDF, switching to continuous mode
    records the mode, raises the dirty flag and calls _update_view in the
    same breath: with pages the layout is rebuilt at once and the flag is
    false when set_view_mode returns; only with no page does the flag stay
    raised. *)
Theorem set_view_mode_spec (mode : string) (w : window) :
  (current_book_type w <> Some Pdf -> set_view_mode mode w = (Ok tt, w, [])) /\
  (current_book_type w = Some Pdf ->
   outcome (set_view_mode "continuous" w) = Ok tt /\
   view_mode (final (set_view_mode "continuous" w)) = Continuous /\
   (pages w = [] ->
      trace (set_view_mode "continuous" w) = [] /\
      _continuous_needs_build (final (set_view_mode "continuous" w)) = true) /\
   (pages w <> [] ->
      trace (set_view_mode "continuous" w) = [RebuildContinuous (length (pdf_images w))] /\
      multi_layout (final (set_view_mode "continuous" w)) = continuous_layout w /\
      _continuous_needs_build (final (set_view_mode "continuous" w)) = false)).
Proof.
  split.
  - intros Ht. unfold set_view_mode. ui_unfold. simpl.
    destruct (current_book_type w) as [[]|]; [contradiction| |]; reflexivity.
  - intros Ht.
    pose (w1 := w <| view_mode := Continuous |>
                  <| one_page_checked := false |>
                  <| all_pages_checked := true |>
                  <| _continuous_needs_build := true |>).
    assert (Hrun : set_view_mode "continuous" w = _update_view w1).
    { unfold set_view_mode. ui_unfold. simpl. rewrite Ht. simpl.
      rewrite !run_eta. reflexivity. }
    rewrite Hrun. rewrite _update_view_mode.
    split; [|split; [reflexivity|split]].
    + destruct (pages w) eqn:Hp.
      * destruct (_update_view_empty w1 Hp) as (Ho & _). exact Ho.
      * assert (Hp1 : pages w1 <> []) by (change (pages w1) with (pages w); congruence).
        destruct (_update_view_rebuilds w1 Ht eq_refl Hp1 eq_refl) as (Ho & _). exact Ho.
    + intros Hp. destruct (_update_view_empty w1 Hp) as (_ & Htr & Hd).
      split; [exact Htr | rewrite Hd; reflexivity].
    + intros Hp.
      destruct (_update_view_rebuilds w1 Ht eq_refl Hp eq_refl) as (_ & Htr & Hl & Hd).
      repeat split; assumption.
Qed.

(** C8, the claim as worded: after switching a PDF with pages into
    continuous mode the dirty flag is false, not true. *)
Theorem set_view_mode_returns_with_flag_clear :
  current_book_type reading_pdf = Some Pdf /\
  pages reading_pdf <> [] /\
  view_mode reading_pdf = Single /\
  view_mode (final (set_view_mode "continuous" reading_pdf)) = Continuous /\
  _continuous_needs_build (final (set_view_mode "continuous" reading_pdf)) = false.
Proof. by_compute. Qed.

(** ** Zoom and font size bounds *)


Lemma clamp_zoom_in_range (q : Q) :
  let q1 := if Qltb q 0.5 then 0.5%Q else q in
  let q2 := if Qltb 3 q1 then 3%Q else q1 in
  (0.5 <= q2)%Q /\ (q2 <= 3)%Q.
Proof.
  simpl. destruct (Qltb q 0.5) eqn:H1.
  - replace (Qltb 3 0.5) with false by reflexivity. split; lra.
  - apply Qltb_ge in H1. destruct (Qltb 3 q) eqn:H2.
    + split; lra.
    + apply Qltb_ge in H2. split; assumption.
Qed.

Lemma clamp_zoom_up (q : Q) :
  (0.5 <= q)%Q -> (q <= 3)%Q ->
  let q1 := Qred (q + 0.15) in
  let q2 := if Qltb 3 q1 then 3%Q else q1 in
  (0.5 <= q2)%Q /\ (q2 <= 3)%Q.
Proof.
  intros Hlo Hhi. simpl. destruct (Qltb 3 _) eqn:H.
  - split; lra.
  - apply Qltb_ge in H. split; [|exact H]. rewrite Qred_correct. lra.
Qed.

Lemma clamp_zoom_down (q : Q) :
  (0.5 <= q)%Q -> (q <= 3)%Q ->
  let q1 := Qred (q - 0.15) in
  let q2 := if Qltb q1 0.5 then 0.5%Q else q1 in
  (0.5 <= q2)%Q /\ (q2 <= 3)%Q.
Proof.
  intros Hlo Hhi. simpl. destruct (Qltb _ 0.5) eqn:H.
  - split; lra.
  - apply Qltb_ge in H. split; [exact H|]. rewrite Qred_correct. lra.
Qed.



Lemma zoom_in_cases (w : window) :
  zoom_in w = (Ok tt, w, []) \/
  exists w1, zoom_in w = _update_view w1 /\
             (zoom_in_range w -> zoom_in_range w1) /\
             (font_in_range w -> font_in_range w1).
Proof.
  unfold zoom_in, zoom_in_range, font_in_range. bind_unfold. simpl.
  destruct (is_empty (pages w)); simpl; [left; reflexivity|]. right.
  destruct (current_book_type w) as [[]|]; simpl.
  - pose proof (clamp_zoom_up (current_zoom w)) as Hc. simpl in Hc.
    destruct (Qltb 3 (Qred (current_zoom w + 0.15))); simpl;
      destruct (view_mode w); simpl; rewrite !run_eta;
      eexists; (split; [reflexivity|]); simpl; (split; [intros []; auto | auto]).
  - destruct (40 <? current_font_size w + 1) eqn:H; simpl; rewrite !run_eta;
      eexists; (split; [reflexivity|]); simpl; (split; [auto|]);
      try (apply Z.ltb_ge in H); lia.
  - destruct (40 <? current_font_size w + 1) eqn:H; simpl; rewrite !run_eta;
      eexists; (split; [reflexivity|]); simpl; (split; [auto|]);
      try (apply Z.ltb_ge in H); lia.
Qed.

Lemma zoom_out_cases (w : window) :
  zoom_out w = (Ok tt, w, []) \/
  exists w1, zoom_out w = _update_view w1 /\
             (zoom_in_range w -> zoom_in_range w1) /\
             (font_in_range w -> font_in_range w1).
Proof.
  unfold zoom_out, zoom_in_range, font_in_range. bind_unfold. simpl.
  destruct (is_empty (pages w)); simpl; [left; reflexivity|]. right.
  destruct (current_book_type w) as [[]|]; simpl.
  - pose proof (clamp_zoom_down (current_zoom w)) as Hc. simpl in Hc.
    destruct (Qltb (Qred (current_zoom w - 0.15)) 0.5); simpl;
      destruct (view_mode w); simpl; rewrite !run_eta;
      eexists; (split; [reflexivity|]); simpl; (split; [intros []; auto | auto]).
  - destruct (current_font_size w - 1 <? 8) eqn:H; simpl; rewrite !run_eta;
      eexists; (split; [reflexivity|]); simpl; (split; [auto|]);
      try (apply Z.ltb_ge in H); lia.
  - destruct (current_font_size w - 1 <? 8) eqn:H; simpl; rewrite !run_eta;
      eexists; (split; [reflexivity|]); simpl; (split; [auto|]);
      try (apply Z.ltb_ge in H); lia.
Qed.

Lemma _update_view_zoom_in_range (w : window) :
  zoom_in_range w -> zoom_in_range (final (_update_view w)).
Proof. unfold zoom_in_range. rewrite _update_view_zoom. auto. Qed.

Lemma _update_view_font_in_range (w : window) :
  font_in_range w -> font_in_range (final (_update_view w)).
Proof. unfold font_in_range. rewrite _update_view_font. auto. Qed.

(** ** Settings bootstrap *)

Lemma has_option_lookup c S k :
  has_option c S k = bool_decide (is_Some (cfg_lookup c S k)).
Proof.
  unfold has_option, cfg_lookup. destruct (cfg_sections c !! S) as [d|].
  - destruct (d !! k) as [v|].
    + rewrite !bool_decide_eq_true_2 by eauto. reflexivity.
    + rewrite (bool_decide_eq_false_2 (is_Some None)) by (intros [? ?]; discriminate).
      reflexivity.
  - rewrite bool_decide_eq_false_2 by (intros [? ?]; discriminate). reflexivity.
Qed.

(** A value without [%] is read as it is stored, and may be stored. *)
Lemma interpolate_scan_plain nested map (s : string) :
  contains_percent s = false -> interpolate_scan nested map Plain s = Ok s.
Proof.
  induction s as [|c s IH]; simpl; [reflexivity|].
  intros H. apply orb_false_iff in H as [Hc Hs]. rewrite Hc, (IH Hs). reflexivity.
Qed.

Lemma before_get_plain c S (v : string) :
  contains_percent v = false -> before_get c S v = Ok v.
Proof. intros H. unfold before_get. simpl. apply interpolate_scan_plain, H. Qed.

Lemma drop_escaped_percent_plain (s : string) :
  contains_percent s = false -> drop_escaped_percent s = s.
Proof.
  induction s as [|c s IH]; simpl; [reflexivity|].
  intros H. apply orb_false_iff in H as [Hc Hs]. rewrite Hc. simpl.
  destruct s as [|c' s']; [reflexivity|]. rewrite (IH Hs). reflexivity.
Qed.

Lemma only_references_plain (s : string) :
  contains_percent s = false -> only_references Plain s = true.
Proof.
  induction s as [|c s IH]; simpl; [reflexivity|].
  intros H. apply orb_false_iff in H as [Hc Hs]. rewrite Hc. apply IH, Hs.
Qed.

Lemma before_set_plain (v : string) : contains_percent v = false -> before_set v = true.
Proof.
  intros H. unfold before_set. rewrite drop_escaped_percent_plain by exact H.
  apply only_references_plain, H.
Qed.

Lemma cfg_get_plain c S k (v : string) :
  cfg_lookup c S k = Some v -> contains_percent v = false -> cfg_get c S k = Ok v.
Proof. intros Hl Hv. unfold cfg_get. rewrite Hl. apply before_get_plain, Hv. Qed.

Lemma cfg_store_section (c : ConfigParser) (S k v : string) :
  has_section (cfg_store c S k v) S = has_section c S.
Proof.
  unfold has_section, cfg_store. simpl. rewrite lookup_alter_eq.
  destruct (cfg_sections c !! S); reflexivity.
Qed.

Lemma cfg_store_lookup (c : ConfigParser) (S k v k' : string) :
  has_section c S = true ->
  cfg_lookup (cfg_store c S k v) S k' =
  if decide (k = k') then Some v else cfg_lookup c S k'.
Proof.
  unfold has_section. intros H. apply bool_decide_eq_true_1 in H as [d Hd].
  unfold cfg_lookup, cfg_store. simpl. rewrite lookup_alter_eq, Hd. simpl.
  destruct (decide (k = k')) as [<-|Hne].
  - rewrite lookup_insert_eq. reflexivity.
  - rewrite lookup_insert_ne by exact Hne. reflexivity.
Qed.

(** [setdefault] on an option whose stored value, if any, holds no [%]. *)
Lemma cfg_setdefault_run c S k v :
  has_section c S = true ->
  contains_percent v = false ->
  (forall raw, cfg_lookup c S k = Some raw -> contains_percent raw = false) ->
  exists c',
    cfg_setdefault c S k v = Ok c' /\
    has_section c' S = true /\
    forall k', cfg_lookup c' S k' =
               if decide (k = k') then Some (default v (cfg_lookup c S k))
               else cfg_lookup c S k'.
Proof.
  intros Hs Hv Hraw. unfold cfg_setdefault. rewrite has_option_lookup.
  destruct (cfg_lookup c S k) as [raw|] eqn:Hk.
  - rewrite bool_decide_eq_true_2 by eauto.
    rewrite (cfg_get_plain c S k raw Hk (Hraw raw eq_refl)).
    exists c. split; [reflexivity|]. split; [exact Hs|].
    intros k'. destruct (decide (k = k')) as [<-|]; [exact Hk | reflexivity].
  - rewrite bool_decide_eq_false_2 by (intros [? ?]; discriminate).
    unfold cfg_set. rewrite (before_set_plain v Hv).
    exists (cfg_store c S k v). split; [reflexivity|].
    split; [rewrite cfg_store_section; exact Hs|].
    intros k'. apply cfg_store_lookup, Hs.
Qed.

Lemma set_config_same (w : window) : w <| config := config w |> = w.
Proof. destruct w; reflexivity. Qed.

Lemma setdefault_each_run (items : list (string * string)) (w : window) :
  has_section (config w) "General" = true ->
  Forall (fun kv => contains_percent (snd kv) = false) items ->
  (forall kv raw, In kv items ->
     cfg_lookup (config w) "General" (fst kv) = Some raw -> contains_percent raw = false) ->
  exists c',
    setdefault_each items w = (Ok tt, w <| config := c' |>, []) /\
    has_section c' "General" = true /\
    forall k, cfg_lookup c' "General" k =
              match cfg_lookup (config w) "General" k with
              | Some v => Some v
              | None => assoc_first k items
              end.
Proof.
  revert w. induction items as [|[key value] items IH]; intros w Hs Hv Hraw.
  - exists (config w). simpl. rewrite set_config_same.
    split; [reflexivity|]. split; [exact Hs|].
    intros k. destruct (cfg_lookup (config w) "General" k); reflexivity.
  - inversion Hv as [|? ? Hv1 Hv2]; subst. simpl in Hv1.
    destruct (cfg_setdefault_run (config w) "General" key value Hs Hv1)
      as (c1 & Hc1 & Hs1 & Hl1).
    { intros raw. apply (Hraw (key, value)). left. reflexivity. }
    assert (Hs1' : has_section (config (w <| config := c1 |>)) "General" = true)
      by exact Hs1.
    destruct (IH (w <| config := c1 |>) Hs1' Hv2) as (c2 & Hc2 & Hs2 & Hl2).
    { intros kv raw Hin. change (config (w <| config := c1 |>)) with c1. rewrite Hl1.
      destruct (decide (key = fst kv)) as [->|Hne].
      - destruct (cfg_lookup (config w) "General" (fst kv)) as [x|] eqn:Hx; simpl.
        + intros E. injection E as <-. apply (Hraw kv x); [right; exact Hin | exact Hx].
        + intros E. injection E as <-. exact Hv1.
      - apply (Hraw kv raw). right. exact Hin. }
    exists c2. split; [|split; [exact Hs2|]].
    + simpl. bind_unfold. simpl. rewrite Hc1. simpl. rewrite !run_eta. exact Hc2.
    + intros k. rewrite Hl2. change (config (w <| config := c1 |>)) with c1.
      simpl. rewrite Hl1.
      destruct (decide (key = k)) as [->|Hne].
      * destruct (cfg_lookup (config w) "General" k); reflexivity.
      * reflexivity.
Qed.

Lemma _load_or_create_settings_read (w : window) :
  _load_or_create_settings w =
  match setdefault_each defaults (w <| config := settings_read w |>) with
  | (Ok _, w1, t1) => (Ok tt, w1 <| disk := Stored (config w1) |>, t1)
  | (Raise e, w1, t1) => (Raise e, w1, t1)
  end.
Proof.
  unfold _load_or_create_settings.
  generalize (setdefault_each defaults). intros loop.
  remember (w <| config := settings_read w |>) as x eqn:Hx.
  unfold settings_read in Hx. bind_unfold. simpl.
  destruct (disk w); simpl in *;
    match type of Hx with context [has_section ?c "General"] =>
      destruct (has_section c "General") end; simpl in *;
    match goal with
    | |- context [loop ?y] =>
        tryif constr_eq y x then fail
        else replace y with x by (subst x; destruct w; reflexivity)
    end;
    destruct (loop x) as [[[[]|e] w1] t1]; simpl; rewrite ?app_nil_r; reflexivity.
Qed.

Lemma cfg_read_fresh (file : ConfigParser) : cfg_read file empty_config = file.
Proof.
  destruct file as [d s]. unfold cfg_read, empty_config. simpl. f_equal.
  - apply (right_id_L ∅ (∪)).
  - apply (right_id_L ∅ (union_with _)).
Qed.

Lemma settings_read_section (w : window) :
  has_section (settings_read w) "General" = true.
Proof.
  unfold settings_read.
  match goal with |- context [if has_section ?c "General" then _ else _] =>
    destruct (has_section c "General") eqn:H end.
  - exact H.
  - unfold has_section, cfg_reset_section. simpl. rewrite lookup_insert_eq.
    apply bool_decide_eq_true_2. eauto.
Qed.

Lemma settings_read_lookup (w : window) (k : string) :
  config w = empty_config ->
  cfg_lookup (settings_read w) "General" k = stored_option (disk w) k.
Proof.
  intros Hc. unfold settings_read, stored_option. rewrite Hc.
  destruct (disk w) as [| |file].
  - reflexivity.
  - reflexivity.
  - rewrite cfg_read_fresh. unfold has_section, cfg_lookup.
    destruct (cfg_sections file !! "General") as [d|] eqn:Hd.
    + rewrite bool_decide_eq_true_2 by eauto. rewrite Hd. reflexivity.
    + rewrite bool_decide_eq_false_2 by (intros [? ?]; discriminate).
      unfold cfg_reset_section. simpl. rewrite lookup_insert_eq, lookup_empty. reflexivity.
Qed.

(** X29. Started on a fresh parser, with a settings file in which the
    values of theme, font_family, font_size and language hold no [%],
    _load_or_create_settings does not raise and leaves on disk exactly the
    parser it ends with.  In that parser theme, font_family, font_size and
    language read as the value the file held, or as light, Segoe UI, 12 and
    en when the file is absent, malformed or does not hold the option; and
    every option the file held under General is stored as it was. *)
Theorem load_or_create_settings_completes (w : window) :
  config w = empty_config ->
  (forall key raw,
     In key ["theme"; "font_family"; "font_size"; "language"] ->
     stored_option (disk w) key = Some raw -> contains_percent raw = false) ->
  outcome (_load_or_create_settings w) = Ok tt /\
  disk (final (_load_or_create_settings w))
    = Stored (config (final (_load_or_create_settings w))) /\
  cfg_get (config (final (_load_or_create_settings w))) "General" "theme"
    = Ok (default "light" (stored_option (disk w) "theme")) /\
  cfg_get (config (final (_load_or_create_settings w))) "General" "font_family"
    = Ok (default "Segoe UI" (stored_option (disk w) "font_family")) /\
  cfg_get (config (final (_load_or_create_settings w))) "General" "font_size"
    = Ok (default "12" (stored_option (disk w) "font_size")) /\
  cfg_get (config (final (_load_or_create_settings w))) "General" "language"
    = Ok (default "en" (stored_option (disk w) "language")) /\
  (forall k v, stored_option (disk w) k = Some v ->
     cfg_lookup (config (final (_load_or_create_settings w))) "General" k = Some v).
Proof.
  intros Hc Hplain. rewrite _load_or_create_settings_read.
  destruct (setdefault_each_run defaults (w <| config := settings_read w |>))
    as (c' & Hrun & Hs' & Hl).
  - exact (settings_read_section w).
  - repeat constructor.
  - intros kv raw Hin.
    change (config (w <| config := settings_read w |>)) with (settings_read w).
    rewrite (settings_read_lookup w _ Hc). apply Hplain.
    unfold defaults in Hin. simpl in Hin.
    destruct Hin as [<-|[<-|[<-|[<-|[]]]]]; simpl; tauto.
  - rewrite Hrun. unfold outcome, final. simpl.
    assert (Hget : forall k d, In k ["theme"; "font_family"; "font_size"; "language"] ->
                     assoc_first k defaults = Some d -> contains_percent d = false ->
                     cfg_get c' "General" k = Ok (default d (stored_option (disk w) k))).
    { intros k d Hin Hd Hpd. apply cfg_get_plain.
      - rewrite Hl.
        change (config (w <| config := settings_read w |>)) with (settings_read w).
        rewrite (settings_read_lookup w k Hc).
        destruct (stored_option (disk w) k); [reflexivity | exact Hd].
      - destruct (stored_option (disk w) k) as [raw|] eqn:Hk; simpl;
          [apply (Hplain k raw Hin Hk) | exact Hpd]. }
    split; [reflexivity|]. split; [reflexivity|].
    split; [apply Hget; [simpl; tauto | reflexivity | reflexivity]|].
    split; [apply Hget; [simpl; tauto | reflexivity | reflexivity]|].
    split; [apply Hget; [simpl; tauto | reflexivity | reflexivity]|].
    split; [apply Hget; [simpl; tauto | reflexivity | reflexivity]|].
    intros k v Hk. rewrite Hl.
    change (config (w <| config := settings_read w |>)) with (settings_read w).
    rewrite (settings_read_lookup w k Hc), Hk. reflexivity.
Qed.

Lemma load_or_create_settings_completes_witness :
  cfg_get (config (final (_load_or_create_settings (starting Absent)))) "General" "font_size"
    = Ok "12" /\
  cfg_get (config (final (_load_or_create_settings (starting (Stored dark_settings)))))
    "General" "theme" = Ok "dark" /\
  cfg_get (config (final (_load_or_create_settings (starting (Stored dark_settings)))))
    "General" "language" = Ok "en".
Proof.
  destruct (load_or_create_settings_completes (starting Absent) eq_refl)
    as (_ & _ & _ & _ & H1 & _).
  { intros key raw _ H. discriminate H. }
  destruct (load_or_create_settings_completes (starting (Stored dark_settings)) eq_refl)
    as (_ & _ & H2 & _ & _ & H3 & _).
  { intros key raw Hin H. simpl in Hin.
    destruct Hin as [<-|[<-|[<-|[<-|[]]]]]; vm_compute in H;
      first [discriminate H | injection H as <-; reflexivity]. }
  split; [exact H1|]. split; [exact H2 | exact H3].
Defined.

(** ** Witnesses on the sample windows *)

Lemma continuous_zoom_rebuilds_at_once_witness :
  outcome (change_zoom StepIn reading_continuous) = Ok tt /\
  trace (change_zoom StepIn reading_continuous)
    = [RebuildContinuous (length (pdf_images reading_continuous))] /\
  _continuous_needs_build (final (change_zoom StepIn reading_continuous)) = false /\
  multi_layout (final (change_zoom StepIn reading_continuous))
    = continuous_layout (final (change_zoom StepIn reading_continuous)) /\
  _update_view (final (change_zoom StepIn reading_continuous))
    = (Ok tt, final (change_zoom StepIn reading_continuous), []).
Proof.
  destruct (continuous_zoom_rebuilds_at_once StepIn reading_continuous
              ltac:(by_compute) ltac:(by_compute) ltac:(by_compute)) as [_ H].
  exact H.
Defined.

Lemma set_view_mode_spec_witness :
  set_view_mode "continuous" reading_epub = (Ok tt, reading_epub, []) /\
  _continuous_needs_build (final (set_view_mode "continuous" reading_pdf)) = false /\
  _continuous_needs_build (final (set_view_mode "continuous" (pdf_reset fresh_window))) = true.
Proof.
  destruct (set_view_mode_spec "continuous" reading_epub) as [Hepub _].
  destruct (set_view_mode_spec "continuous" reading_pdf) as [_ Hpdf].
  destruct (set_view_mode_spec "continuous" (pdf_reset fresh_window)) as [_ Hnone].
  split; [|split].
  - apply Hepub. by_compute.
  - destruct (Hpdf eq_refl) as (_ & _ & _ & Hbuilt).
    destruct Hbuilt as (_ & _ & Hflag); [by_compute | exact Hflag].
  - destruct (Hnone eq_refl) as (_ & _ & Hkept & _).
    destruct (Hkept eq_refl) as [_ Hflag]. exact Hflag.
Defined.


(** ** What every operation preserves *)

Ltac op_case :=
  match goal with
  | |- context [match ?x with _ => _ end] =>
      lazymatch x with
      | context [match _ with _ => _ end] => fail
      | context [_update_view] => fail
      | _ => destruct x eqn:?
      end
  end.

Ltac op_run := bind_unfold; repeat (simpl; rewrite ?run_eta; try op_case).

Lemma _update_view_base_font (w : window) :
  base_font_size (final (_update_view w)) = base_font_size w.
Proof. pose proof (_update_view_core w) as H. unfold core in H. congruence. Qed.

Lemma _update_view_page_invariant (w : window) :
  page_invariant w -> page_invariant (final (_update_view w)).
Proof.
  unfold page_invariant, index_valid.
  rewrite _update_view_pages, _update_view_index. auto.
Qed.

Lemma run_keeps_pages (o : op) (w : window) :
  keeps_document o ->
  pages (final (run o w)) = pages w /\
  current_index (final (run o w)) = current_index w.
Proof.
  destruct o as [env| | |a| | |a|mode|a]; simpl; try contradiction; intros _.
  - unfold zoom_in. op_run; rewrite ?_update_view_pages, ?_update_view_index; auto.
  - unfold zoom_out. op_run; rewrite ?_update_view_pages, ?_update_view_index; auto.
  - unfold zoom_label_clicked. op_run; rewrite ?_update_view_pages, ?_update_view_index; auto.
  - unfold set_view_mode. op_run; rewrite ?_update_view_pages, ?_update_view_index; auto.
  - unfold open_settings_dialog, save_settings, set_general. op_run;
      rewrite ?_update_view_pages, ?_update_view_index; auto.
Qed.

Lemma navigate_page_invariant (n : navigation) (w : window) :
  page_invariant w ->
  (forall a, n = GoTo a -> getInt_contract 1 (len (pages w)) a) ->
  page_invariant (final (navigate n w)).
Proof.
  intros Hinv Hc. unfold page_invariant, index_valid in *.
  destruct n as [| |[value ok]]; simpl.
  - unfold go_prev. op_run; rewrite ?_update_view_pages, ?_update_view_index; simpl; auto.
    right. destruct Hinv as [H|H]; [rewrite H in *; discriminate|]. lia.
  - unfold go_next. op_run; rewrite ?_update_view_pages, ?_update_view_index; simpl; auto.
    right. destruct Hinv as [H|H]; [rewrite H in *; discriminate|]. lia.
  - specialize (Hc _ eq_refl). unfold getInt_contract in Hc. simpl in Hc.
    unfold go_to_page_dialog. op_run;
      rewrite ?_update_view_pages, ?_update_view_index; simpl; auto.
    right. specialize (Hc eq_refl). lia.
Qed.

Lemma index_zero_invariant (w : window) : current_index w = 0 -> page_invariant w.
Proof.
  intros H. unfold page_invariant, index_valid. rewrite H.
  destruct (pages w) as [|p ps]; [left; reflexivity|]. right.
  unfold len. simpl length. lia.
Qed.

Lemma final_let {A : Type} (x : result A * window * list effect)
    (g : list effect -> list effect) :
  final (let '(r, w2, t2) := x in (r, w2, g t2)) = final x.
Proof. destruct x as [[r w2] t2]. reflexivity. Qed.

Lemma open_file_page_invariant (env : open_env) (w : window) :
  page_invariant w ->
  page_loop_interrupted env = false ->
  page_invariant (final (open_file env w)).
Proof.
  intros Hinv Hloop.
  destruct (String.eqb (chosen_path env) EmptyString) eqn:Ep.
  { unfold open_file. rewrite Ep. exact Hinv. }
  apply String.eqb_neq in Ep. rewrite (open_file_run env w Ep).
  revert Hloop. unfold run_loader, page_loop_interrupted.
  destruct (String.eqb (chosen_ext env) ".pdf").
  - rewrite load_pdf_run.
    destruct (fitz_open (pdf env)) as [doc|e]; [|intros _; left; reflexivity].
    destruct (needs_pass doc && (_ || _)); [|destruct (needs_pass doc && negb _)].
    + intros _. rewrite final_let. apply _update_view_page_invariant, index_zero_invariant.
      reflexivity.
    + intros _. rewrite final_let. apply _update_view_page_invariant, index_zero_invariant.
      reflexivity.
    + unfold raises. destruct (first_raise (page_pixmaps doc)); [discriminate|].
      intros _. rewrite final_let. apply _update_view_page_invariant, index_zero_invariant.
      reflexivity.
  - destruct (String.eqb (chosen_ext env) ".epub"); [|intros _; exact Hinv].
    rewrite load_epub_run.
    destruct (mkdtemp (epub env)) as [dir|e]; [|intros _; left; reflexivity].
    destruct (read_epub (epub env)) as [book|e]; [|intros _; left; reflexivity].
    destruct (extract_items book) as [[]|e]; [|intros _; left; reflexivity].
    unfold raises. destruct (first_raise (document_items book)); [discriminate|].
    intros _. rewrite final_let.
    apply _update_view_page_invariant, index_zero_invariant. reflexivity.
Qed.

(** X8. Every operation keeps the page invariant, except an open whose page
    loop is cut short. *)
Lemma page_invariant_preserved (o : op) (w : window) :
  page_invariant w ->
  op_contract w o ->
  (forall env, o = OpenFile env -> page_loop_interrupted env = false) ->
  page_invariant (final (run o w)).
Proof.
  intros Hinv Hc Hopen.
  destruct o as [env| | |a| | |a|mode|a];
    try (match goal with |- page_invariant (final (run ?o w)) =>
           destruct (run_keeps_pages o w I) as [Hp Hi] end;
         unfold page_invariant, index_valid in *; rewrite Hp, Hi; exact Hinv).
  - apply open_file_page_invariant; [exact Hinv | apply Hopen; reflexivity].
  - apply (navigate_page_invariant Prev w Hinv). intros a H. discriminate H.
  - apply (navigate_page_invariant Next w Hinv). intros a H. discriminate H.
  - apply (navigate_page_invariant (GoTo a) w Hinv). intros a' H. injection H as <-. exact Hc.
Qed.

Lemma open_file_view (env : open_env) (w : window) :
  (current_zoom (final (open_file env w)) = current_zoom w \/
   current_zoom (final (open_file env w)) = 1%Q) /\
  (current_font_size (final (open_file env w)) = current_font_size w \/
   current_font_size (final (open_file env w)) = base_font_size w) /\
  base_font_size (final (open_file env w)) = base_font_size w.
Proof.
  destruct (String.eqb (chosen_path env) EmptyString) eqn:Ep.
  { unfold open_file. rewrite Ep. simpl. auto. }
  apply String.eqb_neq in Ep. rewrite (open_file_run env w Ep).
  unfold run_loader.
  destruct (String.eqb (chosen_ext env) ".pdf").
  - rewrite load_pdf_run.
    destruct (fitz_open (pdf env)) as [doc|e]; [|simpl; auto].
    destruct (needs_pass doc && (_ || _)); [|destruct (needs_pass doc && negb _)];
      [| |destruct (first_raise (page_pixmaps doc)); [simpl; auto|]];
      rewrite final_let, _update_view_zoom, _update_view_font, _update_view_base_font;
      simpl; auto.
  - destruct (String.eqb (chosen_ext env) ".epub"); [|simpl; auto].
    rewrite load_epub_run.
    destruct (mkdtemp (epub env)) as [dir|e]; [|simpl; auto].
    destruct (read_epub (epub env)) as [book|e]; [|simpl; auto].
    destruct (extract_items book) as [[]|e]; [|simpl; auto].
    destruct (first_raise (document_items book)); [simpl; auto|].
    rewrite final_let, _update_view_zoom, _update_view_font, _update_view_base_font.
    simpl. auto.
Qed.

Lemma zoom_label_clicked_view (a : getInt_answer) (w : window) :
  (zoom_in_range w -> zoom_in_range (final (zoom_label_clicked a w))) /\
  (font_in_range w -> font_in_range (final (zoom_label_clicked a w))) /\
  base_font_size (final (zoom_label_clicked a w)) = base_font_size w.
Proof.
  destruct a as [value ok].
  pose proof (clamp_zoom_in_range (Qred (inject_Z value / 100))) as Hc. simpl in Hc.
  unfold zoom_label_clicked, zoom_in_range, font_in_range.
  op_run; rewrite ?_update_view_zoom, ?_update_view_font, ?_update_view_base_font;
    simpl; repeat split; auto; try tauto;
    repeat match goal with
           | H : (_ <? _) = true |- _ => apply Z.ltb_lt in H
           | H : (_ <? _) = false |- _ => apply Z.ltb_ge in H
           end; try lia.
Qed.

(** The zoom factor stays within 0.5..3.0 under every operation. *)
Lemma zoom_in_range_preserved (o : op) (w : window) :
  zoom_in_range w -> zoom_in_range (final (run o w)).
Proof.
  intros Hz. destruct o as [env| | |a| | |a|mode|a]; simpl.
  - destruct (open_file_view env w) as [[H|H] _]; unfold zoom_in_range in *; rewrite H;
      [exact Hz | split; lra].
  - unfold go_prev, zoom_in_range in *. op_run; rewrite ?_update_view_zoom; simpl; auto.
  - unfold go_next, zoom_in_range in *. op_run; rewrite ?_update_view_zoom; simpl; auto.
  - unfold go_to_page_dialog, zoom_in_range in *.
    op_run; rewrite ?_update_view_zoom; simpl; auto.
  - destruct (zoom_in_cases w) as [->|(w1 & -> & H & _)];
      [exact Hz | apply _update_view_zoom_in_range, H, Hz].
  - destruct (zoom_out_cases w) as [->|(w1 & -> & H & _)];
      [exact Hz | apply _update_view_zoom_in_range, H, Hz].
  - apply zoom_label_clicked_view, Hz.
  - unfold set_view_mode, zoom_in_range in *.
    op_run; rewrite ?_update_view_zoom; simpl; auto.
  - unfold open_settings_dialog, save_settings, set_general, zoom_in_range in *.
    op_run; rewrite ?_update_view_zoom; simpl; auto.
Qed.

(** X9. The font size stays within 8..40 under every operation as long as
    the base font size does, that is, unless the settings dialog is accepted
    with a size above 40. *)
Lemma font_in_range_preserved (o : op) (w : window) :
  font_sizes_in_range w ->
  (forall v, o = Settings (Some v) -> 8 <= v_font_size v <= 40) ->
  font_sizes_in_range (final (run o w)).
Proof.
  unfold font_sizes_in_range. intros [Hf Hb] Hv.
  destruct o as [env| | |a| | |a|mode|a]; simpl.
  - destruct (open_file_view env w) as (_ & [H|H] & Hbase);
      unfold font_in_range in *; rewrite H, Hbase; auto.
  - unfold go_prev, font_in_range in *.
    op_run; rewrite ?_update_view_font, ?_update_view_base_font; simpl; auto.
  - unfold go_next, font_in_range in *.
    op_run; rewrite ?_update_view_font, ?_update_view_base_font; simpl; auto.
  - unfold go_to_page_dialog, font_in_range in *.
    op_run; rewrite ?_update_view_font, ?_update_view_base_font; simpl; auto.
  - split.
    + destruct (zoom_in_cases w) as [->|(w1 & -> & _ & H)];
        [exact Hf | apply _update_view_font_in_range, H, Hf].
    + unfold zoom_in. op_run; rewrite ?_update_view_base_font; simpl; auto.
  - split.
    + destruct (zoom_out_cases w) as [->|(w1 & -> & _ & H)];
        [exact Hf | apply _update_view_font_in_range, H, Hf].
    + unfold zoom_out. op_run; rewrite ?_update_view_base_font; simpl; auto.
  - destruct (zoom_label_clicked_view a w) as (_ & H & Hbase). rewrite Hbase. auto.
  - unfold set_view_mode, font_in_range in *.
    op_run; rewrite ?_update_view_font, ?_update_view_base_font; simpl; auto.
  - unfold open_settings_dialog, save_settings, set_general, font_in_range in *.
    op_run; rewrite ?_update_view_font, ?_update_view_base_font; simpl; auto;
      split; apply (Hv _ eq_refl).
Qed.

(** X7. In every window the controller can reach, the zoom factor lies
    within 0.5..3.0. *)
Lemma reachable_zoom_in_range (w : window) : reachable w -> zoom_in_range w.
Proof.
  induction 1 as [cfg file lang thm family size|w o _ IH _].
  - unfold zoom_in_range. simpl. split; lra.
  - apply zoom_in_range_preserved, IH.
Qed.

(** ** Where the code departs from the specification *)

(** C2. An exception inside the page loop of a loader leaves the pages
    loaded so far next to the page index of the previous document:
    [open_file] resets the index only after the loader has returned.  On the
    third page of a three-page PDF, opening a PDF whose second page cannot be
    rendered is reported, returns normally, and leaves one page with page
    index 2.  The same with an EPUB makes the next page turn die on the
    page lookup. *)
Theorem partial_open_breaks_page_invariant :
  page_invariant on_last_page /\
  open_failed broken_second_page on_last_page /\
  outcome (open_file broken_second_page on_last_page) = Ok tt /\
  pages (final (open_file broken_second_page on_last_page)) = [PdfPage 0] /\
  current_index (final (open_file broken_second_page on_last_page)) = 2 /\
  ~ page_invariant (final (open_file broken_second_page on_last_page)) /\
  pages (final (open_file broken_second_chapter on_last_page)) = [HtmlPage "<p>one</p>"] /\
  current_index (final (open_file broken_second_chapter on_last_page)) = 2 /\
  outcome (go_prev (final (open_file broken_second_chapter on_last_page))) = Raise IndexError.
Proof.
  split; [right; unfold index_valid; by_compute|].
  split; [by_compute|]. split; [reflexivity|]. split; [reflexivity|].
  split; [reflexivity|]. split; [|repeat split; reflexivity].
  intros [H|H].
  - vm_compute in H. discriminate H.
  - unfold index_valid in H. vm_compute in H. destruct H as [_ H]. discriminate H.
Qed.

(** C7. The settings dialog offers sizes up to 48 and [open_settings_dialog]
    copies the chosen size into the current font size unclamped, as
    [load_epub] does afterwards.  From there zoom_out goes to 47, still
    outside 8..40, while zoom_in jumps down to 40. *)
Theorem settings_font_size_escapes_range :
  settings_contract largest_font /\
  font_in_range reading_epub /\
  outcome (open_settings_dialog (Some largest_font) reading_epub) = Ok tt /\
  current_font_size (final (open_settings_dialog (Some largest_font) reading_epub)) = 48 /\
  ~ font_in_range (final (open_settings_dialog (Some largest_font) reading_epub)) /\
  current_font_size
    (final (zoom_out (final (open_settings_dialog (Some largest_font) reading_epub)))) = 47 /\
  current_font_size
    (final (zoom_in (final (open_settings_dialog (Some largest_font) reading_epub)))) = 40 /\
  current_font_size
    (final (open_file two_chapters
              (final (open_settings_dialog (Some largest_font) reading_epub)))) = 48.
Proof.
  split; [unfold settings_contract; simpl; repeat split; auto; lia|].
  split; [unfold font_in_range; by_compute|].
  split; [reflexivity|]. split; [reflexivity|].
  split; [|repeat split; reflexivity].
  unfold font_in_range. intros [_ H]. vm_compute in H. apply H. reflexivity.
Qed.

Lemma half_loaded_reachable : reachable half_loaded.
Proof.
  assert (E : half_loaded =
              final (run (OpenFile broken_second_page)
                (final (run GoNext
                  (final (run GoNext
                    (final (run (OpenFile three_pages)
                      (init_attributes default_config (Stored default_config)
                         "en" "light" "Segoe UI" 12)))))))))
    by (vm_compute; reflexivity).
  rewrite E.
  apply reach_run; [|exact I]. apply reach_run; [|exact I].
  apply reach_run; [|exact I]. apply reach_run; [apply reach_init | exact I].
Qed.

(** C1. go_prev and go_next step from the current index after comparing it
    with the ends of the page list; they do not clamp it.  The window left
    by the PDF whose second page failed (C2) has one page and page index 2:
    there go_next does nothing and go_prev moves to index 1, both outside
    0..0, without raising and without a message. *)
Theorem navigation_from_stale_index :
  reachable half_loaded /\
  pages half_loaded = [PdfPage 0] /\
  current_index half_loaded = 2 /\
  go_next half_loaded = (Ok tt, half_loaded, []) /\
  outcome (go_prev half_loaded) = Ok tt /\
  existsb is_message (trace (go_prev half_loaded)) = false /\
  pages (final (go_prev half_loaded)) = [PdfPage 0] /\
  current_index (final (go_prev half_loaded)) = 1 /\
  ~ index_valid (final (go_next half_loaded)) /\
  ~ index_valid (final (go_prev half_loaded)).
Proof.
  split; [exact half_loaded_reachable|].
  do 7 (split; [reflexivity|]).
  split; intros [_ H]; vm_compute in H; discriminate H.
Qed.

Lemma oversized_font_reachable : reachable oversized_font.
Proof.
  assert (E : oversized_font =
              final (run (Settings (Some largest_font))
                (final (run (OpenFile two_chapters)
                  (init_attributes default_config (Stored default_config)
                     "en" "light" "Segoe UI" 12)))))
    by (vm_compute; reflexivity).
  rewrite E. apply reach_run.
  - apply reach_run; [apply reach_init | exact I].
  - unfold op_contract, settings_contract. simpl. repeat split; auto; lia.
Qed.

(** C6. zoom_in and zoom_out clamp the font size on the side they move
    to only: zoom_out compares with 8, zoom_in with 40.  With an EPUB open
    after the settings dialog was accepted with size 48 (C7), zoom_out
    returns normally and leaves font size 47, outside 8..40; a second
    zoom_out leaves 46. *)
Theorem font_size_setters_escape_range :
  reachable oversized_font /\
  current_book_type oversized_font = Some Epub /\
  pages oversized_font <> [] /\
  current_font_size oversized_font = 48 /\
  outcome (zoom_out oversized_font) = Ok tt /\
  existsb is_message (trace (zoom_out oversized_font)) = false /\
  current_font_size (final (zoom_out oversized_font)) = 47 /\
  ~ font_in_range (final (zoom_out oversized_font)) /\
  current_font_size (final (zoom_out (final (zoom_out oversized_font)))) = 46.
Proof.
  split; [exact oversized_font_reachable|].
  split; [reflexivity|]. split; [by_compute|]. split; [reflexivity|].
  split; [reflexivity|]. split; [reflexivity|]. split; [reflexivity|].
  split; [intros [_ H]; vm_compute in H; apply H; reflexivity | reflexivity].
Qed.

(** C9. The [try] of _load_or_create_settings covers [read] only.  With a
    settings file that holds [font_family = 100%] under General and none of
    the other three keys, [setdefault] reads the stored value, the [%]
    interpolation of the parser raises InterpolationSyntaxError, and
    startup dies there: theme has been defaulted in memory, font_size and
    language have not, and nothing is written back. *)
Theorem settings_with_percent_stop_startup :
  stored_option (Stored percent_settings) "font_family" = Some "100%" /\
  stored_option (Stored percent_settings) "theme" = None /\
  outcome (_load_or_create_settings (starting (Stored percent_settings)))
    = Raise InterpolationSyntaxError /\
  disk (final (_load_or_create_settings (starting (Stored percent_settings))))
    = Stored percent_settings /\
  cfg_lookup (config (final (_load_or_create_settings (starting (Stored percent_settings)))))
    "General" "theme" = Some "light" /\
  cfg_lookup (config (final (_load_or_create_settings (starting (Stored percent_settings)))))
    "General" "font_size" = None /\
  cfg_lookup (config (final (_load_or_create_settings (starting (Stored percent_settings)))))
    "General" "language" = None.
Proof. by_compute. Qed.

(** * Further properties of the code *)

(** ** Rendering *)

Lemma _update_view_pdf_ok (w : window) :
  current_book_type w = Some Pdf -> outcome (_update_view w) = Ok tt.
Proof.
  intros Ht. unfold_render. ui_unfold. unfold_setters. rewrite Ht.
  repeat (simpl; rewrite ?Ht; try ui_case); try reflexivity.
  match goal with
  | Hg : (_ && _) = true, Hl : _ !! _ = None |- _ =>
      apply andb_true_iff in Hg as [H1 H2]; apply Z.leb_le in H1; apply Z.ltb_lt in H2;
      apply lookup_ge_None in Hl; unfold len in H2; lia
  end.
Qed.

(** X1. Rendering is idempotent: a second [_update_view] right after the
    first one ends the same way, leaves the window as the first one left it
    and neither shows a message nor rebuilds the continuous layout. *)
Theorem _update_view_idempotent (w : window) :
  _update_view (final (_update_view w)) =
  (outcome (_update_view w), final (_update_view w), []).
Proof.
  unfold_render. ui_unfold. unfold_setters.
  repeat (simpl; try ui_case); first [reflexivity | congruence].
Qed.

(** X2. With a PDF as the current book [_update_view] never raises.  In
    single-page mode the image label shows the image at the current index,
    scaled by the zoom factor (by 1 when the factor is not positive), and is
    cleared when the index is outside the image list. *)
Theorem _update_view_pdf_never_raises (w : window) :
  current_book_type w = Some Pdf ->
  outcome (_update_view w) = Ok tt /\
  (pages w <> [] -> view_mode w = Single ->
   (forall img, 0 <= current_index w ->
      pdf_images w !! Z.to_nat (current_index w) = Some img ->
      single_image_label (final (_update_view w)) =
        Some {| base_image := img;
                scale := if Qltb 0 (current_zoom w) then current_zoom w else 1%Q |}) /\
   (current_index w < 0 \/ len (pdf_images w) <= current_index w ->
      single_image_label (final (_update_view w)) = None)).
Proof.
  intros Ht. split; [apply _update_view_pdf_ok, Ht|].
  unfold_render. ui_unfold. unfold_setters. rewrite Ht.
  intros Hp Hm. apply is_empty_false in Hp. simpl. rewrite Hp, Hm. simpl. split.
  - intros img Hlo Himg.
    assert (Hhi : current_index w < len (pdf_images w)).
    { apply lookup_lt_Some in Himg. unfold len. lia. }
    replace ((0 <=? current_index w) && (current_index w <? len (pdf_images w)))
      with true by (symmetry; apply andb_true_iff; split;
                    [apply Z.leb_le | apply Z.ltb_lt]; assumption).
    rewrite Himg. repeat (simpl; rewrite ?Ht, ?Hp; try ui_case); reflexivity.
  - intros Hout.
    replace ((0 <=? current_index w) && (current_index w <? len (pdf_images w)))
      with false by (symmetry; apply andb_false_iff;
                     destruct Hout; [left; apply Z.leb_gt | right; apply Z.ltb_ge];
                     assumption).
    repeat (simpl; rewrite ?Ht, ?Hp; try ui_case); reflexivity.
Qed.

Lemma _update_view_pdf_never_raises_witness :
  outcome (_update_view on_last_page) = Ok tt /\
  single_image_label (final (_update_view on_last_page)) =
    Some {| base_image := sample_image; scale := 1%Q |}.
Proof.
  destruct (_update_view_pdf_never_raises on_last_page ltac:(by_compute)) as [Ho Hs].
  split; [exact Ho|].
  destruct (Hs ltac:(by_compute) ltac:(by_compute)) as [Himg _].
  rewrite (Himg sample_image ltac:(by_compute) ltac:(by_compute)). by_compute.
Defined.

(** X3. With an EPUB open on a valid index (and a base font size other than
    0) [_update_view] shows the text view with that chapter's HTML in the
    configured family at the current font size, and the status bar names
    the title, the 1-based page number and the page count. *)
Theorem _update_view_epub_page (w : window) (content : string) :
  current_book_type w = Some Epub ->
  0 <= current_index w ->
  pages w !! Z.to_nat (current_index w) = Some (HtmlPage content) ->
  base_font_size w <> 0 ->
  outcome (_update_view w) = Ok tt /\
  stack_current (final (_update_view w)) = TextView /\
  text_view (final (_update_view w)) = Html content /\
  text_font (final (_update_view w)) = (font_family w, current_font_size w) /\
  status_message (final (_update_view w)) =
    PageInfo (current_book_title w) (current_index w + 1) (len (pages w)).
Proof.
  intros Ht Hlo Hpage Hb.
  assert (Hhi : current_index w < len (pages w)).
  { apply lookup_lt_Some in Hpage. unfold len. lia. }
  assert (He : is_empty (pages w) = false).
  { destruct (pages w); [unfold len in Hhi; simpl in Hhi; lia | reflexivity]. }
  assert (Hidx : py_index (pages w) (current_index w) = Ok (HtmlPage content)).
  { unfold py_index. fold (len (pages w)).
    replace (current_index w <? 0) with false by (symmetry; apply Z.ltb_ge; lia).
    replace (0 <=? current_index w) with true by (symmetry; apply Z.leb_le; lia).
    replace (current_index w <? len (pages w)) with true by (symmetry; apply Z.ltb_lt; lia).
    simpl. rewrite Hpage. reflexivity. }
  apply Z.eqb_neq in Hb.
  unfold_render. ui_unfold. unfold_setters. simpl.
  rewrite He, Ht. simpl. rewrite Hidx. simpl. rewrite He, Ht, Hb. simpl. auto.
Qed.

Lemma _update_view_epub_page_witness :
  outcome (_update_view reading_epub) = Ok tt /\
  stack_current (final (_update_view reading_epub)) = TextView /\
  text_view (final (_update_view reading_epub)) = Html "<p>one</p>" /\
  text_font (final (_update_view reading_epub)) =
    (font_family reading_epub, current_font_size reading_epub) /\
  status_message (final (_update_view reading_epub)) =
    PageInfo (current_book_title reading_epub) (current_index reading_epub + 1)
      (len (pages reading_epub)).
Proof.
  exact (_update_view_epub_page reading_epub "<p>one</p>"
           ltac:(by_compute) ltac:(by_compute) ltac:(by_compute) ltac:(by_compute)).
Defined.

(** X4. With an EPUB whose index lies past the last page [_update_view] dies
    with IndexError: the stack has been switched to the text view, but the
    text, the status bar and the trace are untouched. *)
Theorem _update_view_epub_past_end (w : window) :
  current_book_type w = Some Epub ->
  pages w <> [] ->
  len (pages w) <= current_index w ->
  outcome (_update_view w) = Raise IndexError /\
  trace (_update_view w) = [] /\
  stack_current (final (_update_view w)) = TextView /\
  text_view (final (_update_view w)) = text_view w /\
  status_message (final (_update_view w)) = status_message w.
Proof.
  intros Ht Hp Hhi. apply is_empty_false in Hp.
  assert (Hidx : py_index (pages w) (current_index w) = Raise IndexError).
  { unfold py_index. fold (len (pages w)).
    replace (current_index w <? 0) with false
      by (symmetry; apply Z.ltb_ge; unfold len in *; lia).
    replace (current_index w <? len (pages w)) with false by (symmetry; apply Z.ltb_ge; lia).
    rewrite andb_false_r. reflexivity. }
  unfold_render. ui_unfold. unfold_setters. simpl.
  rewrite Hp, Ht. simpl. rewrite Hidx. simpl. repeat split; reflexivity.
Qed.

Lemma _update_view_epub_past_end_witness :
  outcome (_update_view past_the_end) = Raise IndexError /\
  trace (_update_view past_the_end) = [] /\
  stack_current (final (_update_view past_the_end)) = TextView /\
  text_view (final (_update_view past_the_end)) = text_view past_the_end /\
  status_message (final (_update_view past_the_end)) = status_message past_the_end.
Proof.
  exact (_update_view_epub_past_end past_the_end
           ltac:(by_compute) ltac:(by_compute) ltac:(by_compute)).
Defined.

(** ** The document behind the page list *)

Lemma _update_view_document (w : window) :
  document (final (_update_view w)) = document w.
Proof. pose proof (_update_view_core w) as H. unfold core, document in *. congruence. Qed.

Lemma run_keeps_document (o : op) (w : window) :
  (forall env, o <> OpenFile env) ->
  document (final (run o w)) = document w.
Proof.
  intros Hno. destruct o as [env| | |a| | |a|mode|a]; simpl.
  - exfalso. apply (Hno env). reflexivity.
  - unfold go_prev. op_run; rewrite ?_update_view_document; reflexivity.
  - unfold go_next. op_run; rewrite ?_update_view_document; reflexivity.
  - unfold go_to_page_dialog. op_run; rewrite ?_update_view_document; reflexivity.
  - unfold zoom_in. op_run; rewrite ?_update_view_document; reflexivity.
  - unfold zoom_out. op_run; rewrite ?_update_view_document; reflexivity.
  - unfold zoom_label_clicked. op_run; rewrite ?_update_view_document; reflexivity.
  - unfold set_view_mode. op_run; rewrite ?_update_view_document; reflexivity.
  - unfold open_settings_dialog, save_settings, set_general.
    op_run; rewrite ?_update_view_document; reflexivity.
Qed.

Lemma pages_match_type_document (w w' : window) :
  document w' = document w -> pages_match_type w -> pages_match_type w'.
Proof.
  unfold document, pages_match_type. intros H. injection H as -> -> ->. auto.
Qed.

Lemma map_HtmlPage_html (l : list string) : Forall is_html (map HtmlPage l).
Proof. induction l; simpl; constructor; simpl; auto. Qed.

Lemma epub_pages_html (book : epub_book) : Forall is_html (epub_pages book).
Proof.
  unfold epub_pages. destruct (loaded_prefix (document_items book)) eqn:E.
  - repeat constructor.
  - apply map_HtmlPage_html.
Qed.

Lemma open_file_pages_match_type (env : open_env) (w : window) :
  pages_match_type w -> pages_match_type (final (open_file env w)).
Proof.
  intros Hinv.
  destruct (String.eqb (chosen_path env) EmptyString) eqn:Ep.
  { unfold open_file. rewrite Ep. exact Hinv. }
  apply String.eqb_neq in Ep. rewrite (open_file_run env w Ep).
  unfold run_loader.
  destruct (String.eqb (chosen_ext env) ".pdf").
  - rewrite load_pdf_run.
    destruct (fitz_open (pdf env)) as [doc|e];
      [|unfold pages_match_type, final, pdf_reset; simpl; reflexivity].
    destruct (needs_pass doc && (_ || _)); [|destruct (needs_pass doc && negb _)];
      [| |destruct (first_raise (page_pixmaps doc));
            [unfold pages_match_type, final, pdf_reset; simpl; reflexivity|]];
      rewrite final_let;
      (eapply pages_match_type_document; [apply _update_view_document|]);
      unfold pages_match_type, opened_window, pdf_reset; simpl; reflexivity.
  - destruct (String.eqb (chosen_ext env) ".epub"); [|exact Hinv].
    rewrite load_epub_run.
    destruct (mkdtemp (epub env)) as [dir|e];
      [|unfold pages_match_type, final, epub_reset; simpl; constructor].
    destruct (read_epub (epub env)) as [book|e];
      [|unfold pages_match_type, final, epub_reset; simpl; constructor].
    destruct (extract_items book) as [[]|e];
      [|unfold pages_match_type, final, epub_reset; simpl; constructor].
    destruct (first_raise (document_items book)).
    + unfold pages_match_type, final, epub_reset; simpl. apply map_HtmlPage_html.
    + rewrite final_let.
      eapply pages_match_type_document; [apply _update_view_document|].
      unfold pages_match_type, opened_window, epub_reset; simpl.
      apply epub_pages_html.
Qed.

Lemma pdf_page_numbers_length (start : Z) (n : nat) :
  length (pdf_page_numbers start n) = n.
Proof. revert start. induction n as [|n IH]; intros start; simpl; [|rewrite IH]; reflexivity. Qed.

Lemma py_index_lookup {A : Type} (l : list A) (i : Z) (x : A) :
  py_index l i = Ok x -> exists n, l !! n = Some x.
Proof.
  unfold py_index. destruct (_ && _); [|discriminate].
  destruct (l !! _) as [y|] eqn:Hl; [|discriminate].
  intros H. injection H as <-. eauto.
Qed.

Lemma _update_view_no_type_error (w : window) :
  (current_book_type w = Some Epub -> Forall is_html (pages w)) ->
  outcome (_update_view w) <> Raise TypeError.
Proof.
  intros Hhtml. unfold_render. ui_unfold. unfold_setters. simpl.
  destruct (is_empty (pages w)) eqn:He; simpl; [rewrite He; discriminate|].
  destruct (current_book_type w) as [[]|] eqn:Ht; simpl.
  - repeat (simpl; rewrite ?He, ?Ht; try ui_case); discriminate.
  - destruct (py_index (pages w) (current_index w)) as [[n|html]|e] eqn:Hidx; simpl.
    + apply py_index_lookup in Hidx as [k Hk].
      apply (Forall_lookup_1 _ _ _ _ (Hhtml eq_refl)) in Hk. contradiction.
    + rewrite He, Ht. destruct (base_font_size w =? 0); discriminate.
    + unfold py_index in Hidx. destruct (_ && _); [|injection Hidx as <-; discriminate].
      destruct (pages w !! _); [discriminate|]. injection Hidx as <-. discriminate.
  - rewrite He, Ht. destruct (base_font_size w =? 0); discriminate.
Qed.

(** X5. In every window the controller can reach, the page list is of the
    kind the book type announces: page numbers 0..n-1, one per rasterised
    image, for a PDF, HTML pages only for an EPUB, nothing without a book.
    So [_update_view] never hands a page number to [setHtml]. *)
Theorem reachable_pages_match_type (w : window) :
  reachable w ->
  pages_match_type w /\
  (current_book_type w = Some Pdf -> len (pages w) = len (pdf_images w)) /\
  outcome (_update_view w) <> Raise TypeError.
Proof.
  intros Hr.
  assert (Hinv : pages_match_type w).
  { induction Hr as [cfg file lang thm family size|w o _ IH _].
    - reflexivity.
    - destruct o as [env| | |a| | |a|mode|a];
        try (eapply pages_match_type_document;
             [apply run_keeps_document; intros env; discriminate | exact IH]).
      apply open_file_pages_match_type, IH. }
  split; [exact Hinv|]. split.
  - intros Ht. unfold pages_match_type in Hinv. rewrite Ht in Hinv. rewrite Hinv.
    unfold len. rewrite pdf_page_numbers_length. reflexivity.
  - apply _update_view_no_type_error. intros Ht.
    unfold pages_match_type in Hinv. rewrite Ht in Hinv. exact Hinv.
Qed.

Lemma reading_continuous_reachable : reachable reading_continuous.
Proof.
  assert (E : reading_continuous =
              final (run (SetViewMode "continuous")
                       (final (run (OpenFile three_pages)
                                 (init_attributes default_config (Stored default_config)
                                    "en" "light" "Segoe UI" 12)))))
    by (vm_compute; reflexivity).
  rewrite E. apply reach_run; [apply reach_run; [apply reach_init | exact I] | exact I].
Qed.

Lemma reachable_pages_match_type_witness :
  pages_match_type reading_continuous /\
  (current_book_type reading_continuous = Some Pdf ->
   len (pages reading_continuous) = len (pdf_images reading_continuous)) /\
  outcome (_update_view reading_continuous) <> Raise TypeError.
Proof.
  exact (reachable_pages_match_type reading_continuous reading_continuous_reachable).
Defined.

(** ** The continuous layout *)

Lemma _update_view_layout (w : window) :
  layout_fresh w ->
  layout_fresh (final (_update_view w)) /\ layout_built (final (_update_view w)).
Proof.
  unfold layout_fresh, layout_built, continuous_layout.
  intros Hf. unfold_render. ui_unfold. unfold_setters.
  repeat (simpl; try ui_case); simpl in *;
    (split; [intros Ht Hm Hd | intros Ht Hm Hp]);
    try congruence; try reflexivity; try (apply Hf; congruence);
    apply is_empty_false in Hp; congruence.
Qed.

Lemma run_layout_coherent (o : op) (w : window) :
  (forall env, o <> OpenFile env) ->
  layout_coherent w -> layout_coherent (final (run o w)).
Proof.
  intros Hno Hinv. destruct o as [env| | |a| | |a|mode|a]; simpl.
  - exfalso. apply (Hno env). reflexivity.
  - unfold go_prev. op_run; try exact Hinv.
    apply _update_view_layout. destruct Hinv as [Hf _]. exact Hf.
  - unfold go_next. op_run; try exact Hinv.
    apply _update_view_layout. destruct Hinv as [Hf _]. exact Hf.
  - unfold go_to_page_dialog. op_run; try exact Hinv.
    apply _update_view_layout. destruct Hinv as [Hf _]. exact Hf.
  - unfold zoom_in. op_run; try exact Hinv; apply _update_view_layout;
      destruct Hinv as [Hf _]; unfold layout_fresh, continuous_layout in *; simpl;
      intros; first [congruence | discriminate | apply Hf; assumption].
  - unfold zoom_out. op_run; try exact Hinv; apply _update_view_layout;
      destruct Hinv as [Hf _]; unfold layout_fresh, continuous_layout in *; simpl;
      intros; first [congruence | discriminate | apply Hf; assumption].
  - unfold zoom_label_clicked. op_run; try exact Hinv; apply _update_view_layout;
      destruct Hinv as [Hf _]; unfold layout_fresh, continuous_layout in *; simpl;
      intros; first [congruence | discriminate | apply Hf; assumption].
  - unfold set_view_mode. op_run; try exact Hinv; apply _update_view_layout;
      destruct Hinv as [Hf _]; unfold layout_fresh, continuous_layout in *; simpl;
      intros; first [congruence | discriminate | apply Hf; assumption].
  - unfold open_settings_dialog, save_settings, set_general. op_run; try exact Hinv;
      try (apply _update_view_layout;
           destruct Hinv as [Hf _]; unfold layout_fresh, continuous_layout in *; simpl;
           intros; first [congruence | discriminate | apply Hf; assumption]).
    all: destruct Hinv as [Hf Hb]; split;
      unfold layout_fresh, layout_built, continuous_layout in *; simpl; assumption.
Qed.

Lemma open_file_layout_coherent (env : open_env) (w : window) :
  layout_coherent w -> layout_coherent (final (open_file env w)).
Proof.
  intros Hinv.
  destruct (String.eqb (chosen_path env) EmptyString) eqn:Ep.
  { unfold open_file. rewrite Ep. exact Hinv. }
  apply String.eqb_neq in Ep. rewrite (open_file_run env w Ep).
  unfold run_loader.
  destruct (String.eqb (chosen_ext env) ".pdf").
  - rewrite load_pdf_run.
    destruct (fitz_open (pdf env)) as [doc|e];
      [|unfold final, pdf_reset; simpl; split; intros ? Hm; discriminate Hm].
    destruct (needs_pass doc && (_ || _)); [|destruct (needs_pass doc && negb _)];
      [| |destruct (first_raise (page_pixmaps doc));
            [unfold final, pdf_reset; simpl; split; intros ? Hm; discriminate Hm|]];
      rewrite final_let; apply _update_view_layout;
      unfold opened_window, pdf_reset; intros ? Hm; discriminate Hm.
  - destruct (String.eqb (chosen_ext env) ".epub"); [|exact Hinv].
    rewrite load_epub_run.
    destruct (mkdtemp (epub env)) as [dir|e];
      [|unfold final, epub_reset; simpl; split; intros Ht; discriminate Ht].
    destruct (read_epub (epub env)) as [book|e];
      [|unfold final, epub_reset; simpl; split; intros Ht; discriminate Ht].
    destruct (extract_items book) as [[]|e];
      [|unfold final, epub_reset; simpl; split; intros Ht; discriminate Ht].
    destruct (first_raise (document_items book));
      [unfold final, epub_reset; simpl; split; intros Ht; discriminate Ht|].
    rewrite final_let. apply _update_view_layout.
    unfold opened_window, epub_reset. intros Ht. discriminate Ht.
Qed.

(** X6. In every window the controller can reach, a PDF with pages shown in
    continuous mode has its layout built, and the layout is the one for the
    current zoom factor: one label per page image at that scale, then the
    stretch. *)
Theorem reachable_continuous_layout (w : window) :
  reachable w ->
  current_book_type w = Some Pdf -> view_mode w = Continuous -> pages w <> [] ->
  _continuous_needs_build w = false /\
  multi_layout w =
    map (fun img => Label {| base_image := img; scale := current_zoom w |}) (pdf_images w)
    ++ [Stretch].
Proof.
  intros Hr.
  assert (Hinv : layout_coherent w /\ zoom_in_range w).
  { induction Hr as [cfg file lang thm family size|w o _ [IHl IHz] _].
    - split.
      + split; intros ? Hm; discriminate Hm.
      + unfold zoom_in_range. simpl. split; lra.
    - split; [|apply zoom_in_range_preserved, IHz].
      destruct o as [env| | |a| | |a|mode|a];
        try (apply run_layout_coherent; [intros env; discriminate | exact IHl]).
      apply open_file_layout_coherent, IHl. }
  destruct Hinv as [[Hf Hb] [Hlo _]]. intros Ht Hm Hp.
  specialize (Hb Ht Hm Hp). split; [exact Hb|].
  rewrite (Hf Ht Hm Hb). unfold continuous_layout.
  replace (Qle_bool (current_zoom w) 0) with false; [reflexivity|].
  symmetry. apply not_true_iff_false. rewrite Qle_bool_iff. lra.
Qed.

Lemma reachable_continuous_layout_witness :
  _continuous_needs_build reading_continuous = false /\
  multi_layout reading_continuous =
    map (fun img => Label {| base_image := img; scale := current_zoom reading_continuous |})
      (pdf_images reading_continuous) ++ [Stretch].
Proof.
  exact (reachable_continuous_layout reading_continuous reading_continuous_reachable
           ltac:(by_compute) ltac:(by_compute) ltac:(by_compute)).
Defined.

(** ** Turning pages *)

Lemma run_all_cons (o : op) (os : list op) (w : window) :
  run_all (o :: os) w =
  match run o w with
  | (Ok _, w1, t1) => let '(r, w2, t2) := run_all os w1 in (r, w2, t1 ++ t2)
  | (Raise e, w1, t1) => (Raise e, w1, t1)
  end.
Proof. reflexivity. Qed.

Lemma go_next_run (w : window) :
  go_next w =
  if is_empty (pages w) then (Ok tt, w, [])
  else if current_index w <? len (pages w) - 1
       then _update_view (w <| current_index := current_index w + 1 |>)
       else (Ok tt, w, []).
Proof.
  unfold go_next. bind_unfold. simpl.
  destruct (is_empty (pages w)); [reflexivity|].
  destruct (current_index w <? len (pages w) - 1); [|reflexivity].
  simpl. rewrite !run_eta. reflexivity.
Qed.

Lemma go_prev_run (w : window) :
  go_prev w =
  if is_empty (pages w) then (Ok tt, w, [])
  else if 0 <? current_index w
       then _update_view (w <| current_index := current_index w - 1 |>)
       else (Ok tt, w, []).
Proof.
  unfold go_prev. bind_unfold. simpl.
  destruct (is_empty (pages w)); [reflexivity|].
  destruct (0 <? current_index w); [|reflexivity].
  simpl. rewrite !run_eta. reflexivity.
Qed.

Lemma index_valid_not_empty (w : window) : index_valid w -> is_empty (pages w) = false.
Proof.
  intros [Hlo Hhi]. destruct (pages w); [unfold len in Hhi; simpl in Hhi; lia | reflexivity].
Qed.

Lemma go_next_pdf (w : window) :
  current_book_type w = Some Pdf -> index_valid w ->
  outcome (go_next w) = Ok tt /\
  current_book_type (final (go_next w)) = Some Pdf /\
  pages (final (go_next w)) = pages w /\
  current_index (final (go_next w)) = Z.min (current_index w + 1) (len (pages w) - 1).
Proof.
  intros Ht Hv. rewrite go_next_run, (index_valid_not_empty w Hv).
  destruct Hv as [Hlo Hhi].
  destruct (current_index w <? len (pages w) - 1) eqn:L.
  - apply Z.ltb_lt in L.
    rewrite _update_view_pdf_ok, _update_view_book_type, _update_view_pages,
      _update_view_index by exact Ht.
    unfold_setters. simpl. repeat split; auto.
    rewrite Z.min_l by lia. reflexivity.
  - apply Z.ltb_ge in L. unfold outcome, final. simpl. repeat split; auto.
    rewrite Z.min_r by lia. lia.
Qed.

(** X10. Turning forward [k] times in a PDF with a valid index never raises,
    keeps the page list and ends on page [min (index + k) (last page)]. *)
Theorem go_next_repeated (k : nat) (w : window) :
  current_book_type w = Some Pdf -> index_valid w ->
  outcome (run_all (replicate k GoNext) w) = Ok tt /\
  pages (final (run_all (replicate k GoNext) w)) = pages w /\
  current_index (final (run_all (replicate k GoNext) w)) =
    Z.min (current_index w + Z.of_nat k) (len (pages w) - 1).
Proof.
  revert w. induction k as [|k IH]; intros w Ht Hv.
  - unfold outcome, final. simpl. unfold index_valid in Hv. repeat split; auto.
    rewrite Z.min_l by lia. lia.
  - change (replicate (S k) GoNext) with (GoNext :: replicate k GoNext).
    rewrite run_all_cons. change (run GoNext w) with (go_next w).
    destruct (go_next_pdf w Ht Hv) as (Ho & Ht1 & Hp1 & Hi1).
    destruct (go_next w) as [[r w1] t1]. unfold outcome, final in Ho, Ht1, Hp1, Hi1.
    simpl in Ho, Ht1, Hp1, Hi1. subst r.
    assert (Hv1 : index_valid w1).
    { unfold index_valid in *. rewrite Hp1, Hi1. lia. }
    destruct (IH w1 Ht1 Hv1) as (Ho2 & Hp2 & Hi2).
    destruct (run_all (replicate k GoNext) w1) as [[r2 w2] t2].
    unfold outcome, final in *. simpl in *.
    rewrite Hp2, Hi2, Hp1, Hi1. repeat split; auto.
    unfold index_valid in Hv.
    destruct (Z.min_spec (current_index w + 1) (len (pages w) - 1)) as [[? ->]|[? ->]];
      destruct (Z.min_spec (current_index w + Z.of_nat (S k)) (len (pages w) - 1))
        as [[? ->]|[? ->]];
      [rewrite Z.min_l by lia | rewrite Z.min_r by lia
      | rewrite Z.min_l by lia | rewrite Z.min_r by lia]; lia.
Qed.

Lemma go_next_repeated_witness :
  outcome (run_all (replicate 5 GoNext) reading_pdf) = Ok tt /\
  pages (final (run_all (replicate 5 GoNext) reading_pdf)) = pages reading_pdf /\
  current_index (final (run_all (replicate 5 GoNext) reading_pdf)) =
    Z.min (current_index reading_pdf + Z.of_nat 5) (len (pages reading_pdf) - 1).
Proof.
  exact (go_next_repeated 5 reading_pdf ltac:(by_compute)
           ltac:(unfold index_valid; by_compute)).
Defined.

(** X11. [go_next] on or after the last page and [go_prev] on or before the
    first page do nothing at all: no state change, no render, no message. *)
Theorem navigation_stops_at_the_ends (w : window) :
  (len (pages w) - 1 <= current_index w -> go_next w = (Ok tt, w, [])) /\
  (current_index w <= 0 -> go_prev w = (Ok tt, w, [])).
Proof.
  split; intros H.
  - rewrite go_next_run. destruct (is_empty (pages w)); [reflexivity|].
    replace (current_index w <? len (pages w) - 1) with false
      by (symmetry; apply Z.ltb_ge; lia). reflexivity.
  - rewrite go_prev_run. destruct (is_empty (pages w)); [reflexivity|].
    replace (0 <? current_index w) with false by (symmetry; apply Z.ltb_ge; lia).
    reflexivity.
Qed.

Lemma navigation_stops_at_the_ends_witness :
  go_next on_last_page = (Ok tt, on_last_page, []) /\
  go_prev reading_pdf = (Ok tt, reading_pdf, []).
Proof.
  split.
  - exact (proj1 (navigation_stops_at_the_ends on_last_page) ltac:(by_compute)).
  - exact (proj2 (navigation_stops_at_the_ends reading_pdf) ltac:(by_compute)).
Defined.

(** X12. Away from the ends of the document [go_prev] undoes [go_next] and
    [go_next] undoes [go_prev], as far as the page index goes. *)
Theorem go_prev_undoes_go_next (w : window) :
  index_valid w ->
  (current_index w < len (pages w) - 1 ->
     current_index (final (go_prev (final (go_next w)))) = current_index w) /\
  (0 < current_index w ->
     current_index (final (go_next (final (go_prev w)))) = current_index w).
Proof.
  intros Hv. pose proof (index_valid_not_empty w Hv) as He. destruct Hv as [Hlo Hhi].
  split; intros H.
  - rewrite (go_next_run w), He.
    replace (current_index w <? len (pages w) - 1) with true
      by (symmetry; apply Z.ltb_lt; lia).
    rewrite go_prev_run, _update_view_pages, _update_view_index.
    unfold_setters. simpl. rewrite He.
    replace (0 <? current_index w + 1) with true by (symmetry; apply Z.ltb_lt; lia).
    rewrite _update_view_index. simpl. lia.
  - rewrite (go_prev_run w), He.
    replace (0 <? current_index w) with true by (symmetry; apply Z.ltb_lt; lia).
    rewrite go_next_run, _update_view_pages, _update_view_index.
    unfold_setters. simpl. rewrite He.
    replace (current_index w - 1 <? len (pages w) - 1) with true
      by (symmetry; apply Z.ltb_lt; lia).
    rewrite _update_view_index. simpl. lia.
Qed.

Lemma go_prev_undoes_go_next_witness :
  current_index (final (go_prev (final (go_next reading_pdf)))) = current_index reading_pdf /\
  current_index (final (go_next (final (go_prev on_last_page)))) = current_index on_last_page.
Proof.
  split.
  - exact (proj1 (go_prev_undoes_go_next reading_pdf ltac:(unfold index_valid; by_compute))
             ltac:(by_compute)).
  - exact (proj2 (go_prev_undoes_go_next on_last_page ltac:(unfold index_valid; by_compute))
             ltac:(by_compute)).
Defined.

(** ** Wheel events *)

Lemma wheelEvent_single_scroll (delta : Z) (bar : scroll_bar) (w : window) :
  wheelEvent single_scroll delta bar w =
  if (0 <? delta) && (bar_value bar =? bar_minimum bar)
  then let '(r, w1, t) := go_prev w in
       (match r with Ok _ => Ok false | Raise e => Raise e end, w1, t)
  else if (delta <? 0) && (bar_value bar =? bar_maximum bar)
  then let '(r, w1, t) := go_next w in
       (match r with Ok _ => Ok false | Raise e => Raise e end, w1, t)
  else (Ok true, w, []).
Proof.
  unfold wheelEvent, single_scroll. simpl.
  destruct ((0 <? delta) && (bar_value bar =? bar_minimum bar)).
  - bind_unfold. destruct (go_prev w) as [[[[]|e] w1] t]; simpl; rewrite ?app_nil_r; reflexivity.
  - destruct ((delta <? 0) && (bar_value bar =? bar_maximum bar)); [|reflexivity].
    bind_unfold. destruct (go_next w) as [[[[]|e] w1] t]; simpl; rewrite ?app_nil_r; reflexivity.
Qed.

Lemma final_let_result {A B : Type} (x : result A * window * list effect)
    (f : result A -> result B) :
  final (let '(r, w1, t) := x in (f r, w1, t)) = final x.
Proof. destruct x as [[r w1] t]. reflexivity. Qed.

Lemma wheelEvent_moves_only_at_the_edge (delta : Z) (bar : scroll_bar) (w : window) :
  index_valid w ->
  pages (final (wheelEvent single_scroll delta bar w)) = pages w /\
  index_valid (final (wheelEvent single_scroll delta bar w)) /\
  (current_index (final (wheelEvent single_scroll delta bar w)) <> current_index w ->
     (0 < delta /\ bar_value bar = bar_minimum bar /\
      current_index (final (wheelEvent single_scroll delta bar w)) = current_index w - 1) \/
     (delta < 0 /\ bar_value bar = bar_maximum bar /\
      current_index (final (wheelEvent single_scroll delta bar w)) = current_index w + 1)) /\
  (~ (0 < delta /\ bar_value bar = bar_minimum bar) ->
   ~ (delta < 0 /\ bar_value bar = bar_maximum bar) ->
   wheelEvent single_scroll delta bar w = (Ok true, w, [])).
Proof.
  intros Hv. pose proof (index_valid_not_empty w Hv) as He.
  rewrite wheelEvent_single_scroll. unfold index_valid in *.
  destruct ((0 <? delta) && (bar_value bar =? bar_minimum bar)) eqn:Hup;
    [apply andb_true_iff in Hup as [Hd Hb]; apply Z.ltb_lt in Hd; apply Z.eqb_eq in Hb;
     rewrite final_let_result, go_prev_run, He;
     destruct (0 <? current_index w) eqn:L;
     [apply Z.ltb_lt in L; rewrite _update_view_pages, _update_view_index;
      unfold_setters | apply Z.ltb_ge in L; unfold final]
    |destruct ((delta <? 0) && (bar_value bar =? bar_maximum bar)) eqn:Hdown;
     [apply andb_true_iff in Hdown as [Hd Hb]; apply Z.ltb_lt in Hd; apply Z.eqb_eq in Hb;
      rewrite final_let_result, go_next_run, He;
      destruct (current_index w <? len (pages w) - 1) eqn:L;
      [apply Z.ltb_lt in L; rewrite _update_view_pages, _update_view_index;
       unfold_setters | apply Z.ltb_ge in L; unfold final]
     |unfold final]];
    simpl; repeat split; try lia; intros;
    first [ contradiction
          | reflexivity
          | left; repeat split; first [assumption | lia]
          | right; repeat split; first [assumption | lia]
          | tauto ].
Qed.

(** X20. A wheel event on the single-page view keeps the page list and a
    valid index.  Scrolling up with the bar at its minimum turns back one
    page (staying on the first), scrolling down with the bar at its maximum
    turns forward one page (staying on the last), and in both cases the event
    is not handed on; the index moves in no other way, and anywhere else the
    event is handed to the scroll area and the window is untouched. *)
Theorem wheel_turns_one_page_at_the_edge (delta : Z) (bar : scroll_bar) (w : window) :
  index_valid w ->
  pages (final (wheelEvent single_scroll delta bar w)) = pages w /\
  index_valid (final (wheelEvent single_scroll delta bar w)) /\
  (0 < delta -> bar_value bar = bar_minimum bar ->
     current_index (final (wheelEvent single_scroll delta bar w))
       = Z.max (current_index w - 1) 0 /\
     outcome (wheelEvent single_scroll delta bar w) <> Ok true) /\
  (delta < 0 -> bar_value bar = bar_maximum bar ->
     current_index (final (wheelEvent single_scroll delta bar w))
       = Z.min (current_index w + 1) (len (pages w) - 1) /\
     outcome (wheelEvent single_scroll delta bar w) <> Ok true) /\
  (current_index (final (wheelEvent single_scroll delta bar w)) <> current_index w ->
     (0 < delta /\ bar_value bar = bar_minimum bar /\
      current_index (final (wheelEvent single_scroll delta bar w)) = current_index w - 1) \/
     (delta < 0 /\ bar_value bar = bar_maximum bar /\
      current_index (final (wheelEvent single_scroll delta bar w)) = current_index w + 1)) /\
  (~ (0 < delta /\ bar_value bar = bar_minimum bar) ->
   ~ (delta < 0 /\ bar_value bar = bar_maximum bar) ->
   wheelEvent single_scroll delta bar w = (Ok true, w, [])).
Proof.
  intros Hv.
  destruct (wheelEvent_moves_only_at_the_edge delta bar w Hv) as (Hp & Hv' & Hmove & Hrest).
  split; [exact Hp|]. split; [exact Hv'|].
  split; [|split; [|split; [exact Hmove | exact Hrest]]].
  - intros Hd Hb. pose proof (index_valid_not_empty w Hv) as He.
    rewrite wheelEvent_single_scroll.
    replace ((0 <? delta) && (bar_value bar =? bar_minimum bar)) with true
      by (symmetry; apply andb_true_iff; split; [apply Z.ltb_lt | apply Z.eqb_eq]; assumption).
    split.
    + rewrite final_let_result, go_prev_run, He. destruct Hv as [Hlo Hhi].
      destruct (0 <? current_index w) eqn:L.
      * apply Z.ltb_lt in L. rewrite _update_view_index. simpl.
        rewrite Z.max_l by lia. reflexivity.
      * apply Z.ltb_ge in L. unfold final. simpl. rewrite Z.max_r by lia. lia.
    + destruct (go_prev w) as [[[[]|e] w1] t]; unfold outcome; simpl; discriminate.
  - intros Hd Hb. pose proof (index_valid_not_empty w Hv) as He.
    rewrite wheelEvent_single_scroll.
    replace ((0 <? delta) && (bar_value bar =? bar_minimum bar)) with false
      by (symmetry; apply andb_false_iff; left; apply Z.ltb_ge; lia).
    replace ((delta <? 0) && (bar_value bar =? bar_maximum bar)) with true
      by (symmetry; apply andb_true_iff; split; [apply Z.ltb_lt | apply Z.eqb_eq]; assumption).
    split.
    + rewrite final_let_result, go_next_run, He. destruct Hv as [Hlo Hhi].
      destruct (current_index w <? len (pages w) - 1) eqn:L.
      * apply Z.ltb_lt in L. rewrite _update_view_index. simpl.
        rewrite Z.min_l by lia. reflexivity.
      * apply Z.ltb_ge in L. unfold final. simpl. rewrite Z.min_r by lia. lia.
    + destruct (go_next w) as [[[[]|e] w1] t]; unfold outcome; simpl; discriminate.
Qed.

Lemma wheel_turns_one_page_at_the_edge_witness :
  pages (final (wheelEvent single_scroll (-120) bar_at_bottom reading_pdf)) = pages reading_pdf /\
  current_index (final (wheelEvent single_scroll (-120) bar_at_bottom reading_pdf))
    = Z.min (current_index reading_pdf + 1) (len (pages reading_pdf) - 1) /\
  wheelEvent single_scroll (-120) bar_in_the_middle reading_pdf = (Ok true, reading_pdf, []).
Proof.
  destruct (wheel_turns_one_page_at_the_edge (-120) bar_at_bottom reading_pdf
              ltac:(unfold index_valid; by_compute)) as (Hp & _ & _ & Hdown & _).
  destruct (wheel_turns_one_page_at_the_edge (-120) bar_in_the_middle reading_pdf
              ltac:(unfold index_valid; by_compute)) as (_ & _ & _ & _ & _ & Hm).
  split; [exact Hp|]. split.
  - destruct (Hdown ltac:(lia) eq_refl) as [Hi _]. exact Hi.
  - apply Hm; intros [H1 H2]; [vm_compute in H1 | vm_compute in H2]; discriminate.
Defined.

(** ** Dismissed dialogs and zoom steps *)

(** X13. A dismissed dialog changes nothing: the file dialog of [open_file],
    the page dialog, the zoom dialog (where the label can be computed) and
    the settings dialog (for a language with a bundle) return with the
    window as it was, without render or message. *)
Theorem cancelled_dialogs_change_nothing (w : window) (value : Z) (env : open_env) :
  (chosen_path env = EmptyString -> open_file env w = (Ok tt, w, [])) /\
  go_to_page_dialog (value, false) w = (Ok tt, w, []) /\
  (current_book_type w = Some Pdf \/ base_font_size w <> 0 ->
     zoom_label_clicked (value, false) w = (Ok tt, w, [])) /\
  (language w = "en" \/ language w = "th" ->
     open_settings_dialog None w = (Ok tt, w, [])).
Proof.
  split; [|split; [|split]].
  - intros H. unfold open_file. rewrite H. reflexivity.
  - unfold go_to_page_dialog. bind_unfold. simpl.
    destruct (is_empty (pages w)); reflexivity.
  - intros H. unfold zoom_label_clicked. bind_unfold. simpl.
    destruct (is_empty (pages w)); [reflexivity|].
    destruct (current_book_type w) as [[]|]; simpl; try reflexivity;
      destruct H as [H|H]; try discriminate;
      apply Z.eqb_neq in H; rewrite H; reflexivity.
  - intros H. unfold open_settings_dialog. bind_unfold. simpl.
    destruct H as [-> | ->]; reflexivity.
Qed.

Lemma cancelled_dialogs_change_nothing_witness :
  open_file no_file_chosen reading_pdf = (Ok tt, reading_pdf, []) /\
  go_to_page_dialog (3, false) reading_pdf = (Ok tt, reading_pdf, []) /\
  zoom_label_clicked (3, false) reading_pdf = (Ok tt, reading_pdf, []) /\
  open_settings_dialog None reading_pdf = (Ok tt, reading_pdf, []).
Proof.
  destruct (cancelled_dialogs_change_nothing reading_pdf 3 no_file_chosen)
    as (Ho & Hg & Hz & Hs).
  split; [exact (Ho eq_refl)|]. split; [exact Hg|].
  split; [apply Hz; left; by_compute | apply Hs; left; by_compute].
Defined.

(** X14. When the configured language is neither "en" nor "th",
    [open_settings_dialog] dies with KeyError before any dialog is shown:
    [SettingsDialog.__init__] indexes [LANG_STRINGS] without the fallback
    [tr] has. *)
Theorem settings_dialog_needs_known_language (w : window) (answer : option settings_values) :
  language w <> "en" -> language w <> "th" ->
  open_settings_dialog answer w = (Raise KeyError, w, []).
Proof.
  intros H1 H2. apply String.eqb_neq in H1, H2.
  unfold open_settings_dialog. bind_unfold. simpl. rewrite H1, H2. reflexivity.
Qed.

Lemma settings_dialog_needs_known_language_witness :
  open_settings_dialog (Some dark_thai) french_window = (Raise KeyError, french_window, []).
Proof.
  apply (settings_dialog_needs_known_language french_window (Some dark_thai));
    intros H; vm_compute in H; discriminate H.
Defined.

Lemma _update_view_no_rebuild (w : window) :
  view_mode w = Single \/ current_book_type w <> Some Pdf ->
  existsb (fun e => negb (is_message e)) (trace (_update_view w)) = false /\
  multi_layout (final (_update_view w)) = multi_layout w /\
  _continuous_needs_build (final (_update_view w)) = _continuous_needs_build w.
Proof.
  intros H. unfold_render. ui_unfold. unfold_setters.
  repeat (simpl; try ui_case); try (repeat split; reflexivity);
    destruct H; congruence.
Qed.

Lemma _update_view_silent (w : window) :
  view_mode w = Single \/ current_book_type w <> Some Pdf ->
  trace (_update_view w) = [].
Proof.
  intros H. unfold_render. ui_unfold. unfold_setters.
  repeat (simpl; try ui_case); try reflexivity; destruct H; congruence.
Qed.

(** X15. A zoom change touches one scale only: with a PDF the font size is
    kept; without a PDF the zoom factor, the layout mode, the dirty flag and
    the continuous layout are kept, and nothing is rebuilt or shown. *)
Theorem zoom_changes_one_scale (z : zoom_change) (w : window) :
  (current_book_type w = Some Pdf ->
     current_font_size (final (change_zoom z w)) = current_font_size w) /\
  (current_book_type w <> Some Pdf ->
     current_zoom (final (change_zoom z w)) = current_zoom w /\
     view_mode (final (change_zoom z w)) = view_mode w /\
     _continuous_needs_build (final (change_zoom z w)) = _continuous_needs_build w /\
     multi_layout (final (change_zoom z w)) = multi_layout w /\
     trace (change_zoom z w) = []).
Proof.
  split.
  - intros Ht. destruct z as [| |value]; simpl;
      [unfold zoom_in | unfold zoom_out | unfold zoom_label_clicked];
      bind_unfold; repeat (simpl; rewrite ?run_eta, ?Ht; try op_case);
      rewrite ?_update_view_font; reflexivity.
  - intros Ht.
    assert (Hrun : change_zoom z w = (Ok tt, w, []) \/
                   (exists e, change_zoom z w = (Raise e, w, [])) \/
                   exists size, change_zoom z w
                                = _update_view (w <| current_font_size := size |>)).
    { destruct z as [| |value]; simpl;
        [unfold zoom_in | unfold zoom_out | unfold zoom_label_clicked];
        bind_unfold; simpl;
        (destruct (is_empty (pages w)); [left; reflexivity|]);
        destruct (current_book_type w) as [[]|]; try contradiction; simpl;
        try (destruct (base_font_size w =? 0); [right; left; eexists; reflexivity|]); simpl;
        try (destruct (scaled_font_size (base_font_size w) value) as [n|e];
             [|right; left; eexists; reflexivity]); simpl;
        repeat match goal with |- context [if ?c then _ else _] => destruct c; simpl end;
        rewrite !run_eta; right; right; eexists; reflexivity. }
    destruct Hrun as [-> | [[e ->] | [size ->]]]; try (repeat split; reflexivity).
    assert (Hn : view_mode (w <| current_font_size := size |>) = Single \/
                 current_book_type (w <| current_font_size := size |>) <> Some Pdf)
      by (right; exact Ht).
    destruct (_update_view_no_rebuild _ Hn) as (_ & Hl & Hd).
    rewrite _update_view_zoom, _update_view_mode, Hl, Hd, (_update_view_silent _ Hn).
    repeat split; reflexivity.
Qed.

Lemma zoom_changes_one_scale_witness :
  current_font_size (final (change_zoom StepIn reading_pdf)) = current_font_size reading_pdf /\
  current_zoom (final (change_zoom StepIn reading_epub)) = current_zoom reading_epub /\
  trace (change_zoom StepIn reading_epub) = [].
Proof.
  destruct (zoom_changes_one_scale StepIn reading_pdf) as [Hpdf _].
  destruct (zoom_changes_one_scale StepIn reading_epub) as [_ Hepub].
  split; [apply Hpdf; by_compute|].
  destruct Hepub as (Hz & _ & _ & _ & Ht); [intros H; vm_compute in H; discriminate H|].
  split; [exact Hz | exact Ht].
Defined.

(** X16. A zoom change on a PDF shown in single-page mode succeeds without
    rebuilding: empty trace, dirty flag and continuous layout as before,
    still single-page mode. *)
Theorem single_page_zoom_does_not_rebuild (z : zoom_change) (w : window) :
  current_book_type w = Some Pdf -> view_mode w = Single -> pages w <> [] ->
  outcome (change_zoom z w) = Ok tt /\
  trace (change_zoom z w) = [] /\
  _continuous_needs_build (final (change_zoom z w)) = _continuous_needs_build w /\
  multi_layout (final (change_zoom z w)) = multi_layout w /\
  view_mode (final (change_zoom z w)) = Single.
Proof.
  intros Ht Hm Hp. apply is_empty_false in Hp.
  assert (Hrun : exists w1, change_zoom z w = _update_view w1 /\
                    view_mode w1 = Single /\ current_book_type w1 = Some Pdf /\
                    multi_layout w1 = multi_layout w /\
                    _continuous_needs_build w1 = _continuous_needs_build w).
  { destruct z as [| |value]; simpl;
      [unfold zoom_in | unfold zoom_out | unfold zoom_label_clicked];
      bind_unfold; simpl; rewrite Hp, Ht; simpl;
      repeat match goal with |- context [Qltb ?a ?b] => destruct (Qltb a b); simpl end;
      unfold_setters; simpl; rewrite Hm; simpl; rewrite !run_eta;
      eexists; (split; [reflexivity|]); simpl; auto. }
  destruct Hrun as (w1 & -> & Hm1 & Ht1 & Hl1 & Hd1).
  assert (Hn : view_mode w1 = Single \/ current_book_type w1 <> Some Pdf)
    by (left; exact Hm1).
  destruct (_update_view_no_rebuild _ Hn) as (_ & Hl & Hd).
  rewrite (_update_view_pdf_ok _ Ht1), (_update_view_silent _ Hn), Hl, Hd, _update_view_mode.
  repeat split; assumption.
Qed.

Lemma single_page_zoom_does_not_rebuild_witness :
  outcome (change_zoom StepIn reading_pdf) = Ok tt /\
  trace (change_zoom StepIn reading_pdf) = [] /\
  _continuous_needs_build (final (change_zoom StepIn reading_pdf))
    = _continuous_needs_build reading_pdf /\
  multi_layout (final (change_zoom StepIn reading_pdf)) = multi_layout reading_pdf /\
  view_mode (final (change_zoom StepIn reading_pdf)) = Single.
Proof.
  exact (single_page_zoom_does_not_rebuild StepIn reading_pdf
           ltac:(by_compute) ltac:(by_compute) ltac:(by_compute)).
Defined.

Lemma zoom_in_font (w : window) :
  pages w <> [] -> current_book_type w <> Some Pdf ->
  current_font_size (final (zoom_in w)) = Z.min (current_font_size w + 1) 40 /\
  document (final (zoom_in w)) = document w.
Proof.
  intros Hp Ht. split; [|apply (run_keeps_document ZoomIn); intros env; discriminate].
  apply is_empty_false in Hp. unfold zoom_in. bind_unfold. simpl. rewrite Hp.
  destruct (current_book_type w) as [[]|]; try contradiction; simpl;
    destruct (40 <? current_font_size w + 1) eqn:L; simpl; rewrite !run_eta;
    rewrite _update_view_font; simpl;
    try (apply Z.ltb_lt in L); try (apply Z.ltb_ge in L);
    [rewrite Z.min_r by lia | rewrite Z.min_l by lia
    |rewrite Z.min_r by lia | rewrite Z.min_l by lia]; reflexivity.
Qed.

Lemma zoom_out_font (w : window) :
  pages w <> [] -> current_book_type w <> Some Pdf ->
  current_font_size (final (zoom_out w)) = Z.max (current_font_size w - 1) 8 /\
  document (final (zoom_out w)) = document w.
Proof.
  intros Hp Ht. split; [|apply (run_keeps_document ZoomOut); intros env; discriminate].
  apply is_empty_false in Hp. unfold zoom_out. bind_unfold. simpl. rewrite Hp.
  destruct (current_book_type w) as [[]|]; try contradiction; simpl;
    destruct (current_font_size w - 1 <? 8) eqn:L; simpl; rewrite !run_eta;
    rewrite _update_view_font; simpl;
    try (apply Z.ltb_lt in L); try (apply Z.ltb_ge in L);
    [rewrite Z.max_r by lia | rewrite Z.max_l by lia
    |rewrite Z.max_r by lia | rewrite Z.max_l by lia]; reflexivity.
Qed.

(** X17. With an EPUB, [zoom_out] undoes [zoom_in] for font sizes 8..39 and
    [zoom_in] undoes [zoom_out] for font sizes 9..40. *)
Theorem font_steps_cancel (w : window) :
  pages w <> [] -> current_book_type w <> Some Pdf ->
  (8 <= current_font_size w < 40 ->
     current_font_size (final (zoom_out (final (zoom_in w)))) = current_font_size w) /\
  (8 < current_font_size w <= 40 ->
     current_font_size (final (zoom_in (final (zoom_out w)))) = current_font_size w).
Proof.
  intros Hp Ht.
  destruct (zoom_in_font w Hp Ht) as [Hi Hdi].
  destruct (zoom_out_font w Hp Ht) as [Ho Hdo].
  unfold document in Hdi, Hdo.
  assert (Hpi : pages (final (zoom_in w)) <> []) by congruence.
  assert (Hti : current_book_type (final (zoom_in w)) <> Some Pdf) by congruence.
  assert (Hpo : pages (final (zoom_out w)) <> []) by congruence.
  assert (Hto : current_book_type (final (zoom_out w)) <> Some Pdf) by congruence.
  split; intros H.
  - destruct (zoom_out_font _ Hpi Hti) as [-> _]. rewrite Hi.
    rewrite Z.min_l by lia. rewrite Z.max_l by lia. lia.
  - destruct (zoom_in_font _ Hpo Hto) as [-> _]. rewrite Ho.
    rewrite Z.max_l by lia. rewrite Z.min_l by lia. lia.
Qed.

Lemma font_steps_cancel_witness :
  current_font_size (final (zoom_out (final (zoom_in reading_epub))))
    = current_font_size reading_epub /\
  current_font_size (final (zoom_in (final (zoom_out reading_epub))))
    = current_font_size reading_epub.
Proof.
  destruct (font_steps_cancel reading_epub ltac:(by_compute)
              ltac:(intros H; vm_compute in H; discriminate H)) as [Hup Hdown].
  split; [apply Hup | apply Hdown]; by_compute.
Defined.

(** ** A typed percentage *)






(** ** Saving the settings *)

(** [str(n)] holds no [%]. *)
Lemma pretty_N_char_plain (x : N) : Ascii.eqb (pretty_N_char x) "%"%char = false.
Proof. unfold pretty_N_char. repeat case_match; reflexivity. Qed.

Lemma pretty_N_go_plain (x : N) (s : string) :
  contains_percent s = false -> contains_percent (pretty_N_go x s) = false.
Proof.
  revert s. induction (N.lt_wf_0 x) as [x _ IH]; intros s Hs.
  destruct (decide (x = 0)%N) as [->|Hx].
  - rewrite pretty_N_go_0. exact Hs.
  - rewrite pretty_N_go_step by lia. apply IH.
    + apply N.div_lt; lia.
    + simpl. rewrite pretty_N_char_plain, Hs. reflexivity.
Qed.

Lemma pretty_N_plain (x : N) : contains_percent (pretty x) = false.
Proof.
  unfold pretty, pretty_N. destruct (decide (x = 0)%N); [reflexivity|].
  apply pretty_N_go_plain. reflexivity.
Qed.

Lemma pretty_Z_plain (z : Z) : contains_percent (pretty z) = false.
Proof.
  destruct z as [|p|p]; unfold pretty, pretty_Z.
  - reflexivity.
  - apply pretty_N_plain.
  - simpl. apply pretty_N_plain.
Qed.

Lemma set_general_run (option : string) (value : window -> string) (w : window) :
  set_general option value w =
  if before_set (value w)
  then (Ok tt, w <| config := cfg_store (config w) "General" option (value w) |>, [])
  else (Raise ValueError, w, []).
Proof.
  unfold set_general, cfg_set. bind_unfold. simpl.
  destruct (before_set (value w)); reflexivity.
Qed.

(** A change of the parser leaves the other attributes alone. *)
Ltac skip_set_config :=
  repeat match goal with
         | |- context [?p (set_config ?f ?w)] =>
             lazymatch p with
             | config => fail
             | _ => change (p (set_config f w)) with (p w)
             end
         end.

Lemma save_settings_run (w : window) :
  has_section (config w) "General" = true ->
  settings_storable w = true ->
  save_settings w =
  (Ok tt, w <| config := saved_config w |> <| disk := Stored (saved_config w) |>, []).
Proof.
  intros Hs Hv. unfold settings_storable in Hv.
  apply andb_true_iff in Hv as [Hv Hl]. apply andb_true_iff in Hv as [Ht Hf].
  pose proof (before_set_plain _ (pretty_Z_plain (base_font_size w))) as Hn.
  unfold save_settings. bind_unfold. simpl. rewrite Hs.
  rewrite set_general_run, Ht. simpl.
  rewrite set_general_run. skip_set_config. rewrite Hf. simpl.
  rewrite set_general_run. skip_set_config. rewrite Hn. simpl.
  rewrite set_general_run. skip_set_config. rewrite Hl. simpl.
  reflexivity.
Qed.


Lemma saved_config_section (w : window) :
  has_section (config w) "General" = true ->
  has_section (saved_config w) "General" = true.
Proof. intros H. unfold saved_config. rewrite !cfg_store_section. exact H. Qed.

Lemma saved_config_lookup (w : window) (k : string) :
  has_section (config w) "General" = true ->
  cfg_lookup (saved_config w) "General" k =
  if decide ("language" = k) then Some (language w)
  else if decide ("font_size" = k) then Some (pretty (base_font_size w))
  else if decide ("font_family" = k) then Some (font_family w)
  else if decide ("theme" = k) then Some (theme w)
  else cfg_lookup (config w) "General" k.
Proof.
  intros H. unfold saved_config.
  rewrite cfg_store_lookup by (rewrite !cfg_store_section; exact H).
  rewrite cfg_store_lookup by (rewrite !cfg_store_section; exact H).
  rewrite cfg_store_lookup by (rewrite !cfg_store_section; exact H).
  rewrite cfg_store_lookup by exact H. reflexivity.
Qed.



Lemma open_settings_dialog_run (v : settings_values) (w : window) :
  language w = "en" \/ language w = "th" ->
  has_section (config w) "General" = true ->
  before_set (v_theme v) && before_set (v_font_family v) && before_set (v_language v)
    = true ->
  exists w1,
    open_settings_dialog (Some v) w = _update_view w1 /\
    font_family w1 = v_font_family v /\
    base_font_size w1 = v_font_size v /\
    current_font_size w1 = v_font_size v /\
    theme w1 = v_theme v /\
    language w1 = v_language v /\
    disk w1 = Stored (config w1) /\
    has_section (config w1) "General" = true /\
    pages w1 = pages w /\ current_index w1 = current_index w /\
    current_zoom w1 = current_zoom w /\ view_mode w1 = view_mode w /\
    (forall k, cfg_lookup (config w1) "General" k =
       if decide ("language" = k) then Some (v_language v)
       else if decide ("font_size" = k) then Some (pretty (v_font_size v))
       else if decide ("font_family" = k) then Some (v_font_family v)
       else if decide ("theme" = k) then Some (v_theme v)
       else cfg_lookup (config w) "General" k).
Proof.
  intros Hl Hs Hv.
  eexists. split.
  - unfold open_settings_dialog. bind_unfold. simpl.
    assert (String.eqb (language w) "en" || String.eqb (language w) "th" = true) as ->.
    { destruct Hl as [-> | ->]; reflexivity. }
    simpl.
    match goal with
    | |- context [save_settings ?x] => rewrite (save_settings_run x Hs Hv)
    end.
    rewrite !run_eta. reflexivity.
  - do 6 (split; [reflexivity|]).
    split; [apply saved_config_section; exact Hs|].
    do 4 (split; [reflexivity|]).
    intros k.
    match goal with
    | |- cfg_lookup (config (_ <| config := saved_config ?w0 |> <| disk := _ |>)) _ _ = _ =>
        change (cfg_lookup (saved_config w0) "General" k =
                if decide ("language" = k) then Some (language w0)
                else if decide ("font_size" = k) then Some (pretty (base_font_size w0))
                else if decide ("font_family" = k) then Some (font_family w0)
                else if decide ("theme" = k) then Some (theme w0)
                else cfg_lookup (config w0) "General" k);
        apply (saved_config_lookup w0 k)
    end.
    exact Hs.
Qed.

(** X19. Accepting the settings dialog with a family, a theme and a language
    that hold no [%] installs the chosen family, size, theme and language,
    sets the current font size to the chosen size, writes the parser to disk
    with the four options holding the chosen values, and keeps pages, index,
    zoom and layout mode. *)
Theorem accepted_settings_are_persisted (v : settings_values) (w : window) :
  language w = "en" \/ language w = "th" ->
  has_section (config w) "General" = true ->
  contains_percent (v_font_family v) = false ->
  contains_percent (v_theme v) = false ->
  contains_percent (v_language v) = false ->
  let w' := final (open_settings_dialog (Some v) w) in
  font_family w' = v_font_family v /\
  base_font_size w' = v_font_size v /\
  current_font_size w' = v_font_size v /\
  theme w' = v_theme v /\
  language w' = v_language v /\
  disk w' = Stored (config w') /\
  cfg_get (config w') "General" "font_family" = Ok (v_font_family v) /\
  cfg_get (config w') "General" "font_size" = Ok (pretty (v_font_size v)) /\
  cfg_get (config w') "General" "theme" = Ok (v_theme v) /\
  cfg_get (config w') "General" "language" = Ok (v_language v) /\
  pages w' = pages w /\ current_index w' = current_index w /\
  current_zoom w' = current_zoom w /\ view_mode w' = view_mode w.
Proof.
  intros Hl Hs Hpf Hpt Hpl.
  assert (Hv : before_set (v_theme v) && before_set (v_font_family v)
               && before_set (v_language v) = true).
  { rewrite !before_set_plain by assumption. reflexivity. }
  destruct (open_settings_dialog_run v w Hl Hs Hv)
    as (w1 & Hrun & Hf & Hb & Hc & Ht & Hla & Hd & Hsec & Kp & Ki & Kz & Km & Hk).
  cbv zeta. rewrite Hrun.
  pose proof (_update_view_core w1) as Hcore. unfold core in Hcore.
  injection Hcore as Hcfg Hdisk Hlang Hth Hff Hbf _ _ _ Hp _ _ Hi Hcf Hz Hm _ _.
  rewrite Hcfg, Hdisk, Hlang, Hth, Hff, Hbf, Hp, Hi, Hcf, Hz, Hm.
  do 6 (split; [solve [assumption | congruence]|]).
  split; [apply cfg_get_plain; [rewrite Hk; reflexivity | exact Hpf]|].
  split; [apply cfg_get_plain; [rewrite Hk; reflexivity | apply pretty_Z_plain]|].
  split; [apply cfg_get_plain; [rewrite Hk; reflexivity | exact Hpt]|].
  split; [apply cfg_get_plain; [rewrite Hk; reflexivity | exact Hpl]|].
  repeat (split; [assumption|]). assumption.
Qed.

Lemma accepted_settings_are_persisted_witness :
  base_font_size (final (open_settings_dialog (Some dark_thai) reading_epub)) = 14 /\
  language (final (open_settings_dialog (Some dark_thai) reading_epub)) = "th" /\
  disk (final (open_settings_dialog (Some dark_thai) reading_epub)) =
    Stored (config (final (open_settings_dialog (Some dark_thai) reading_epub))) /\
  cfg_get (config (final (open_settings_dialog (Some dark_thai) reading_epub)))
    "General" "font_size" = Ok (pretty (v_font_size dark_thai)).
Proof.
  destruct (accepted_settings_are_persisted dark_thai reading_epub
              ltac:(left; by_compute) ltac:(by_compute)
              eq_refl eq_refl eq_refl)
    as (_ & Hb & _ & _ & Hl & Hd & _ & Hs & _).
  split; [exact Hb|]. split; [exact Hl|]. split; [exact Hd | exact Hs].
Defined.

(** ** Translations *)

Lemma LANG_STRINGS_same_keys : dom english = dom thai.
Proof. vm_compute. reflexivity. Qed.

Lemma tr_bundle (w : window) (key : string) :
  tr w key = default key ((if decide (language w = "th") then thai else english) !! key).
Proof.
  unfold tr, LANG_STRINGS.
  destruct (decide (language w = "th")) as [->|Hth].
  - rewrite lookup_insert_ne by discriminate. rewrite lookup_insert_eq. reflexivity.
  - destruct (decide (language w = "en")) as [->|Hen].
    + rewrite lookup_insert_eq. reflexivity.
    + rewrite lookup_insert_ne by congruence. rewrite lookup_insert_ne by congruence.
      rewrite lookup_empty. reflexivity.
Qed.

(** X21. [tr] never fails: any language other than "th" reads the English
    bundle, a key English lacks is returned as it is, and since both bundles
    have the same keys a Thai window gets the Thai text of every key English
    has. *)
Theorem tr_falls_back (w : window) (key : string) :
  (language w <> "th" -> tr w key = default key (english !! key)) /\
  (english !! key = None -> tr w key = key) /\
  (language w = "th" -> is_Some (english !! key) -> thai !! key = Some (tr w key)).
Proof.
  rewrite tr_bundle. split; [|split].
  - intros Hth. destruct (decide (language w = "th")); [contradiction | reflexivity].
  - intros Hnone.
    assert (Hth : thai !! key = None).
    { apply not_elem_of_dom. rewrite <- LANG_STRINGS_same_keys. apply not_elem_of_dom.
      exact Hnone. }
    destruct (decide (language w = "th")); [rewrite Hth | rewrite Hnone]; reflexivity.
  - intros Hl Hen. destruct (decide (language w = "th")); [|contradiction].
    assert (Hth : is_Some (thai !! key)).
    { apply elem_of_dom. rewrite <- LANG_STRINGS_same_keys. apply elem_of_dom. exact Hen. }
    destruct Hth as [text ->]. reflexivity.
Qed.

Lemma tr_falls_back_witness :
  tr french_window "open" = default "open" (english !! "open") /\
  tr thai_window "page_count" = "page_count" /\
  thai !! "open" = Some (tr thai_window "open").
Proof.
  split; [|split].
  - apply (proj1 (tr_falls_back french_window "open")).
    intros H. vm_compute in H. discriminate H.
  - apply (proj1 (proj2 (tr_falls_back thai_window "page_count"))). by_compute.
  - apply (proj2 (proj2 (tr_falls_back thai_window "open"))); [by_compute|].
    exists "Open". vm_compute. reflexivity.
Defined.

(** ** The conversion dialog *)

Ltac convert_case :=
  match goal with
  | |- context [match ?x with Ok _ => _ | Raise _ => _ end] =>
      lazymatch x with
      | context [match _ with Ok _ => _ | Raise _ => _ end] => fail
      | _ => destruct x; simpl
      end
  end.

Lemma perform_convert_cases (env : convert_env) (d : ConvertDialog) :
  (exists written,
     perform_convert env d =
       (accept d, [written; ConvertInformation "Success" "Conversion completed."]) /\
     is_written written = true /\ written_path written = Some (output_path d) /\
     input_paths d <> [] /\ output_path d <> EmptyString) \/
  (exists message,
     perform_convert env d = (d, [message]) /\ is_written message = false).
Proof.
  unfold perform_convert.
  destruct (input_paths d) as [|path rest] eqn:Hin; simpl.
  { right. eexists. split; reflexivity. }
  destruct (String.eqb (output_path d) EmptyString) eqn:Hout.
  { right. eexists. split; reflexivity. }
  apply String.eqb_neq in Hout.
  destruct (mode_combo d);
    unfold _convert_text_to_pdf, _convert_text_to_epub, _convert_images_to_pdf;
    rewrite Hin;
    simpl; repeat convert_case;
    first [ right; eexists; split; reflexivity
          | left; eexists; repeat split; try reflexivity; try assumption; congruence ].
Qed.

(** X22. [perform_convert] either writes exactly one file, at the chosen
    output path, reports success and accepts the dialog (which needs an
    input and an output), or writes nothing, shows one message and leaves
    the dialog as it was. *)
Theorem perform_convert_writes_once (env : convert_env) (d : ConvertDialog) :
  dialog_accepted d = false ->
  let d' := fst (perform_convert env d) in
  let shown := snd (perform_convert env d) in
  (dialog_accepted d' = true ->
     input_paths d <> [] /\ output_path d <> EmptyString /\
     exists written,
       shown = [written; ConvertInformation "Success" "Conversion completed."] /\
       is_written written = true /\ written_path written = Some (output_path d)) /\
  (dialog_accepted d' = false ->
     d' = d /\ length shown = 1%nat /\ existsb is_written shown = false).
Proof.
  intros Hd. cbv zeta.
  destruct (perform_convert_cases env d)
    as [(written & -> & Hw & Hp & Hi & Ho) | (message & -> & Hm)]; simpl.
  - split; [intros _ | discriminate].
    split; [exact Hi|]. split; [exact Ho|]. exists written. auto.
  - split; [intros H; congruence|]. intros _. rewrite Hm. auto.
Qed.

Lemma perform_convert_writes_once_witness :
  (dialog_accepted (fst (perform_convert working_disk protected_text_dialog)) = true ->
     input_paths protected_text_dialog <> [] /\
     output_path protected_text_dialog <> EmptyString /\
     exists written,
       snd (perform_convert working_disk protected_text_dialog)
         = [written; ConvertInformation "Success" "Conversion completed."] /\
       is_written written = true /\
       written_path written = Some (output_path protected_text_dialog)) /\
  (dialog_accepted (fst (perform_convert working_disk protected_text_dialog)) = false ->
     fst (perform_convert working_disk protected_text_dialog) = protected_text_dialog /\
     length (snd (perform_convert working_disk protected_text_dialog)) = 1%nat /\
     existsb is_written (snd (perform_convert working_disk protected_text_dialog)) = false).
Proof.
  exact (perform_convert_writes_once working_disk protected_text_dialog eq_refl).
Defined.

(** X23. A PDF written by a conversion goes to the chosen output path, is
    never written in text-to-EPUB mode, and is encrypted exactly when the
    box is ticked and the password is not empty, with that password. *)
Theorem saved_pdf_password (env : convert_env) (d : ConvertDialog)
    (path : string) (content : pdf_content) (user_pw : option string) :
  In (SavedPdf path content user_pw) (snd (perform_convert env d)) ->
  mode_combo d <> text_epub /\ path = output_path d /\
  match user_pw with
  | Some pw => password_check d = true /\ pw = password_edit d /\ pw <> EmptyString
  | None => password_check d = false \/ password_edit d = EmptyString
  end.
Proof.
  unfold perform_convert.
  destruct (is_empty (input_paths d)); [simpl; intros [H|[]]; discriminate|].
  destruct (String.eqb (output_path d) EmptyString); [simpl; intros [H|[]]; discriminate|].
  assert (Hpw : match pdf_password d with
                | Some pw => password_check d = true /\ pw = password_edit d /\ pw <> EmptyString
                | None => password_check d = false \/ password_edit d = EmptyString
                end).
  { unfold pdf_password. destruct (password_check d); simpl; [|left; reflexivity].
    destruct (String.eqb (password_edit d) EmptyString) eqn:E; simpl.
    - right. apply String.eqb_eq. exact E.
    - apply String.eqb_neq in E. auto. }
  destruct (mode_combo d);
    unfold _convert_text_to_pdf, _convert_text_to_epub, _convert_images_to_pdf;
    destruct (input_paths d) as [|p rest]; simpl;
    repeat convert_case;
    intros H; repeat (destruct H as [H|H]; try discriminate); try contradiction;
    injection H as <- <- <-; (split; [discriminate|]); (split; [reflexivity|]); exact Hpw.
Qed.

Lemma saved_pdf_password_witness :
  mode_combo protected_text_dialog <> text_epub /\
  "notes.pdf" = output_path protected_text_dialog /\
  password_check protected_text_dialog = true /\
  "secret" = password_edit protected_text_dialog /\ "secret" <> EmptyString.
Proof.
  apply (saved_pdf_password working_disk protected_text_dialog
           "notes.pdf" (TextBox "hello") (Some "secret")).
  left. reflexivity.
Defined.




(** X25. The text conversions read the first selected path only: further
    paths left over from an image selection change nothing. *)
Theorem text_conversion_reads_first_input (env : convert_env) (d : ConvertDialog)
    (path : string) (rest : list string) :
  text_mode (mode_combo d) = true ->
  input_paths d = path :: rest ->
  snd (perform_convert env d) = snd (perform_convert env (with_input [path] d)).
Proof.
  intros Hm Hi. unfold perform_convert. rewrite Hi. simpl.
  destruct (String.eqb (output_path d) EmptyString); [reflexivity|].
  destruct (mode_combo d); try discriminate;
    unfold _convert_text_to_pdf, _convert_text_to_epub, pdf_password, with_input;
    simpl; rewrite Hi; repeat convert_case; reflexivity.
Qed.

Lemma text_conversion_reads_first_input_witness :
  snd (perform_convert working_disk (with_input ["notes.txt"; "more.txt"] protected_text_dialog))
  = snd (perform_convert working_disk
           (with_input ["notes.txt"]
              (with_input ["notes.txt"; "more.txt"] protected_text_dialog))).
Proof.
  exact (text_conversion_reads_first_input working_disk
           (with_input ["notes.txt"; "more.txt"] protected_text_dialog)
           "notes.txt" ["more.txt"] eq_refl eq_refl).
Defined.

(** X26. A dialog filled in through the two choosers passes the checks of
    [perform_convert]: after an answered [choose_input] and an answered
    [choose_output] the output path is the chosen one, the input is the
    chosen image list or the one chosen text file, and the conversion shows
    no warning.  A dismissed chooser keeps the earlier selection. *)
Theorem chosen_files_pass_the_checks (env : convert_env) (paths : list string)
    (path out : string) (d : ConvertDialog) :
  (choose_input env [] EmptyString d = d /\ choose_output env EmptyString d = d) /\
  (out <> EmptyString ->
   (if text_mode (mode_combo d) then path <> EmptyString else paths <> []) ->
   let d' := choose_output env out (choose_input env paths path d) in
   output_path d' = out /\
   input_paths d' = (if text_mode (mode_combo d) then [path] else paths) /\
   existsb is_warning (snd (perform_convert env d')) = false).
Proof.
  split.
  - split; [unfold choose_input; destruct (mode_combo d); reflexivity | reflexivity].
  - intros Hout Hin. apply String.eqb_neq in Hout.
    assert (Hd : choose_output env out (choose_input env paths path d) =
                 {| mode_combo := mode_combo d;
                    input_label := if text_mode (mode_combo d)
                                   then InputFile (basename env path)
                                   else InputImages (length paths);
                    output_label := OutputFile (basename env out);
                    password_check := password_check d;
                    password_edit := password_edit d;
                    input_paths := if text_mode (mode_combo d) then [path] else paths;
                    output_path := out;
                    dialog_accepted := dialog_accepted d |}).
    { unfold choose_output, choose_input. rewrite Hout.
      destruct (mode_combo d); simpl in Hin |- *;
        try (apply String.eqb_neq in Hin; rewrite Hin; reflexivity).
      apply is_empty_false in Hin. rewrite Hin. reflexivity. }
    cbv zeta. rewrite Hd. simpl. split; [reflexivity|]. split; [reflexivity|].
    unfold perform_convert. simpl. rewrite Hout.
    assert (He : is_empty (if text_mode (mode_combo d) then [path] else paths) = false).
    { destruct (mode_combo d); simpl in Hin |- *; try reflexivity.
      apply is_empty_false, Hin. }
    rewrite He. clear He Hd.
    destruct (mode_combo d);
      unfold _convert_text_to_pdf, _convert_text_to_epub, _convert_images_to_pdf;
      simpl; repeat convert_case; reflexivity.
Qed.

Lemma chosen_files_pass_the_checks_witness :
  output_path (choose_output working_disk "album.pdf"
                 (choose_input working_disk ["a.png"; "b.png"] EmptyString
                    (with_input [] album_dialog))) = "album.pdf" /\
  input_paths (choose_output working_disk "album.pdf"
                 (choose_input working_disk ["a.png"; "b.png"] EmptyString
                    (with_input [] album_dialog))) = ["a.png"; "b.png"] /\
  existsb is_warning
    (snd (perform_convert working_disk
            (choose_output working_disk "album.pdf"
               (choose_input working_disk ["a.png"; "b.png"] EmptyString
                  (with_input [] album_dialog))))) = false.
Proof.
  apply (proj2 (chosen_files_pass_the_checks working_disk ["a.png"; "b.png"] EmptyString
                  "album.pdf" (with_input [] album_dialog))); discriminate.
Defined.

(** ** The ranges and the page invariant on the sample windows *)

Lemma reachable_zoom_in_range_witness : zoom_in_range reading_continuous.
Proof.
  exact (reachable_zoom_in_range reading_continuous reading_continuous_reachable).
Defined.

Lemma page_invariant_preserved_witness :
  page_invariant (final (run (OpenFile two_chapters) on_last_page)).
Proof.
  apply (page_invariant_preserved (OpenFile two_chapters) on_last_page).
  - right. unfold index_valid. by_compute.
  - exact I.
  - intros env H. injection H as <-. by_compute.
Defined.

Lemma font_in_range_preserved_witness :
  font_sizes_in_range (final (run (Settings (Some dark_thai)) reading_epub)).
Proof.
  apply (font_in_range_preserved (Settings (Some dark_thai)) reading_epub).
  - unfold font_sizes_in_range, font_in_range. by_compute.
  - intros v H. injection H as <-. by_compute.
Defined.
